(** * MQTT credential-management test client: a shallow embedding

    The development embeds the two scripts of the repository,
    [mqtt_credential_test.py] and [mqtt_issue_cert.py], and proves the
    properties their specification states about them.

    Conventions of the embedding.
    - A Python [str] is represented by its UTF-8 encoding, a [string]
      (a list of 8-bit characters).  The byte [0x2F] ('/') never occurs
      inside a multi-byte UTF-8 sequence, so splitting on it byte-wise is
      splitting on it code-point-wise.
    - A Python [bytes] object is a [list byte].
    - A Python [int] is a [Z]; a [float] is the rational [Q] it denotes.
      The clock readings and the waiting times of the loops are kept as they
      are; the one float sum of the scripts that meets a large integer,
      [time.time() + expiry], is rounded as binary64 arithmetic rounds it
      (module [Float]).
    - A call that can raise returns a [result]; code that prints, reads the
      clock, talks to the transport or mutates the module globals runs in the
      state-and-exception monad [M] over the record [world]. *)

From Stdlib Require Import ZArith QArith Qround Qabs Qminmax Qpower.
From Stdlib Require Import Lia Lqa Bool List.
From Stdlib Require Import Ascii String Strings.Byte DecimalString DecimalZ.
Import ListNotations.

Local Open Scope string_scope.
Local Open Scope Z_scope.

(** ** Exceptions and results *)

Module Py.

(** The exceptions the two scripts can meet.  [SystemExit] and
    [KeyboardInterrupt] derive from [BaseException] only, the others from
    [Exception].  [OutOfFuel] is no Python exception: it marks a loop that
    the embedding cut short, and no handler catches it.  The lemmas
    [wait_for_disconnect_terminates] and [wait_for_response_terminates] show
    that the waiting loops never reach it. *)
Inductive exn : Type :=
| SystemExit (code : Z)
| KeyboardInterrupt
| IndexError (msg : string)
| KeyError (msg : string)
| ValueError (msg : string)
| BinasciiError (msg : string)
| OSError (msg : string)
| OverflowError (msg : string)
| OutOfFuel.

(** [isinstance(e, Exception)] *)
Definition is_Exception (e : exn) : bool :=
  match e with
  | SystemExit _ | KeyboardInterrupt | OutOfFuel => false
  | _ => true
  end.

(** [str(e)] *)
Definition str_of_exn (e : exn) : string :=
  match e with
  | SystemExit c => NilEmpty.string_of_int (Z.to_int c)
  | KeyboardInterrupt | OutOfFuel => ""
  | IndexError m | KeyError m | ValueError m | BinasciiError m | OSError m
  | OverflowError m => m
  end.

Inductive result (A : Type) : Type :=
| Ok (a : A)
| Raise (e : exn).
Arguments Ok {A} a.
Arguments Raise {A} e.

Definition rbind {A B} (r : result A) (k : A -> result B) : result B :=
  match r with
  | Ok a => k a
  | Raise e => Raise e
  end.

(** [str(n)] for an [int]. *)
Definition str_of_int (n : Z) : string := NilEmpty.string_of_int (Z.to_int n).

(** [s.split(sep)] for a one-character separator: the list is never empty,
    and adjacent separators delimit empty strings. *)
Fixpoint split (s : string) (sep : ascii) : list string :=
  match s with
  | EmptyString => [EmptyString]
  | String c s' =>
      if Ascii.eqb c sep then EmptyString :: split s' sep
      else match split s' sep with
           | [] => [String c EmptyString]
           | h :: t => String c h :: t
           end
  end.

(** [l[i]] for a non-negative constant index. *)
Definition getitem {A} (l : list A) (i : nat) : result A :=
  match nth_error l i with
  | Some x => Ok x
  | None => Raise (IndexError "list index out of range")
  end.

(** [len(l)] *)
Definition len {A} (l : list A) : Z := Z.of_nat (List.length l).

(** [sub in s], as a proposition. *)
Definition contains (sub s : string) : Prop :=
  exists pre post, s = pre ++ sub ++ post.

End Py.

Import Py.

Notation "x <~ r ;; k" := (rbind r (fun x => k))
  (at level 61, r at next level, right associativity).

(** ** Scenario definitions ([mqtt_credential_test.py]) *)

Module Scenario.

(** The classes of the registry. *)
Inductive scenario_class : Type :=
| HappyPathScenario
| DisconnectReconnectScenario.

(** The attributes [MQTTTestScenario.__init__] sets, and the class of the
    object for the dispatch of [validate_response]. *)
Record scenario : Type := {
  cls : scenario_class;
  name : string;
  description : string;
  request_id : Z;
  subscribe_topic : string;
  publish_topic : option string;
  payload : option (list (string * string));
  disconnect_after_publish : bool;
  reconnect_delay : Z
}.

Definition slash : ascii := "/"%char.

(** [MQTTTestScenario.validate_response] *)
Definition MQTTTestScenario_validate_response
  (self : scenario) (topic payload : string) : result (bool * string) :=
  Ok (true, "Response received").

(** [HappyPathScenario.validate_response] *)
Definition HappyPathScenario_validate_response
  (self : scenario) (topic payload : string) : result (bool * string) :=
  let parts := split topic slash in
  if len parts >=? 4 then
    status_code <~ getitem parts 3 ;;
    if String.eqb status_code "202" then
      Ok (true, "✓ SUCCESS: Received expected status code 202")
    else
      Ok (false, "✗ FAILURE: Expected status code 202, got " ++ status_code)
  else
    Ok (false, "✗ FAILURE: Could not parse status code from topic").

(** [DisconnectReconnectScenario.validate_response] *)
Definition DisconnectReconnectScenario_validate_response
  (self : scenario) (topic payload : string) : result (bool * string) :=
  let parts := split topic slash in
  if len parts >=? 4 then
    status_code <~ getitem parts 3 ;;
    if String.eqb status_code "202" then
      Ok (true, "✓ SUCCESS: Received response after reconnection (status code 202)")
    else
      Ok (false, "✗ FAILURE: Expected status code 202, got " ++ status_code)
  else
    Ok (false, "✗ FAILURE: Could not parse status code from topic").

(** [scenario.validate_response(topic, payload)]: method dispatch on the
    class of the object. *)
Definition validate_response
  (self : scenario) (topic payload : string) : result (bool * string) :=
  match cls self with
  | HappyPathScenario => HappyPathScenario_validate_response self topic payload
  | DisconnectReconnectScenario =>
      DisconnectReconnectScenario_validate_response self topic payload
  end.

(** [MQTTTestScenario.get_publish_topic] and
    [MQTTTestScenario.get_payload] *)
Definition get_publish_topic (self : scenario) : option string :=
  publish_topic self.

Definition get_payload (self : scenario) : option (list (string * string)) :=
  payload self.

End Scenario.


(** ** The standard-library functions [generate_sas_token] calls

    [base64.b64decode], [base64.b64encode], [urllib.parse.quote_plus],
    [hashlib.sha256] and [hmac.new(...).digest()], each as an executable
    function on bytes. *)

Module Bytes.

Definition to_Z (b : byte) : Z := Z.of_N (Byte.to_N b).

Definition of_Z (z : Z) : byte :=
  match Byte.of_N (Z.to_N (z mod 256)) with
  | Some b => b
  | None => x00
  end.

(** [s.encode('utf-8')]: the representation of a [str] is its encoding. *)
Definition encode_utf8 (s : string) : list byte := list_byte_of_string s.

(** [b.decode('utf-8')] of bytes that are ASCII (the Base64 alphabet). *)
Definition decode_ascii (b : list byte) : string := string_of_list_byte b.

End Bytes.

Module Base64.

Import Bytes.

(** [binascii]'s decoding table: the value of a character of the alphabet,
    [None] for every other character. *)
Definition table_a2b (c : byte) : option Z :=
  let n := to_Z c in
  if (65 <=? n) && (n <=? 90) then Some (n - 65)
  else if (97 <=? n) && (n <=? 122) then Some (n - 97 + 26)
  else if (48 <=? n) && (n <=? 57) then Some (n - 48 + 52)
  else if n =? 43 then Some 62
  else if n =? 47 then Some 63
  else None.

Definition BASE64_PAD : Z := 61.

(** The loop of [binascii.a2b_base64] (CPython 3.11) with [strict_mode] off,
    which is what
    [base64.b64decode(s)] runs when [validate] is left at its default: a
    character outside the alphabet is skipped, a pad character counts only
    once two characters of the current quad were read, a complete pad
    sequence stops the parse and leaves the rest of the input unread, and
    only an incomplete last quad is an error.  [out] holds the decoded bytes
    in reverse. *)
Fixpoint a2b_loop (data : list byte) (quad_pos leftchar pads : Z)
  (out : list byte) : result (list byte) :=
  match data with
  | [] =>
      if quad_pos =? 0 then Ok (rev out)
      else if quad_pos =? 1 then
        Raise (BinasciiError
          ("Invalid base64-encoded string: number of data characters ("
           ++ str_of_int (len out / 3 * 4 + 1)
           ++ ") cannot be 1 more than a multiple of 4"))
      else Raise (BinasciiError "Incorrect padding")
  | c :: rest =>
      if to_Z c =? BASE64_PAD then
        if quad_pos >=? 2 then
          if quad_pos + (pads + 1) >=? 4 then Ok (rev out)
          else a2b_loop rest quad_pos leftchar (pads + 1) out
        else a2b_loop rest quad_pos leftchar pads out
      else
        match table_a2b c with
        | None => a2b_loop rest quad_pos leftchar pads out
        | Some this_ch =>
            if quad_pos =? 0 then
              a2b_loop rest 1 this_ch 0 out
            else if quad_pos =? 1 then
              a2b_loop rest 2 (Z.land this_ch 15) 0
                (of_Z (Z.lor (Z.shiftl leftchar 2) (Z.shiftr this_ch 4)) :: out)
            else if quad_pos =? 2 then
              a2b_loop rest 3 (Z.land this_ch 3) 0
                (of_Z (Z.lor (Z.shiftl leftchar 4) (Z.shiftr this_ch 2)) :: out)
            else
              a2b_loop rest 0 0 0
                (of_Z (Z.lor (Z.shiftl leftchar 6) this_ch) :: out)
        end
  end.

Definition a2b_base64 (data : list byte) : result (list byte) :=
  a2b_loop data 0 0 0 [].

Definition is_ascii (s : string) : bool :=
  forallb (fun c => to_Z c <? 128) (list_byte_of_string s).

(** [base64.b64decode(s)] for a [str] argument: the string is encoded as
    ASCII first, which fails on any other character. *)
Definition b64decode (s : string) : result (list byte) :=
  if is_ascii s then a2b_base64 (list_byte_of_string s)
  else Raise (ValueError "string argument should contain only ASCII characters").

(** The encoding alphabet. *)
Definition table_b2a (v : Z) : byte :=
  if v <? 26 then of_Z (v + 65)
  else if v <? 52 then of_Z (v - 26 + 97)
  else if v <? 62 then of_Z (v - 52 + 48)
  else if v =? 62 then of_Z 43
  else of_Z 47.

Definition pad_byte : byte := of_Z BASE64_PAD.

(** [base64.b64encode(b)] *)
Fixpoint b64encode (b : list byte) : list byte :=
  match b with
  | [] => []
  | [x] =>
      let x := to_Z x in
      [table_b2a (Z.shiftr x 2); table_b2a (Z.shiftl (Z.land x 3) 4);
       pad_byte; pad_byte]
  | [x; y] =>
      let x := to_Z x in
      let y := to_Z y in
      [table_b2a (Z.shiftr x 2);
       table_b2a (Z.lor (Z.shiftl (Z.land x 3) 4) (Z.shiftr y 4));
       table_b2a (Z.shiftl (Z.land y 15) 2); pad_byte]
  | x :: y :: z :: rest =>
      let x := to_Z x in
      let y := to_Z y in
      let z := to_Z z in
      table_b2a (Z.shiftr x 2)
      :: table_b2a (Z.lor (Z.shiftl (Z.land x 3) 4) (Z.shiftr y 4))
      :: table_b2a (Z.lor (Z.shiftl (Z.land y 15) 2) (Z.shiftr z 6))
      :: table_b2a (Z.land z 63)
      :: b64encode rest
  end.

End Base64.

Module Url.

Import Bytes.

(** The characters [quote] never escapes: letters, digits and [_.-~]. *)
Definition always_safe (n : Z) : bool :=
  ((65 <=? n) && (n <=? 90)) || ((97 <=? n) && (n <=? 122))
  || ((48 <=? n) && (n <=? 57))
  || (n =? 95) || (n =? 46) || (n =? 45) || (n =? 126).

Definition hex_digit (v : Z) : byte :=
  if v <? 10 then of_Z (v + 48) else of_Z (v - 10 + 65).

Definition quote_byte (c : byte) : list byte :=
  let n := to_Z c in
  if always_safe n then [c]
  else if n =? 32 then [of_Z 43]
  else [of_Z 37; hex_digit (Z.shiftr n 4); hex_digit (Z.land n 15)].

(** [urllib.parse.quote_plus(s)]: every byte of the UTF-8 encoding outside
    the safe set becomes [%XX], a space becomes [+]. *)
Definition quote_plus (s : string) : string :=
  string_of_list_byte (flat_map quote_byte (list_byte_of_string s)).

End Url.

Module Sha256.

Import Bytes.
Local Open Scope list_scope.

Definition mask32 : Z := 4294967295.
Definition w32 (x : Z) : Z := Z.land x mask32.
Definition add32 (x y : Z) : Z := w32 (x + y).
Definition rotr (n x : Z) : Z :=
  Z.lor (Z.shiftr x n) (w32 (Z.shiftl x (32 - n))).
Definition not32 (x : Z) : Z := Z.lxor x mask32.

Definition Ch (x y z : Z) : Z := Z.lxor (Z.land x y) (Z.land (not32 x) z).
Definition Maj (x y z : Z) : Z :=
  Z.lxor (Z.lxor (Z.land x y) (Z.land x z)) (Z.land y z).
Definition bsig0 (x : Z) : Z := Z.lxor (Z.lxor (rotr 2 x) (rotr 13 x)) (rotr 22 x).
Definition bsig1 (x : Z) : Z := Z.lxor (Z.lxor (rotr 6 x) (rotr 11 x)) (rotr 25 x).
Definition ssig0 (x : Z) : Z := Z.lxor (Z.lxor (rotr 7 x) (rotr 18 x)) (Z.shiftr x 3).
Definition ssig1 (x : Z) : Z := Z.lxor (Z.lxor (rotr 17 x) (rotr 19 x)) (Z.shiftr x 10).

(** The primes below 312: the first sixty-four. *)
Definition is_prime (n : nat) : bool :=
  forallb (fun d => negb (Nat.eqb (Nat.modulo n d) 0)) (seq 2 (n - 2)).

Definition primes : list Z := map Z.of_nat (filter is_prime (seq 2 310)).

(** The integer cube root, one bit at a time from bit [n - 1] down. *)
Fixpoint cube_root_bits (n : nat) (x r : Z) : Z :=
  match n with
  | O => r
  | S n' =>
      let c := Z.lor r (Z.shiftl 1 (Z.of_nat n')) in
      if c * c * c <=? x then cube_root_bits n' x c else cube_root_bits n' x r
  end.

Definition cube_root (x : Z) : Z := cube_root_bits 40 x 0.

(** The round constants: the first 32 bits of the fractional parts of the
    cube roots of the first sixty-four primes (FIPS 180-4, 4.2.2). *)
Definition K256 : list Z :=
  Eval vm_compute in
    map (fun p => w32 (cube_root (Z.shiftl p 96))) primes.

(** The initial hash value: the first 32 bits of the fractional parts of the
    square roots of the first eight primes (FIPS 180-4, 5.3.3). *)
Definition H0 : list Z :=
  Eval vm_compute in
    map (fun p => w32 (Z.sqrt (Z.shiftl p 64))) (firstn 8 primes).

(** Big-endian bytes of a word, and back. *)
Definition be_bytes (n : nat) (x : Z) : list Z :=
  map (fun i => Z.land (Z.shiftr x (8 * Z.of_nat i)) 255) (rev (seq 0 n)).

Definition be_word (bs : list Z) : Z :=
  fold_left (fun acc b => Z.lor (Z.shiftl acc 8) b) bs 0.

(** The message followed by the bit 1, zeros up to 56 modulo 64 bytes, and
    the length in bits on 8 bytes. *)
Definition padding (msg : list Z) : list Z :=
  let l := Z.of_nat (List.length msg) in
  let k := Z.to_nat ((55 - l) mod 64) in
  msg ++ [128] ++ repeat 0 k ++ be_bytes 8 (8 * l).

Fixpoint words (fuel : nat) (bs : list Z) : list Z :=
  match fuel, bs with
  | S fuel', a :: b :: c :: d :: rest => be_word [a; b; c; d] :: words fuel' rest
  | _, _ => []
  end.

Fixpoint blocks (fuel : nat) (ws : list Z) : list (list Z) :=
  match fuel, ws with
  | S fuel', _ :: _ => firstn 16 ws :: blocks fuel' (skipn 16 ws)
  | _, _ => []
  end.

(** The message schedule; [recent] holds the last sixteen words, newest
    first. *)
Fixpoint schedule (n : nat) (recent : list Z) : list Z :=
  match n with
  | O => []
  | S n' =>
      let w := add32 (add32 (ssig1 (nth 1 recent 0)) (nth 6 recent 0))
                     (add32 (ssig0 (nth 14 recent 0)) (nth 15 recent 0)) in
      w :: schedule n' (w :: firstn 15 recent)
  end.

Definition expand (block : list Z) : list Z :=
  block ++ schedule 48 (rev block).

Record regs : Type := mkRegs { ra : Z; rb : Z; rc : Z; rd : Z;
                               re : Z; rf : Z; rg : Z; rh : Z }.

Definition round (s : regs) (kw : Z * Z) : regs :=
  let t1 := add32 (add32 (add32 (rh s) (bsig1 (re s)))
                         (add32 (Ch (re s) (rf s) (rg s)) (fst kw))) (snd kw) in
  let t2 := add32 (bsig0 (ra s)) (Maj (ra s) (rb s) (rc s)) in
  mkRegs (add32 t1 t2) (ra s) (rb s) (rc s) (add32 (rd s) t1) (re s) (rf s) (rg s).

Definition regs_of (h : list Z) : regs :=
  mkRegs (nth 0 h 0) (nth 1 h 0) (nth 2 h 0) (nth 3 h 0)
         (nth 4 h 0) (nth 5 h 0) (nth 6 h 0) (nth 7 h 0).

Definition list_of (s : regs) : list Z :=
  [ra s; rb s; rc s; rd s; re s; rf s; rg s; rh s].

Definition compress (h : list Z) (block : list Z) : list Z :=
  let s := fold_left round (combine K256 (expand block)) (regs_of h) in
  map (fun p => add32 (fst p) (snd p)) (combine h (list_of s)).

Definition sha256_Z (msg : list Z) : list Z :=
  let p := padding msg in
  let ws := words (List.length p) p in
  flat_map (be_bytes 4) (fold_left compress (blocks (List.length ws) ws) H0).

(** [hashlib.sha256(msg).digest()] *)
Definition sha256 (msg : list byte) : list byte :=
  map of_Z (sha256_Z (map to_Z msg)).

Definition block_size : nat := 64.

Definition xor_pad (c : Z) (key : list byte) : list byte :=
  map (fun b => of_Z (Z.lxor (to_Z b) c)) key.

(** [hmac.new(key, msg, hashlib.sha256).digest()] (RFC 2104): a key longer
    than a block is hashed first, then zero-padded to the block size. *)
Definition hmac_sha256 (key msg : list byte) : list byte :=
  let key := if (block_size <? List.length key)%nat then sha256 key else key in
  let key := key ++ repeat x00 (block_size - List.length key) in
  sha256 (xor_pad 0x5c key ++ sha256 (xor_pad 0x36 key ++ msg)).

End Sha256.

(** ** The world the scripts run in *)

Module Runtime.

(** What the transport's network thread hands to the registered callbacks. *)
Inductive net_event : Type :=
| Connack (rc : Z)
| Suback (mid : Z) (granted_qos : list Z)
| Puback (mid : Z)
| Message (topic : string) (payload : list byte) (qos : Z)
| Disconnected (rc : Z).

(** How a call of [client.connect] ends: the handshake is sent, or the
    socket or TLS layer raises an [OSError], or the user interrupts. *)
Inductive connect_outcome : Type :=
| ConnectOk
| ConnectFails (msg : string)
| ConnectInterrupted.

(** What happens while the main thread is inside one [time.sleep]: the
    events the network thread processes, and whether the user interrupts. *)
Record tick : Type := {
  arrivals : list net_event;
  interrupt : bool
}.

(** The observable actions of a run, in the order they happen. *)
Inductive effect : Type :=
| Print (line : string)
| PrintExc
| PrintUsage
| StderrWrite (text : string)
| ClientNew (client_id : string) (clean_session : bool)
| UsernamePwSet (username : string) (password : option string)
| TlsSet (ca_certs : string) (certfile keyfile : option string)
| Connect (host : string) (port keepalive : Z)
| LoopStart
| LoopStop
| Subscribe (topic : string) (qos : Z)
| Unsubscribe (topic : string)
| Publish (topic payload : string) (qos : Z)
| Disconnect
| Sleep (seconds : Q).

(** An action together with the value the module global
    [response_received] has when it happens. *)
Record entry : Type := {
  eff : effect;
  flag_at : bool
}.

(** The state of the process and of its surroundings.  The first four fields
    are the program's: the module globals, the clock, and what the client
    object answers to [is_connected()] and whether its network thread runs.
    [trace] is the log of actions, newest first.  The remaining fields are the
    script of the surroundings: the draws of the random generator, the outcome
    of each [connect], the result of each [publish], and one [tick] per
    [time.sleep]. *)
Record world : Type := {
  response_received : bool;
  response_data : option (string * string * option string);
  now : Q;
  connected : bool;
  loop_running : bool;
  trace : list entry;
  entropy : list Z;
  connect_results : list connect_outcome;
  publish_results : list (Z * Z);
  ticks : list tick
}.

Definition set_response_received (b : bool) (w : world) : world :=
  {| response_received := b; response_data := response_data w; now := now w;
     connected := connected w; loop_running := loop_running w;
     trace := trace w; entropy := entropy w;
     connect_results := connect_results w;
     publish_results := publish_results w; ticks := ticks w |}.

Definition set_response_data (d : option (string * string * option string))
  (w : world) : world :=
  {| response_received := response_received w; response_data := d; now := now w;
     connected := connected w; loop_running := loop_running w;
     trace := trace w; entropy := entropy w;
     connect_results := connect_results w;
     publish_results := publish_results w; ticks := ticks w |}.

Definition set_now (t : Q) (w : world) : world :=
  {| response_received := response_received w;
     response_data := response_data w; now := t;
     connected := connected w; loop_running := loop_running w;
     trace := trace w; entropy := entropy w;
     connect_results := connect_results w;
     publish_results := publish_results w; ticks := ticks w |}.

Definition set_connected (b : bool) (w : world) : world :=
  {| response_received := response_received w;
     response_data := response_data w; now := now w;
     connected := b; loop_running := loop_running w;
     trace := trace w; entropy := entropy w;
     connect_results := connect_results w;
     publish_results := publish_results w; ticks := ticks w |}.

Definition set_loop_running (b : bool) (w : world) : world :=
  {| response_received := response_received w;
     response_data := response_data w; now := now w;
     connected := connected w; loop_running := b;
     trace := trace w; entropy := entropy w;
     connect_results := connect_results w;
     publish_results := publish_results w; ticks := ticks w |}.

Definition set_trace (l : list entry) (w : world) : world :=
  {| response_received := response_received w;
     response_data := response_data w; now := now w;
     connected := connected w; loop_running := loop_running w;
     trace := l; entropy := entropy w;
     connect_results := connect_results w;
     publish_results := publish_results w; ticks := ticks w |}.

Definition set_entropy (l : list Z) (w : world) : world :=
  {| response_received := response_received w;
     response_data := response_data w; now := now w;
     connected := connected w; loop_running := loop_running w;
     trace := trace w; entropy := l;
     connect_results := connect_results w;
     publish_results := publish_results w; ticks := ticks w |}.

Definition set_connect_results (l : list connect_outcome) (w : world) : world :=
  {| response_received := response_received w;
     response_data := response_data w; now := now w;
     connected := connected w; loop_running := loop_running w;
     trace := trace w; entropy := entropy w;
     connect_results := l;
     publish_results := publish_results w; ticks := ticks w |}.

Definition set_publish_results (l : list (Z * Z)) (w : world) : world :=
  {| response_received := response_received w;
     response_data := response_data w; now := now w;
     connected := connected w; loop_running := loop_running w;
     trace := trace w; entropy := entropy w;
     connect_results := connect_results w;
     publish_results := l; ticks := ticks w |}.

Definition set_ticks (l : list tick) (w : world) : world :=
  {| response_received := response_received w;
     response_data := response_data w; now := now w;
     connected := connected w; loop_running := loop_running w;
     trace := trace w; entropy := entropy w;
     connect_results := connect_results w;
     publish_results := publish_results w; ticks := l |}.

(** The world a freshly started interpreter finds: both scripts initialise
    [response_received] to [False] (and [response_data] to [None]) at import. *)
Definition boot (t0 : Q) (rnd : list Z) (conn : list connect_outcome)
  (pub : list (Z * Z)) (tk : list tick) : world :=
  {| response_received := false; response_data := None; now := t0;
     connected := false; loop_running := false; trace := [];
     entropy := rnd; connect_results := conn; publish_results := pub;
     ticks := tk |}.

(** The actions of a run in the order they happened. *)
Definition history (w : world) : list effect := rev (map eff (trace w)).

(** *** The monad *)

Definition M (A : Type) : Type := world -> result A * world.

Definition ret {A} (a : A) : M A := fun w => (Ok a, w).

Definition bind {A B} (m : M A) (k : A -> M B) : M B :=
  fun w =>
    match m w with
    | (Ok a, w') => k a w'
    | (Raise e, w') => (Raise e, w')
    end.

Definition raise {A} (e : exn) : M A := fun w => (Raise e, w).

Definition lift {A} (r : result A) : M A := fun w => (r, w).

(** [try: body except ...: handler]; the handler answers [None] for an
    exception no clause matches, which then propagates. *)
Definition try_except {A} (body : M A) (handler : exn -> option (M A)) : M A :=
  fun w =>
    match body w with
    | (Ok a, w') => (Ok a, w')
    | (Raise e, w') =>
        match handler e with
        | Some h => h w'
        | None => (Raise e, w')
        end
    end.

Definition get {A} (f : world -> A) : M A := fun w => (Ok (f w), w).
Definition modify (f : world -> world) : M unit := fun w => (Ok tt, f w).

Definition log (e : effect) : M unit :=
  modify (fun w =>
    set_trace ({| eff := e; flag_at := response_received w |} :: trace w) w).

End Runtime.

Import Runtime.

Declare Scope monad_scope.
Delimit Scope monad_scope with monad.
Notation "x <- c1 ;; c2" := (bind c1 (fun x => c2))
  (at level 61, c1 at next level, right associativity) : monad_scope.
Notation "c1 ;; c2" := (bind c1 (fun _ => c2))
  (at level 61, right associativity) : monad_scope.

Local Open Scope monad_scope.

(** ** Formatting helpers *)

Module Fmt.

Definition LF : string := String (ascii_of_nat 10) EmptyString.

(** [s * n] *)
Fixpoint str_mul (s : string) (n : nat) : string :=
  match n with
  | O => EmptyString
  | S n' => s ++ str_mul s n'
  end.

(** A byte that continues a multi-byte UTF-8 sequence. *)
Definition is_continuation (c : ascii) : bool :=
  let n := Z.of_nat (nat_of_ascii c) in (128 <=? n) && (n <? 192).

(** [len(s)]: the number of code points. *)
Fixpoint str_len (s : string) : nat :=
  match s with
  | EmptyString => O
  | String c s' => if is_continuation c then str_len s' else S (str_len s')
  end.

(** [s[:n]]: the first [n] code points. *)
Fixpoint str_take (n : nat) (s : string) : string :=
  match s with
  | EmptyString => EmptyString
  | String c s' =>
      if is_continuation c then String c (str_take n s')
      else match n with
           | O => EmptyString
           | S n' => String c (str_take n' s')
           end
  end.

(** [f"{s:20}"]: a string is padded on the right. *)
Definition ljust (s : string) (width : nat) : string :=
  s ++ str_mul " " (width - str_len s).

(** [str(t)] for a tuple of integers. *)
Definition repr_tuple (t : list Z) : string :=
  match t with
  | [] => "()"
  | [x] => "(" ++ str_of_int x ++ ",)"
  | _ => "(" ++ String.concat ", " (map str_of_int t) ++ ")"
  end.

(** [x < y] on times. *)
Definition Qltb (x y : Q) : bool := negb (Qle_bool y x).

(** [int(x)]: truncation toward zero. *)
Definition int_of_float (x : Q) : Z :=
  if Qle_bool 0 x then Qfloor x else Qceiling x.

(** Python truthiness of an optional string. *)
Definition truthy (s : option string) : bool :=
  match s with
  | None => false
  | Some EmptyString => false
  | Some _ => true
  end.

Definition str_of_option (s : option string) : string :=
  match s with
  | None => "None"
  | Some v => v
  end.

(** [x == s] for [x] a string or [None]. *)
Definition option_eqb (x : option string) (s : string) : bool :=
  match x with
  | None => false
  | Some v => String.eqb v s
  end.

End Fmt.

Import Fmt.

(** ** Floats

    [time.time() + expiry] adds an [int] to a float: the integer is converted
    to a float, the sum is rounded to the nearest float, the even one of two
    that are equally near, and [int] truncates the result.  A float is the
    rational it denotes; an infinity is [None]. *)

Module Float.

(** [2.0 ** e] *)
Definition pow2 (e : Z) : Q := Qpower 2 e.

(** The integer nearest to [x], the even one of the two when [x] lies half
    way between them. *)
Definition round_half_even (x : Q) : Z :=
  let f := Qfloor x in
  match (x - inject_Z f ?= 1 # 2)%Q with
  | Lt => f
  | Gt => f + 1
  | Eq => if Z.even f then f else f + 1
  end.

(** [2.0 ** 1074], the number of the smallest positive floats in a unit. *)
Definition subnormals : Q := Eval vm_compute in pow2 1074.

(** The exponent of the spacing of the floats around [x]: 52 below the
    exponent of [x], and -1074 for the subnormal ones. *)
Definition ulp_exponent (x : Q) : Z :=
  Z.max (-1074) (Z.log2 (Qfloor (Qabs x * subnormals)) - 1126).

(** The multiple of the spacing that is nearest to [x]. *)
Definition nearest (x : Q) : Q :=
  let e := ulp_exponent x in
  Qred (inject_Z (round_half_even (x / pow2 e)) * pow2 e).

(** Half way between the largest float and [2.0 ** 1024]: from here on
    rounding gives an infinity. *)
Definition overflow_threshold : Q :=
  Eval vm_compute in inject_Z (2 ^ 1024 - 2 ^ 970).

(** The float a real number is rounded to. *)
Definition round (x : Q) : option Q :=
  if Qle_bool overflow_threshold (Qabs x) then None else Some (nearest x).

(** The [int] operand of a float operation, converted. *)
Definition of_int (n : Z) : result Q :=
  match round (inject_Z n) with
  | Some x => Ok x
  | None => Raise (OverflowError "int too large to convert to float")
  end.

(** [x + y] *)
Definition add (x y : Q) : option Q := round (x + y).

(** [int(x)] *)
Definition to_int (x : option Q) : result Z :=
  match x with
  | Some x => Ok (int_of_float x)
  | None => Raise (OverflowError "cannot convert float infinity to integer")
  end.

(** The clock behind [time.time()] is a signed 64-bit count of
    nanoseconds. *)
Definition clock_max : Q := 9223372036854775807 # 1000000000.

(** The float [time.time()] returns when the clock reads [t] seconds: the
    one nearest to the reading. *)
Definition of_clock (t : Q) : Q :=
  nearest (Qmax (- clock_max) (Qmin clock_max t)).

End Float.

(** ** Primitives of the embedding *)

Module Sys.

Definition print (s : string) : M unit := log (Print s).

Definition sys_exit {A} (code : Z) : M A := raise (SystemExit code).

Definition time_time : M Q := get now.

(** [random.randint(a, b)]: the next draw, brought into [[a, b]]. *)
Definition randint (a b : Z) : M Z :=
  fun w =>
    match entropy w with
    | [] => (Ok a, w)
    | r :: rest => (Ok (a + r mod (b - a + 1)), set_entropy rest w)
    end.

(** [while cond: body], cut after [fuel] evaluations of the condition. *)
Fixpoint while_ (fuel : nat) (cond : M bool) (body : M unit) : M unit :=
  match fuel with
  | O => raise OutOfFuel
  | S fuel' =>
      c <- cond ;;
      if c then body ;; while_ fuel' cond body else ret tt
  end.

(** Enough fuel for a loop that sleeps [interval] seconds per round and
    leaves once [timeout] seconds have passed. *)
Definition rounds (timeout interval : Q) : nat :=
  S (Z.to_nat (Qceiling (timeout / interval))).

End Sys.

(** ** The transport client

    The client object of the MQTT library is the external collaborator of both
    scripts.  Its model keeps what the scripts observe of it: the calls they
    make (logged), the answer of [is_connected()], and the events its network
    thread passes to the callbacks while the main thread sleeps.

    Two things are taken from the surroundings as they usually are.  The
    certificate files load: [client.tls_set] is logged and returns.  And the
    user interrupts while the main thread waits, that is inside [time.sleep]
    or [client.connect]: an interrupt between two other statements is not
    part of the model.  What is proved of whole runs is proved of runs like
    that; the statements about the [try] statements of the scripts do not
    depend on the first. *)

Module Client.

Import Sys.

Definition MQTT_ERR_SUCCESS : Z := 0.

(** The next outcome of the script of the surroundings for a [connect]. *)
Definition handshake : M unit :=
  fun w =>
    match connect_results w with
    | [] => (Ok tt, w)
    | ConnectOk :: rest => (Ok tt, set_connect_results rest w)
    | ConnectFails msg :: rest => (Raise (OSError msg), set_connect_results rest w)
    | ConnectInterrupted :: rest =>
        (Raise KeyboardInterrupt, set_connect_results rest w)
    end.

(** [client.connect(host, port, keepalive)] ends the way the script of the
    surroundings says. *)
Definition connect (host : string) (port keepalive : Z) : M unit :=
  log (Connect host port keepalive) ;; handshake.

Definition loop_start : M unit :=
  log LoopStart ;; modify (set_loop_running true).

Definition loop_stop : M unit :=
  log LoopStop ;; modify (set_loop_running false).

Definition disconnect : M unit :=
  log Disconnect ;; modify (set_connected false).

Definition is_connected : M bool := get connected.

Definition subscribe (topic : string) (qos : Z) : M unit :=
  log (Subscribe topic qos).

Definition unsubscribe (topic : string) : M unit :=
  log (Unsubscribe topic).

(** The next result of the script of the surroundings for a [publish]. *)
Definition publish_result : M (Z * Z) :=
  fun w =>
    match publish_results w with
    | [] => (Ok (MQTT_ERR_SUCCESS, 1), w)
    | r :: rest => (Ok r, set_publish_results rest w)
    end.

(** [client.publish(topic, payload, qos)] returns [(rc, mid)]. *)
Definition publish (topic payload : string) (qos : Z) : M (Z * Z) :=
  log (Publish topic payload qos) ;; publish_result.

(** The network thread processes the events of one tick.  An exception that
    leaves a callback, [SystemExit] included, ends that thread and only that
    thread: the events left are not processed and the main thread goes on. *)
Fixpoint deliver (handler : net_event -> M unit) (evs : list net_event)
  (w : world) : world :=
  match evs with
  | [] => w
  | ev :: rest =>
      if loop_running w then
        match handler ev w with
        | (Ok _, w') => deliver handler rest w'
        | (Raise _, w') => set_loop_running false w'
        end
      else w
  end.

(** The next tick of the script of the surroundings. *)
Definition tick_step (handler : net_event -> M unit) : M unit :=
  fun w =>
    match ticks w with
    | [] => (Ok tt, w)
    | t :: rest =>
        let w' := deliver handler (arrivals t) (set_ticks rest w) in
        if interrupt t then (Raise KeyboardInterrupt, w') else (Ok tt, w')
    end.

(** [time.sleep(d)]: the clock advances by [d], the network thread handles
    the events of the next tick, and the user may interrupt the wait. *)
Definition sleep (handler : net_event -> M unit) (d : Q) : M unit :=
  log (Sleep d) ;;
  modify (fun w => set_now (Qred (now w + d)) w) ;;
  tick_step handler.

End Client.

(** ** [mqtt_credential_test.py] *)

Module CredentialTest.

Import Scenario Sys Bytes.

Section Script.

(** What the script takes from outside and the embedding leaves open: the
    environment variables, [json.dumps] on the request dictionary, and
    [bytes.decode('utf-8', errors='replace')]. *)
Variable environ : string -> option string.
Variable json_dumps : list (string * string) -> string.
Variable decode_replace : list byte -> string.

(** [os.getenv(key, default)] *)
Definition getenv (key default : string) : string :=
  match environ key with
  | Some v => v
  | None => default
  end.

Definition HUB_NAME : string := getenv "HUB_NAME" "ruath-iothub-004".
Definition DEVICE_NAME : string := getenv "DEVICE_NAME" "ruath-device-001".
Definition HOST : string := HUB_NAME ++ ".azure-devices-int.net".
Definition PORT : Z := 8883.
Definition CLIENT_ID : string := DEVICE_NAME.
Definition USERNAME : string :=
  HOST ++ "/" ++ CLIENT_ID ++ "/?api-version=2025-08-01-preview".
Definition CA_CERT : string := "../IoTHubRootCA.crt.pem".
Definition DEVICE_CERT : string := "./certGen/certs/" ++ DEVICE_NAME ++ ".crt".
Definition DEVICE_KEY : string := "./certGen/private/" ++ DEVICE_NAME ++ ".key".
Definition HUB_SAS_KEY : string := "<Your Hub SAS Key Here>".
Definition HUB_SAS_POLICY : string := "iothubowner".
Definition MOCK_CSR : string := "TU9DSyBDU1I=".

(** [MQTTTestScenario.__init__] *)
Definition MQTTTestScenario_init (c : scenario_class)
  (name description : string) : M scenario :=
  rid <- randint 1 99999999 ;;
  ret {| cls := c; name := name; description := description;
         request_id := rid;
         subscribe_topic := "$iothub/credentials/res/#";
         publish_topic := None; payload := None;
         disconnect_after_publish := false; reconnect_delay := 0 |}.

(** [HappyPathScenario.__init__] *)
Definition HappyPathScenario_init : M scenario :=
  self <- MQTTTestScenario_init HappyPathScenario
            "happy_path" "Issue a certificate with valid CSR" ;;
  ret {| cls := cls self; name := Scenario.name self;
         description := Scenario.description self;
         request_id := request_id self;
         subscribe_topic := subscribe_topic self;
         publish_topic :=
           Some ("$iothub/credentials/POST/issueCertificate/?$rid="
                 ++ str_of_int (request_id self));
         payload := Some [("id", CLIENT_ID); ("csr", MOCK_CSR)];
         disconnect_after_publish := disconnect_after_publish self;
         reconnect_delay := reconnect_delay self |}.

(** [DisconnectReconnectScenario.__init__] *)
Definition DisconnectReconnectScenario_init : M scenario :=
  self <- MQTTTestScenario_init DisconnectReconnectScenario
            "disconnect_reconnect"
            "Disconnect after publish, reconnect later to receive response" ;;
  ret {| cls := cls self; name := Scenario.name self;
         description := Scenario.description self;
         request_id := request_id self;
         subscribe_topic := subscribe_topic self;
         publish_topic :=
           Some ("$iothub/credentials/POST/issueCertificate/?$rid="
                 ++ str_of_int (request_id self));
         payload := Some [("id", CLIENT_ID); ("csr", MOCK_CSR)];
         disconnect_after_publish := true;
         reconnect_delay := 3 |}.

(** [scenario_class()] *)
Definition instantiate (c : scenario_class) : M scenario :=
  match c with
  | HappyPathScenario => HappyPathScenario_init
  | DisconnectReconnectScenario => DisconnectReconnectScenario_init
  end.

(** The registry, in insertion order. *)
Definition SCENARIOS : list (string * scenario_class) :=
  [ ("happy_path", HappyPathScenario);
    ("disconnect_reconnect", DisconnectReconnectScenario) ].

(** [name in SCENARIOS] *)
Definition registered (name : string) : bool :=
  existsb (fun p => String.eqb (fst p) name) SCENARIOS.

(** [SCENARIOS[name]] *)
Definition lookup (name : string) : M scenario_class :=
  match find (fun p => String.eqb (fst p) name) SCENARIOS with
  | Some p => ret (snd p)
  | None => raise (KeyError name)
  end.

(** [generate_sas_token(uri, key, policy_name, expiry)] *)
Definition generate_sas_token (uri key : string) (policy_name : option string)
  (expiry : Z) : M string :=
  t <- time_time ;;
  seconds <- lift (Float.of_int expiry) ;;
  ttl <- lift (Float.to_int (Float.add (Float.of_clock t) seconds)) ;;
  let sign_key := uri ++ LF ++ str_of_int ttl in
  decoded_key <-
    try_except (lift (Base64.b64decode key))
      (fun e =>
         if is_Exception e then
           Some (print ("✗ Error decoding key: " ++ str_of_exn e) ;;
                 sys_exit 1)
         else None) ;;
  let signature := Sha256.hmac_sha256 decoded_key (encode_utf8 sign_key) in
  let signature_b64 := decode_ascii (Base64.b64encode signature) in
  let signature_encoded := Url.quote_plus signature_b64 in
  if truthy policy_name then
    ret ("SharedAccessSignature sr=" ++ uri ++ "&sig=" ++ signature_encoded
         ++ "&se=" ++ str_of_int ttl
         ++ "&skn=" ++ str_of_option policy_name)
  else
    ret ("SharedAccessSignature sr=" ++ uri ++ "&sig=" ++ signature_encoded
         ++ "&se=" ++ str_of_int ttl).

(** [setup_certificate_auth(client)].  The two configuration calls are
    logged; loading the certificate files is taken to succeed. *)
Definition setup_certificate_auth : M unit :=
  print "Using X.509 Certificate Authentication" ;;
  print ("Certificate: " ++ DEVICE_CERT) ;;
  print ("Private Key: " ++ DEVICE_KEY ++ LF) ;;
  log (UsernamePwSet USERNAME None) ;;
  log (TlsSet CA_CERT (Some DEVICE_CERT) (Some DEVICE_KEY)).

(** [setup_sas_auth(client)] *)
Definition setup_sas_auth : M unit :=
  print "Using SAS Token Authentication (Hub Policy)" ;;
  let resource_uri := HOST in
  print ("Generating SAS token for hub: " ++ resource_uri) ;;
  print ("Using policy: " ++ HUB_SAS_POLICY) ;;
  sas_token <- generate_sas_token resource_uri HUB_SAS_KEY
                 (Some HUB_SAS_POLICY) 3600 ;;
  print "✓ SAS token generated (expires in 3600 seconds)" ;;
  print ("Token preview: " ++ str_take 80 sas_token ++ "..." ++ LF) ;;
  log (UsernamePwSet USERNAME (Some sas_token)) ;;
  log (TlsSet CA_CERT None None).

(** The callbacks [create_callbacks(scenario)] returns.  The scenarios of the
    registry all have a publish topic and a dictionary payload; for an object
    of the base class the topic [None] is passed on as the text the script
    prints for it. *)

Definition on_connect (scenario : scenario) (rc : Z) : M unit :=
  if rc =? 0 then
    print ("✓ Connected successfully to " ++ HOST) ;;
    print ("✓ Subscribing to: " ++ subscribe_topic scenario) ;;
    Client.subscribe (subscribe_topic scenario) 1
  else
    print ("✗ Connection failed with code " ++ str_of_int rc) ;;
    sys_exit 1.

Definition on_subscribe (scenario : scenario) (mid : Z) (granted_qos : list Z)
  : M unit :=
  print ("✓ Subscribed successfully (QoS: " ++ repr_tuple granted_qos ++ ")") ;;
  let publish_topic := publish_topic scenario in
  let payload := payload scenario in
  print ("✓ Publishing to: " ++ str_of_option publish_topic) ;;
  let payload_json :=
    match payload with
    | Some d => json_dumps d
    | None => ""
    end in
  print ("  Payload: " ++ payload_json) ;;
  result <- Client.publish (str_of_option publish_topic) payload_json 1 ;;
  if fst result =? Client.MQTT_ERR_SUCCESS then
    print ("✓ Publish request sent (mid: " ++ str_of_int (snd result) ++ ")")
  else
    print ("✗ Publish failed with code " ++ str_of_int (fst result)).

Definition on_publish (scenario : scenario) (mid : Z) : M unit :=
  print ("✓ Publish acknowledged by broker (mid: " ++ str_of_int mid ++ ")") ;;
  if disconnect_after_publish scenario then
    print ("✓ Unsubscribing from: " ++ subscribe_topic scenario) ;;
    Client.unsubscribe (subscribe_topic scenario) ;;
    print (LF ++ str_mul "=" 70) ;;
    print "DISCONNECTING after publish (as per scenario)" ;;
    print (str_mul "=" 70 ++ LF) ;;
    Client.disconnect
  else ret tt.

Definition on_message (scenario : scenario) (topic : string)
  (payload : list byte) (qos : Z) : M unit :=
  print (LF ++ str_mul "=" 70) ;;
  print "✓ RESPONSE RECEIVED!" ;;
  print (str_mul "=" 70) ;;
  print ("Topic: " ++ topic) ;;
  print ("QoS: " ++ str_of_int qos) ;;
  print ("Payload length: " ++ str_of_int (len payload) ++ " bytes") ;;
  payload_str <-
    match payload with
    | _ :: _ =>
        let payload_str := decode_replace payload in
        print ("Payload: " ++ payload_str) ;; ret payload_str
    | [] => print "Payload: (empty)" ;; ret ""
    end ;;
  let parts := split topic slash in
  (if len parts >=? 4 then
     status_code <- lift (getitem parts 3) ;;
     print (LF ++ "Status Code: " ++ status_code)
   else ret tt) ;;
  r <- lift (validate_response scenario topic payload_str) ;;
  let message := snd r in
  print (LF ++ message) ;;
  print (str_mul "=" 70 ++ LF) ;;
  modify (set_response_received true) ;;
  Client.disconnect.

Definition on_disconnect (rc : Z) : M unit :=
  if rc =? 0 then print "✓ Disconnected gracefully"
  else print ("✗ Unexpected disconnection (code: " ++ str_of_int rc ++ ")").

(** The callbacks as registered on the client: the client itself records a
    successful handshake and a lost connection before it calls them. *)
Definition dispatch (scenario : scenario) (ev : net_event) : M unit :=
  match ev with
  | Connack rc =>
      (if rc =? 0 then modify (set_connected true) else ret tt) ;;
      on_connect scenario rc
  | Suback mid granted_qos => on_subscribe scenario mid granted_qos
  | Puback mid => on_publish scenario mid
  | Message topic payload qos => on_message scenario topic payload qos
  | Disconnected rc => modify (set_connected false) ;; on_disconnect rc
  end.

(** [timeout = 15] and the [time.sleep(0.1)] of the waiting loops. *)
Definition timeout_seconds : Z := 15.
Definition timeout : Q := inject_Z timeout_seconds.
Definition poll : Q := 1 # 10.

(** [while client.is_connected() and (time.time() - start_time) < timeout] *)
Definition wait_for_disconnect (scenario : scenario) (start_time : Q) : M unit :=
  while_ (rounds timeout poll)
    (c <- Client.is_connected ;;
     if c then t <- time_time ;; ret (Qltb (t - start_time) timeout)
     else ret false)
    (Client.sleep (dispatch scenario) poll).

(** [while not response_received and (time.time() - start_time) < timeout] *)
Definition wait_for_response (scenario : scenario) (start_time : Q) : M unit :=
  while_ (rounds timeout poll)
    (r <- get response_received ;;
     if negb r then t <- time_time ;; ret (Qltb (t - start_time) timeout)
     else ret false)
    (Client.sleep (dispatch scenario) poll).

(** The body of the [try] of [run_scenario], from [client.loop_start()] on. *)
Definition run_connected (scenario : scenario) : M unit :=
  Client.loop_start ;;
  start_time <- time_time ;;
  start_time <-
    (if disconnect_after_publish scenario then
       print "Waiting for disconnect after publish..." ;;
       wait_for_disconnect scenario start_time ;;
       c <- Client.is_connected ;;
       if negb c then
         print (LF ++ "✓ Client disconnected as expected") ;;
         print ("Waiting " ++ str_of_int (reconnect_delay scenario)
                ++ " seconds before reconnecting...") ;;
         Client.sleep (dispatch scenario) (inject_Z (reconnect_delay scenario)) ;;
         print (LF ++ str_mul "=" 70) ;;
         print "RECONNECTING to check for pending response" ;;
         print (str_mul "=" 70 ++ LF) ;;
         print ("Connecting to " ++ HOST ++ ":" ++ str_of_int PORT ++ "...") ;;
         Client.connect HOST PORT 60 ;;
         time_time
       else ret start_time
     else ret start_time) ;;
  wait_for_response scenario start_time ;;
  r <- get response_received ;;
  (if negb r then
     print (LF ++ "✗ Timeout: No response received after "
            ++ str_of_int timeout_seconds ++ " seconds") ;;
     Client.disconnect
   else ret tt) ;;
  Client.sleep (dispatch scenario) (1 # 2) ;;
  Client.loop_stop.

(** The body of the [try] of [run_scenario]. *)
Definition run_body (scenario : scenario) : M unit :=
  print (LF ++ "Connecting to " ++ HOST ++ ":" ++ str_of_int PORT ++ "...") ;;
  Client.connect HOST PORT 60 ;;
  run_connected scenario.

(** The [except] clauses of [run_scenario]. *)
Definition run_handler (e : exn) : option (M unit) :=
  match e with
  | KeyboardInterrupt =>
      Some (print (LF ++ "✗ Interrupted by user") ;;
            Client.disconnect ;;
            Client.loop_stop)
  | _ =>
      if is_Exception e then
        Some (print (LF ++ "✗ Error: " ++ str_of_exn e) ;;
              log PrintExc ;;
              sys_exit 1)
      else None
  end.

(** [run_scenario(scenario_class, use_cert_auth)] *)
Definition run_scenario (scenario_class : scenario_class)
  (use_cert_auth : bool) : M unit :=
  modify (set_response_received false) ;;
  scenario <- instantiate scenario_class ;;
  print (LF ++ str_mul "=" 70) ;;
  print ("MQTT Credential Management Test - " ++ Scenario.name scenario) ;;
  print ("Description: " ++ Scenario.description scenario) ;;
  print (str_mul "=" 70) ;;
  log (ClientNew CLIENT_ID true) ;;
  (if use_cert_auth then setup_certificate_auth else setup_sas_auth) ;;
  try_except (run_body scenario) run_handler.

(** [list_scenarios()] *)
Definition list_scenarios : M unit :=
  print (LF ++ "Available Scenarios:") ;;
  print (str_mul "-" 70) ;;
  fold_left
    (fun acc p =>
       acc ;;
       scenario <- instantiate (snd p) ;;
       print ("  " ++ ljust (fst p) 20 ++ " - " ++ Scenario.description scenario))
    SCENARIOS (ret tt) ;;
  print (str_mul "-" 70).

(** The namespace [parser.parse_args()] returns.  The parser itself refuses
    [--cert] together with [--sas], so at most one of the two is set. *)
Record args : Type := {
  arg_scenario : string;
  arg_list_scenarios : bool;
  arg_cert : bool;
  arg_sas : bool
}.

(** [parser.error(message)]: usage and message on the standard error, then
    exit status 2. *)
Definition parser_error {A} (message : string) : M A :=
  log PrintUsage ;;
  log (StderrWrite ("mqtt_credential_test.py: error: " ++ message ++ LF)) ;;
  sys_exit 2.

(** [main()], from the parsed arguments on. *)
Definition main (a : args) : M unit :=
  if arg_list_scenarios a then list_scenarios
  else
    (if negb (arg_cert a) && negb (arg_sas a) then
       parser_error "Authentication method required: use --cert or --sas"
     else ret tt) ;;
    (if negb (registered (arg_scenario a)) then
       print ("✗ Error: Unknown scenario '" ++ arg_scenario a ++ "'") ;;
       list_scenarios ;;
       sys_exit 1
     else ret tt) ;;
    scenario_class <- lookup (arg_scenario a) ;;
    run_scenario scenario_class (arg_cert a).

End Script.

End CredentialTest.

(** The exit status of the process, from the way [main] ends: a normal return
    is 0, [sys.exit(n)] is [n], an interrupt that nothing catches ends the
    process by the signal (130 for the shell), any other exception that
    nothing catches is 1. *)
Definition exit_status {A} (r : result A) : Z :=
  match r with
  | Ok _ => 0
  | Raise (SystemExit c) => c
  | Raise KeyboardInterrupt => 130
  | Raise _ => 1
  end.

(** ** [mqtt_issue_cert.py] *)

Module IssueCert.

Import Sys Bytes.

Section Script.

(** What the script takes from outside and the embedding leaves open: the
    version string of the MQTT library, [json.dumps] on the request
    dictionary, and [bytes.decode('utf-8', errors='replace')]. *)
Variable PAHO_MQTT_VERSION : string.
Variable json_dumps : list (string * string) -> string.
Variable decode_replace : list byte -> string.

(** The dictionary handed to the callbacks. *)
Record userdata : Type := {
  ud_host : string;
  ud_subscribe_topic : string;
  ud_publish_topic : string;
  ud_payload : string
}.

(** The table of refusal reasons of [on_connect]. *)
Definition error_messages (rc : Z) : option string :=
  if rc =? 1 then Some "Incorrect protocol version"
  else if rc =? 2 then Some "Invalid client identifier"
  else if rc =? 3 then Some "Server unavailable"
  else if rc =? 4 then Some "Bad username or password"
  else if rc =? 5 then Some "Not authorized"
  else None.

Definition on_connect (ud : userdata) (rc : Z) : M unit :=
  if rc =? 0 then
    print ("[OK] Connected successfully to " ++ ud_host ud) ;;
    print ("[OK] Subscribing to: " ++ ud_subscribe_topic ud) ;;
    Client.subscribe (ud_subscribe_topic ud) 1
  else
    print ("[FAIL] Connection failed with code " ++ str_of_int rc) ;;
    match error_messages rc with
    | Some m => print ("[FAIL] Reason: " ++ m)
    | None => ret tt
    end ;;
    sys_exit 1.

Definition on_subscribe (ud : userdata) (mid : Z) (granted_qos : list Z)
  : M unit :=
  q <- lift (getitem granted_qos 0) ;;
  print ("[OK] Subscribed successfully (QoS: " ++ str_of_int q ++ ")") ;;
  let publish_topic := ud_publish_topic ud in
  let payload := ud_payload ud in
  print ("[OK] Publishing to: " ++ publish_topic) ;;
  print ("  Payload: " ++ payload) ;;
  result <- Client.publish publish_topic payload 1 ;;
  if fst result =? Client.MQTT_ERR_SUCCESS then
    print ("[OK] Publish request sent (mid: " ++ str_of_int (snd result) ++ ")")
  else
    print ("[FAIL] Publish failed with code " ++ str_of_int (fst result)).

Definition on_publish (mid : Z) : M unit :=
  print ("[OK] Publish acknowledged by broker (mid: " ++ str_of_int mid ++ ")").

Definition on_message (topic : string) (payload : list byte) (qos : Z)
  : M unit :=
  print (LF ++ str_mul "=" 70) ;;
  print "[OK] RESPONSE RECEIVED!" ;;
  print (str_mul "=" 70) ;;
  print ("Topic: " ++ topic) ;;
  print ("QoS: " ++ str_of_int qos) ;;
  print ("Payload length: " ++ str_of_int (len payload) ++ " bytes") ;;
  payload_str <-
    match payload with
    | _ :: _ =>
        let payload_str := decode_replace payload in
        print ("Payload: " ++ payload_str) ;; ret payload_str
    | [] => print "Payload: (empty)" ;; ret ""
    end ;;
  let parts := split topic Scenario.slash in
  status_code <-
    (if len parts >=? 4 then
       status_code <- lift (getitem parts 3) ;;
       print (LF ++ "Status Code: " ++ status_code) ;;
       ret (Some status_code)
     else ret None) ;;
  (if option_eqb status_code "202" then
     print (LF ++ "[OK] SUCCESS: Received expected status code 202 - issueCertificate request accepted")
   else
     print (LF ++ "[WARN] WARNING: Expected status code 202, got "
            ++ str_of_option status_code)) ;;
  print (str_mul "=" 70 ++ LF) ;;
  modify (set_response_data (Some (topic, payload_str, status_code))) ;;
  modify (set_response_received true) ;;
  Client.disconnect.

Definition on_disconnect (rc : Z) : M unit :=
  if rc =? 0 then print "[OK] Disconnected gracefully"
  else print ("[WARN] Unexpected disconnection (code: " ++ str_of_int rc ++ ")").

Definition dispatch (ud : userdata) (ev : net_event) : M unit :=
  match ev with
  | Connack rc =>
      (if rc =? 0 then modify (set_connected true) else ret tt) ;;
      on_connect ud rc
  | Suback mid granted_qos => on_subscribe ud mid granted_qos
  | Puback mid => on_publish mid
  | Message topic payload qos => on_message topic payload qos
  | Disconnected rc => modify (set_connected false) ;; on_disconnect rc
  end.

(** The namespace [parser.parse_args()] returns. *)
Record args : Type := {
  arg_host : string;
  arg_device : string;
  arg_ca_cert : string;
  arg_device_cert : string;
  arg_device_key : string;
  arg_port : Z;
  arg_timeout : Z;
  arg_api_version : string;
  arg_csr : string
}.

Definition poll : Q := 1 # 10.

(** [while not response_received and (time.time() - start_time) < args.timeout] *)
Definition wait_for_response (ud : userdata) (timeout : Z) (start_time : Q)
  : M unit :=
  while_ (rounds (inject_Z timeout) poll)
    (r <- get response_received ;;
     if negb r then
       t <- time_time ;; ret (Qltb (t - start_time) (inject_Z timeout))
     else ret false)
    (Client.sleep (dispatch ud) poll).

(** [response_data and response_data.get('status_code') == '202'] *)
Definition accepted (d : option (string * string * option string)) : bool :=
  match d with
  | Some (_, _, status_code) => option_eqb status_code "202"
  | None => false
  end.

(** The body of the [try] of [main]. *)
Definition main_body (a : args) (ud : userdata) : M unit :=
  print ("Connecting to " ++ arg_host a ++ ":" ++ str_of_int (arg_port a)
         ++ "...") ;;
  Client.connect (arg_host a) (arg_port a) 60 ;;
  Client.loop_start ;;
  start_time <- time_time ;;
  wait_for_response ud (arg_timeout a) start_time ;;
  r <- get response_received ;;
  (if negb r then
     print (LF ++ "[FAIL] Timeout: No response received after "
            ++ str_of_int (arg_timeout a) ++ " seconds") ;;
     Client.disconnect ;;
     sys_exit 1
   else ret tt) ;;
  Client.sleep (dispatch ud) (1 # 2) ;;
  Client.loop_stop ;;
  d <- get response_data ;;
  if accepted d then sys_exit 0 else sys_exit 1.

(** The [except] clauses of [main]. *)
Definition main_handler (e : exn) : option (M unit) :=
  match e with
  | KeyboardInterrupt =>
      Some (print (LF ++ "[FAIL] Interrupted by user") ;;
            Client.disconnect ;;
            Client.loop_stop ;;
            sys_exit 1)
  | _ =>
      if is_Exception e then
        Some (print (LF ++ "[FAIL] Error: " ++ str_of_exn e) ;;
              log PrintExc ;;
              sys_exit 1)
      else None
  end.

(** [main()], from the parsed arguments on. *)
Definition main (a : args) : M unit :=
  request_id <- randint 1 99999999 ;;
  let subscribe_topic := "$iothub/credentials/res/#" in
  let publish_topic :=
    "$iothub/credentials/POST/issueCertificate/?$rid=" ++ str_of_int request_id in
  let username :=
    arg_host a ++ "/" ++ arg_device a ++ "/?api-version=" ++ arg_api_version a in
  let payload := json_dumps [("id", arg_device a); ("csr", arg_csr a)] in
  let ud := {| ud_host := arg_host a; ud_subscribe_topic := subscribe_topic;
               ud_publish_topic := publish_topic; ud_payload := payload |} in
  print (LF ++ str_mul "=" 70) ;;
  print "MQTT Certificate Issuance Request" ;;
  print (str_mul "=" 70) ;;
  print ("Host: " ++ arg_host a) ;;
  print ("Port: " ++ str_of_int (arg_port a)) ;;
  print ("Device: " ++ arg_device a) ;;
  print ("Request ID: " ++ str_of_int request_id) ;;
  print ("CA Cert: " ++ arg_ca_cert a) ;;
  print ("Device Cert: " ++ arg_device_cert a) ;;
  print ("Device Key: " ++ arg_device_key a) ;;
  print ("Subscribe Topic: " ++ subscribe_topic) ;;
  print ("Publish Topic: " ++ publish_topic) ;;
  print (str_mul "=" 70 ++ LF) ;;
  print ("Using paho-mqtt version: " ++ PAHO_MQTT_VERSION) ;;
  log (ClientNew (arg_device a) true) ;;
  log (UsernamePwSet username None) ;;
  log (TlsSet (arg_ca_cert a) (Some (arg_device_cert a))
         (Some (arg_device_key a))) ;;
  try_except (main_body a ud) main_handler.

End Script.

End IssueCert.

(** * The vocabulary of the statements

    Definitions the theorems below are stated with: sample inputs, the shape
    the external interface gives a token, predicates on the log of a run, and
    the relations and triples the proofs about the monad use. *)

Import Scenario Bytes.

(** ** Response validation *)

(** Two scenario objects to run examples on. *)
Definition sample_happy : scenario :=
  {| cls := HappyPathScenario; name := "happy_path";
     description := "Issue a certificate with valid CSR"; request_id := 7;
     subscribe_topic := "$iothub/credentials/res/#";
     publish_topic := Some "$iothub/credentials/POST/issueCertificate/?$rid=7";
     payload := Some [("id", "ruath-device-001"); ("csr", "TU9DSyBDU1I=")];
     disconnect_after_publish := false; reconnect_delay := 0 |}.

Definition sample_reconnect : scenario :=
  {| cls := DisconnectReconnectScenario; name := "disconnect_reconnect";
     description := "Disconnect after publish, reconnect later to receive response";
     request_id := 8;
     subscribe_topic := "$iothub/credentials/res/#";
     publish_topic := Some "$iothub/credentials/POST/issueCertificate/?$rid=8";
     payload := Some [("id", "ruath-device-001"); ("csr", "TU9DSyBDU1I=")];
     disconnect_after_publish := true; reconnect_delay := 3 |}.

(** The message of a topic without a segment 3. *)
Definition parse_failure : string :=
  "✗ FAILURE: Could not parse status code from topic".

(** The success flag of a result. *)
Definition success (r : result (bool * string)) : option bool :=
  match r with
  | Ok (b, _) => Some b
  | Raise _ => None
  end.

(** ** The shared-access-signature token *)

(** The suffix that names the policy: present exactly when a non-empty policy
    name is given. *)
Definition skn_suffix (policy_name : option string) : string :=
  match policy_name with
  | Some (String c p) => "&skn=" ++ String c p
  | _ => ""
  end.

(** The token in the shape the external interface gives it. *)
Definition token_text (uri sig : string) (ttl : Z) (policy_name : option string)
  : string :=
  "SharedAccessSignature sr=" ++ uri ++ "&sig=" ++ sig
  ++ "&se=" ++ str_of_int ttl ++ skn_suffix policy_name.

(** The signature field: HMAC-SHA256 of "{uri}\n{ttl}" under the decoded key,
    Base64-encoded, then URL-encoded. *)
Definition signature_text (uri : string) (decoded_key : list byte) (ttl : Z)
  : string :=
  Url.quote_plus
    (decode_ascii
       (Base64.b64encode
          (Sha256.hmac_sha256 decoded_key
             (encode_utf8 (uri ++ LF ++ str_of_int ttl))))).

(** The expiry the token carries when the clock reads [t]:
    [int(time.time() + expiry)]. *)
Definition expiry_epoch (t : Q) (expiry : Z) : result Z :=
  e <~ Float.of_int expiry ;;
  Float.to_int (Float.add (Float.of_clock t) e).

(** Text that is the Base64 encoding of some bytes (RFC 4648, with padding). *)
Definition valid_base64 (s : string) : Prop :=
  exists b : list byte, decode_ascii (Base64.b64encode b) = s.

(** [digest.hex()] *)
Definition hexdigest (b : list byte) : string :=
  let digit v := if v <? 10 then of_Z (v + 48) else of_Z (v - 10 + 97) in
  string_of_list_byte
    (flat_map (fun c => [digit (Z.shiftr (to_Z c) 4); digit (Z.land (to_Z c) 15)])
       b).

(** ** Relations between the world before and the world after *)

(** Every run of [m] relates the world it starts in to the one it ends in. *)
Definition keeps (P : world -> world -> Prop) {A} (m : M A) : Prop :=
  forall w, P w (snd (m w)).

(** The clock reads the same. *)
Definition same_clock (w w' : world) : Prop := now w' = now w.

(** The log has grown, by [l]. *)
Definition grows (w w' : world) : Prop := exists l, trace w' = (l ++ trace w)%list.

Definition is_connect (e : effect) : bool :=
  match e with
  | Connect _ _ _ => true
  | _ => false
  end.

(** The value [response_received] has at the first [connect] of a log given
    in the order the actions happened. *)
Fixpoint first_connect_flag (l : list entry) : option bool :=
  match l with
  | [] => None
  | e :: l' =>
      if is_connect (eff e) then Some (flag_at e) else first_connect_flag l'
  end.

(** While [response_received] is [False] it stays [False], and what is logged
    is no [connect]. *)
Definition calm (w w' : world) : Prop :=
  response_received w = false ->
  response_received w' = false /\
  exists l, trace w' = (l ++ trace w)%list /\ first_connect_flag (rev l) = None.

(** The clock has not gone back, and of the outcomes scripted for [connect]
    some were consumed and none was added. *)
Definition onward (w w' : world) : Prop :=
  (now w <= now w')%Q /\
  exists l, connect_results w = (l ++ connect_results w')%list.

(** No [connect] left in the script fails. *)
Definition no_connect_failure (w : world) : Prop :=
  forall msg, ~ In (ConnectFails msg) (connect_results w).

(** The state of a run that read its start time [t] from the clock; when
    [fails] is [false], no [connect] of the run is going to fail. *)
Definition since (fails : bool) (t : Q) (w : world) : Prop :=
  (fails = false -> no_connect_failure w) /\ (t <= now w)%Q.

(** What the body of a [try] of either script can raise: an interrupt, or,
    when [fails] allows it, the [OSError] of a [connect]. *)
Definition interrupt_or_failure (fails : bool) (e : exn) (w : world) : Prop :=
  e = KeyboardInterrupt \/ (fails = true /\ exists msg, e = OSError msg).

(** From a world satisfying [Pre], [m] returns a value and a world
    satisfying [Post], or raises an exception in a world satisfying [Exc]. *)
Definition triple {A} (Pre : world -> Prop) (m : M A)
  (Post : A -> world -> Prop) (Exc : exn -> world -> Prop) : Prop :=
  forall w, Pre w ->
    match m w with
    | (Ok a, w') => Post a w'
    | (Raise e, w') => Exc e w'
    end.

(** A computation that raises nothing. *)
Definition total {A} (m : M A) : Prop := forall w, exists a, fst (m w) = Ok a.

(** From a world where [response_received] is [False]: if the run logs a
    [connect] at all, the flag is [False] at the first one ([safe]); the run
    does log one, and the flag is [False] at the first ([sure]). *)
Definition safe {A} (m : M A) : Prop :=
  forall w, response_received w = false ->
  exists l, trace (snd (m w)) = (l ++ trace w)%list
            /\ first_connect_flag (rev l) <> Some true.

Definition sure {A} (m : M A) : Prop :=
  forall w, response_received w = false ->
  exists l, trace (snd (m w)) = (l ++ trace w)%list
            /\ first_connect_flag (rev l) = Some false.

(** [m] returns a value satisfying [Q] and logs exactly [es]. *)
Definition returns {A} (m : M A) (Q : A -> Prop) (es : list effect) : Prop :=
  forall w, exists a,
    fst (m w) = Ok a /\ Q a /\ history (snd (m w)) = (history w ++ es)%list.

(** [m] raises [e] after logging exactly [es]. *)
Definition exits {A} (m : M A) (e : exn) (es : list effect) : Prop :=
  forall w,
    fst (m w) = Raise e /\ history (snd (m w)) = (history w ++ es)%list.

(** [while guard and (time.time() - start_time) < timeout: time.sleep(poll)],
    the common shape of the waiting loops of both scripts. *)
Definition waiting_loop (handler : net_event -> M unit) (guard : world -> bool)
  (start_time timeout poll : Q) (fuel : nat) : M unit :=
  Sys.while_ fuel
    (g <- get guard ;;
     if g then t <- Sys.time_time ;; ret (Qltb (t - start_time) timeout)
     else ret false)
    (Client.sleep handler poll).

(** ** How a run ends *)

(** What is left of a failure once the [except] clauses have run: exit
    status 1, and only if a [connect] could fail. *)
Definition exit_after_failure (fails : bool) (e : exn) (w : world) : Prop :=
  e = SystemExit 1 /\ fails = true.

(** How the body of the [try] of [main] ends: it never returns. *)
Definition exit_of_body (e : exn) (w : world) : Prop :=
  interrupt_or_failure true e w
  \/ e = SystemExit 1
  \/ (e = SystemExit 0 /\ IssueCert.accepted (response_data w) = true).

(** How [main] ends. *)
Definition exit_of_main (e : exn) (w : world) : Prop :=
  e = SystemExit 1
  \/ (e = SystemExit 0 /\ IssueCert.accepted (response_data w) = true).

(** ** What [main] of [mqtt_credential_test.py] prints *)

(** The description each class of the registry gives its objects. *)
Definition description_of (c : scenario_class) : string :=
  match c with
  | HappyPathScenario => "Issue a certificate with valid CSR"
  | DisconnectReconnectScenario =>
      "Disconnect after publish, reconnect later to receive response"
  end.

(** What [list_scenarios] prints. *)
Definition scenario_listing : list effect :=
  [ Print (LF ++ "Available Scenarios:");
    Print (str_mul "-" 70);
    Print "  happy_path           - Issue a certificate with valid CSR";
    Print "  disconnect_reconnect - Disconnect after publish, reconnect later to receive response";
    Print (str_mul "-" 70) ].

Definition unknown_scenario_error (name : string) : effect :=
  Print ("✗ Error: Unknown scenario '" ++ name ++ "'").

Definition argument_error : list effect :=
  [ PrintUsage;
    StderrWrite ("mqtt_credential_test.py: error: "
                 ++ "Authentication method required: use --cert or --sas" ++ LF) ].

(** [line] was printed. *)
Definition printed (line : string) (w : world) : bool :=
  existsb (fun e => match e with
                    | Print l => String.eqb l line
                    | _ => false
                    end) (history w).

(** ** Concrete surroundings *)

(** A process environment without the two variables, and stand-ins for the
    two library functions that are exact on text that needs no escaping and
    on ASCII payloads. *)
Definition no_environ : string -> option string := fun _ => None.

Definition DQ : string := String (ascii_of_nat 34) EmptyString.

Definition plain_json_dumps (d : list (string * string)) : string :=
  "{"
  ++ String.concat ", "
       (map (fun p => DQ ++ fst p ++ DQ ++ ": " ++ DQ ++ snd p ++ DQ) d)
  ++ "}".

Definition ascii_decode (b : list byte) : string := string_of_list_byte b.

Definition run_test : CredentialTest.args -> M unit :=
  CredentialTest.main no_environ plain_json_dumps ascii_decode.

Definition issue_cert : IssueCert.args -> M unit :=
  IssueCert.main "1.6.1" plain_json_dumps ascii_decode.

Definition happy_path_with_certificate : CredentialTest.args :=
  {| CredentialTest.arg_scenario := "happy_path";
     CredentialTest.arg_list_scenarios := false;
     CredentialTest.arg_cert := true;
     CredentialTest.arg_sas := false |}.

Definition reconnect_with_certificate : CredentialTest.args :=
  {| CredentialTest.arg_scenario := "disconnect_reconnect";
     CredentialTest.arg_list_scenarios := false;
     CredentialTest.arg_cert := true;
     CredentialTest.arg_sas := false |}.

(** A scenario name the registry does not hold, with [--list-scenarios] and
    with an authentication method. *)
Definition list_unknown : CredentialTest.args :=
  {| CredentialTest.arg_scenario := "nope";
     CredentialTest.arg_list_scenarios := true;
     CredentialTest.arg_cert := false;
     CredentialTest.arg_sas := false |}.

Definition run_unknown : CredentialTest.args :=
  {| CredentialTest.arg_scenario := "nope";
     CredentialTest.arg_list_scenarios := false;
     CredentialTest.arg_cert := false;
     CredentialTest.arg_sas := true |}.

Definition issue_cert_args : IssueCert.args :=
  {| IssueCert.arg_host := "ruath-iothub-004.azure-devices-int.net";
     IssueCert.arg_device := "ruath-device-001";
     IssueCert.arg_ca_cert := "../IoTHubRootCA.crt.pem";
     IssueCert.arg_device_cert := "./certGen/certs/ruath-device-001.crt";
     IssueCert.arg_device_key := "./certGen/private/ruath-device-001.key";
     IssueCert.arg_port := 8883;
     IssueCert.arg_timeout := 30;
     IssueCert.arg_api_version := "2025-08-01-preview";
     IssueCert.arg_csr := "TU9DSyBDU1I=" |}.

Definition arrives (evs : list net_event) : tick :=
  {| arrivals := evs; interrupt := false |}.

Definition interrupted : tick := {| arrivals := []; interrupt := true |}.

(** A world to run examples in: the clock reads half a second past
    1700000000, nothing arrives and nothing fails. *)
Definition quiet_world : world := boot (3400000001 # 2) [] [] [] [].

(** The broker accepts the connection, the subscription and the request,
    and answers with the status [code]. *)
Definition answered (code : string) : world :=
  boot 1700000000 [41] [] []
    [ arrives [Connack 0]; arrives [Suback 1 [1]]; arrives [Puback 2];
      arrives [Message ("$iothub/credentials/res/" ++ code
                        ++ "/?$rid=42&$version=1") [] 1] ].

(** The connection is made and nothing ever arrives. *)
Definition silent : world := boot 1700000000 [41] [] [] [].

(** The user interrupts during the third sleep. *)
Definition interrupted_run : world :=
  boot 1700000000 [41] [] []
    [ arrives [Connack 0]; arrives [Suback 1 [1]]; interrupted ].

(** The broker refuses the connection: not authorized. *)
Definition refused : world :=
  boot 1700000000 [41] [] [] [ arrives [Connack 5] ].

(** A world a previous run left behind, with [response_received] still
    [True]. *)
Definition after_a_run : world := set_response_received true (answered "202").

(** ** Base64 and the signature field *)

(** The four 6-bit groups of three bytes, as [b64encode] computes them. *)
Definition sextet0 (x : Z) : Z := Z.shiftr x 2.
Definition sextet1 (x y : Z) : Z := Z.lor (Z.shiftl (Z.land x 3) 4) (Z.shiftr y 4).
Definition sextet2 (y z : Z) : Z := Z.lor (Z.shiftl (Z.land y 15) 2) (Z.shiftr z 6).
Definition sextet3 (z : Z) : Z := Z.land z 63.

(** A byte that [quote_plus] can leave in a Base64 text: a letter, a digit,
    or the percent sign of an escape. *)
Definition url_safe_byte (c : byte) : bool :=
  let n := to_Z c in
  ((65 <=? n) && (n <=? 90)) || ((97 <=? n) && (n <=? 122))
  || ((48 <=? n) && (n <=? 57)) || (n =? 37).

(** ** Topics and their segments *)

(** A segment: a text without a slash. *)
Definition no_slash (s : string) : bool :=
  forallb (fun c => negb (Ascii.eqb c slash)) (list_ascii_of_string s).

(** ["/".join(parts)] *)
Definition join_slash (parts : list string) : string := String.concat "/" parts.

(** ** What a run does to the client *)

(** The log has grown, by actions that all satisfy [ok]. *)
Definition logs_only (ok : effect -> Prop) (w w' : world) : Prop :=
  exists l, trace w' = (l ++ trace w)%list /\ Forall (fun e => ok (eff e)) l.

(** What the callbacks of a run do to the client: they print, subscribe to
    [sub], publish [payload] to [pub], unsubscribe from [sub] if the
    scenario says so, and disconnect. *)
Definition callback_effect (sub pub payload : string) (unsubscribes : bool)
  (e : effect) : Prop :=
  match e with
  | Print _ | Disconnect => True
  | Subscribe t q => t = sub /\ q = 1
  | Unsubscribe t => t = sub /\ unsubscribes = true
  | Publish t p q => t = pub /\ p = payload /\ q = 1
  | _ => False
  end.

(** What a whole run does: besides the above it configures the client,
    connects to [host] at [port], starts and stops the network loop and
    sleeps. *)
Definition run_effect (host : string) (port : Z) (sub pub payload : string)
  (unsubscribes : bool) (e : effect) : Prop :=
  match e with
  | Connect h p k => h = host /\ p = port /\ k = 60
  | LoopStart | LoopStop | Sleep _ | PrintExc
  | ClientNew _ _ | UsernamePwSet _ _ | TlsSet _ _ _ => True
  | _ => callback_effect sub pub payload unsubscribes e
  end.

(** The text [on_subscribe] publishes. *)
Definition payload_json (json_dumps : list (string * string) -> string)
  (s : scenario) : string :=
  match Scenario.payload s with
  | Some d => json_dumps d
  | None => ""
  end.

(** The name each class of the registry gives its objects. *)
Definition name_of (c : scenario_class) : string :=
  match c with
  | HappyPathScenario => "happy_path"
  | DisconnectReconnectScenario => "disconnect_reconnect"
  end.

(** Whether the objects of the class disconnect after publishing. *)
Definition reconnects (c : scenario_class) : bool :=
  match c with
  | HappyPathScenario => false
  | DisconnectReconnectScenario => true
  end.

(** The topic filter both scripts subscribe to. *)
Definition response_topic_filter : string := "$iothub/credentials/res/#".

(** The topic a request with the identifier [rid] is published to. *)
Definition request_topic (rid : Z) : string :=
  "$iothub/credentials/POST/issueCertificate/?$rid=" ++ str_of_int rid.

(** The attributes of an object of the class [c], as its constructor leaves
    them. *)
Definition well_formed (client_id : string) (c : scenario_class) (s : scenario)
  : Prop :=
  cls s = c /\ Scenario.name s = name_of c
  /\ Scenario.description s = description_of c
  /\ 1 <= request_id s <= 99999999
  /\ subscribe_topic s = response_topic_filter
  /\ publish_topic s = Some (request_topic (request_id s))
  /\ Scenario.payload s = Some [("id", client_id); ("csr", "TU9DSyBDU1I=")]
  /\ disconnect_after_publish s = reconnects c
  /\ reconnect_delay s = (if reconnects c then 3 else 0).

(** What configuring the authentication does: it prints and sets the
    credentials and the TLS parameters of the client. *)
Definition setup_effect (e : effect) : Prop :=
  match e with
  | Print _ | UsernamePwSet _ _ | TlsSet _ _ _ => True
  | _ => False
  end.

(** The actions of a run with the scenario object [s]. *)
Definition whole_run (environ : string -> option string)
  (json_dumps : list (string * string) -> string) (s : scenario) (u : bool)
  : effect -> Prop :=
  run_effect (CredentialTest.HOST environ) CredentialTest.PORT
    (subscribe_topic s) (str_of_option (publish_topic s))
    (payload_json json_dumps s) u.

(** ** Counting the calls of [connect] *)

(** The number of [connect] calls among the actions [l]. *)
Definition connect_calls (l : list effect) : nat :=
  List.length (filter is_connect l).

(** The log has grown, by at most [n] calls of [connect]. *)
Definition connects_at_most (n : nat) (w w' : world) : Prop :=
  exists l, trace w' = (l ++ trace w)%list
            /\ (connect_calls (map eff l) <= n)%nat.

(** An action that is no [connect]. *)
Definition no_connect (e : effect) : Prop := is_connect e = false.

(** ** The callbacks *)

(** [msg.payload.decode('utf-8', errors='replace')], or the empty text when
    the payload is empty. *)
Definition payload_text (decode_replace : list byte -> string)
  (payload : list byte) : string :=
  match payload with
  | [] => ""
  | _ :: _ => decode_replace payload
  end.

(** ** Runs that end early *)

(** What [run_scenario] prints and does before it configures the
    authentication. *)
Definition run_header (client_id : string) (c : scenario_class) : list effect :=
  [ Print (LF ++ str_mul "=" 70);
    Print ("MQTT Credential Management Test - " ++ name_of c);
    Print ("Description: " ++ description_of c);
    Print (str_mul "=" 70);
    ClientNew client_id true ].

(** What [setup_sas_auth] prints with the key the script ships. *)
Definition sas_refusal (host : string) : list effect :=
  [ Print "Using SAS Token Authentication (Hub Policy)";
    Print ("Generating SAS token for hub: " ++ host);
    Print "Using policy: iothubowner";
    Print "✗ Error decoding key: Invalid base64-encoded string: number of data characters (17) cannot be 1 more than a multiple of 4" ].

(** An action that is no [time.sleep]. *)
Definition no_sleep (e : effect) : Prop :=
  match e with
  | Sleep _ => False
  | _ => True
  end.

(** The arguments of a run that is given no time: [--timeout 0]. *)
Definition impatient_args : IssueCert.args :=
  {| IssueCert.arg_host := "ruath-iothub-004.azure-devices-int.net";
     IssueCert.arg_device := "ruath-device-001";
     IssueCert.arg_ca_cert := "../IoTHubRootCA.crt.pem";
     IssueCert.arg_device_cert := "./certGen/certs/ruath-device-001.crt";
     IssueCert.arg_device_key := "./certGen/private/ruath-device-001.key";
     IssueCert.arg_port := 8883;
     IssueCert.arg_timeout := 0;
     IssueCert.arg_api_version := "2025-08-01-preview";
     IssueCert.arg_csr := "TU9DSyBDU1I=" |}.

(** From a world where no response was received yet, [m] ends by
    [sys.exit(1)] with still no response received, and without a sleep among
    the actions logged since [w0]. *)
Definition gives_up_at_once (w0 : world) {A} (m : M A) : Prop :=
  forall w1,
    response_received w1 = false -> logs_only no_sleep w0 w1 ->
    fst (m w1) = Raise (SystemExit 1) /\
    response_received (snd (m w1)) = false /\
    logs_only no_sleep w0 (snd (m w1)).

(** ** How a run leaves the client *)

(** If a response is recorded in the world after and none was in the world
    before, then [client.disconnect()] was called in between. *)
Definition disconnects_on_response (w w' : world) : Prop :=
  exists l, trace w' = (l ++ trace w)%list
            /\ (response_received w' = true ->
                response_received w = true \/ In Disconnect (map eff l)).

(** [client.disconnect()] was called since [w]. *)
Definition disconnected_since (w w' : world) : Prop :=
  exists l, trace w' = (l ++ trace w)%list /\ In Disconnect (map eff l).

(** The state [run_scenario] returns in: the loop of the client is stopped
    by a [loop_stop()] that is the last action, after a [disconnect()]. *)
Definition cleaned_up (w w' : world) : Prop :=
  loop_running w' = false /\
  exists flag l,
    trace w' = ({| eff := LoopStop; flag_at := flag |} :: l ++ trace w)%list
    /\ In Disconnect (map eff l).

(** A run that was answered [code] and returned. *)
Definition happy_run (code : string) : result unit * world :=
  CredentialTest.run_scenario no_environ plain_json_dumps ascii_decode
    HappyPathScenario true (answered code).

(** ** Runs that are answered in time *)

(** An event the callbacks of [mqtt_issue_cert.py] handle without raising
    and without recording a response: an accepted connection, a granted
    subscription, an acknowledged publish, a lost connection. *)
Definition benign (ev : net_event) : bool :=
  match ev with
  | Connack rc => rc =? 0
  | Suback _ (_ :: _) => true
  | Suback _ [] => false
  | Puback _ => true
  | Message _ _ _ => false
  | Disconnected _ => true
  end.

(** The status code of a response topic: its segment 3, if it has one. *)
Definition status_of (topic : string) : option string :=
  nth_error (split topic slash) 3.

(** What the waiting loop looks at is as it was. *)
Definition steady (w w' : world) : Prop :=
  response_received w' = response_received w
  /\ response_data w' = response_data w
  /\ now w' = now w
  /\ loop_running w' = loop_running w
  /\ ticks w' = ticks w.

(** The first [connect] of the script of the surroundings succeeds. *)
Definition connects (w : world) : bool :=
  match connect_results w with
  | [] | ConnectOk :: _ => true
  | _ => false
  end.

(** * Properties *)

(** ** The library models against the library

    Values CPython 3.11 returns for the same calls. *)

Example sha256_empty :
  hexdigest (Sha256.sha256 [])
  = "e3b0c44298fc1c149afbf4c8996fb92427ae41e4649b934ca495991b7852b855".
Proof. vm_compute. reflexivity. Qed.

Example sha256_abc :
  hexdigest (Sha256.sha256 (encode_utf8 "abc"))
  = "ba7816bf8f01cfea414140de5dae2223b00361a396177a9cb410ff61f20015ad".
Proof. vm_compute. reflexivity. Qed.

Example sha256_two_blocks :
  hexdigest (Sha256.sha256 (encode_utf8 (str_mul "a" 56)))
  = "b35439a4ac6f0948b6d6f9e3c6af0f5f590ce20f1bde7090ef7970686ec6738a".
Proof. vm_compute. reflexivity. Qed.

Example hmac_sha256_fox :
  hexdigest (Sha256.hmac_sha256 (encode_utf8 "key")
               (encode_utf8 "The quick brown fox jumps over the lazy dog"))
  = "f7bc83f430538424b13298e6aa6fb143ef4d59a14946175997479dbc2d1a3cd8".
Proof. vm_compute. reflexivity. Qed.

Example hmac_sha256_long_key :
  hexdigest (Sha256.hmac_sha256 (encode_utf8 (str_mul "k" 65)) (encode_utf8 "msg"))
  = "c65585780e821bd312cfaa440c33cb28d6af6b323d4977ae83934834ce589e38".
Proof. vm_compute. reflexivity. Qed.

Example hmac_sha256_empty_key :
  hexdigest (Sha256.hmac_sha256 [] (encode_utf8 ("h" ++ LF ++ "100")))
  = "656d0ac8afdeb44072bee1d59164524fcf3f86c9a399abfc55afed1c2a5c2ad7".
Proof. vm_compute. reflexivity. Qed.

Example b64encode_foobar :
  map (fun s => decode_ascii (Base64.b64encode (encode_utf8 s)))
    ["f"; "fo"; "foo"; "foob"; "fooba"; "foobar"]
  = ["Zg=="; "Zm8="; "Zm9v"; "Zm9vYg=="; "Zm9vYmE="; "Zm9vYmFy"].
Proof. vm_compute. reflexivity. Qed.

Example b64decode_lenient :
  map Base64.b64decode ["TU9DSyBDU1I="; "ab==cd"; "="; "abc"; "a=b="]
  = [Ok (encode_utf8 "MOCK CSR"); Ok (encode_utf8 "i"); Ok [];
     Raise (BinasciiError "Incorrect padding");
     Raise (BinasciiError "Incorrect padding")].
Proof. vm_compute. reflexivity. Qed.

Example b64decode_placeholder_key :
  Base64.b64decode "<Your Hub SAS Key Here>"
  = Raise (BinasciiError
             "Invalid base64-encoded string: number of data characters (17) cannot be 1 more than a multiple of 4").
Proof. vm_compute. reflexivity. Qed.

Example quote_plus_reserved :
  Url.quote_plus "a b+c/d=e~_.-*" = "a+b%2Bc%2Fd%3De~_.-%2A".
Proof. vm_compute. reflexivity. Qed.

(** ** Response validation *)

Section Validation.

Import Scenario.

Lemma append_empty_r (s : string) : s ++ "" = s.
Proof. induction s as [|c s IH]; simpl; [reflexivity | now rewrite IH]. Qed.

Lemma split_nonempty (s : string) (sep : ascii) : split s sep <> [].
Proof.
  destruct s as [|c s]; simpl; [discriminate|].
  destruct (Ascii.eqb c sep); [discriminate|].
  destruct (split s sep); discriminate.
Qed.

Lemma len_ge_4_nth {A} (l : list A) :
  (len l >=? 4) = true -> exists x, nth_error l 3 = Some x.
Proof.
  unfold len. intros H. apply Z.geb_le in H.
  destruct (nth_error l 3) as [x|] eqn:E; [now exists x|].
  apply nth_error_None in E. lia.
Qed.

Lemma nth_len_ge_4 {A} (l : list A) (x : A) :
  nth_error l 3 = Some x -> (len l >=? 4) = true.
Proof.
  intros H. unfold len. apply Z.geb_le.
  assert (3 < List.length l)%nat by (apply nth_error_Some; congruence). lia.
Qed.

Lemma len_lt_4 {A} (l : list A) : len l < 4 -> (len l >=? 4) = false.
Proof. intros H. destruct (len l >=? 4) eqn:E; [apply Z.geb_le in E; lia | reflexivity]. Qed.

(** What [HappyPathScenario.validate_response] answers on a topic whose
    segment 3 is [seg]. *)
Lemma happy_path_on_segment (self : scenario) (topic payload seg : string) :
  nth_error (split topic slash) 3 = Some seg ->
  HappyPathScenario_validate_response self topic payload =
    if String.eqb seg "202"
    then Ok (true, "✓ SUCCESS: Received expected status code 202")
    else Ok (false, "✗ FAILURE: Expected status code 202, got " ++ seg).
Proof.
  intros H. unfold HappyPathScenario_validate_response, getitem.
  rewrite (nth_len_ge_4 _ _ H), H. reflexivity.
Qed.

Lemma disconnect_reconnect_on_segment (self : scenario) (topic payload seg : string) :
  nth_error (split topic slash) 3 = Some seg ->
  DisconnectReconnectScenario_validate_response self topic payload =
    if String.eqb seg "202"
    then Ok (true, "✓ SUCCESS: Received response after reconnection (status code 202)")
    else Ok (false, "✗ FAILURE: Expected status code 202, got " ++ seg).
Proof.
  intros H. unfold DisconnectReconnectScenario_validate_response, getitem.
  rewrite (nth_len_ge_4 _ _ H), H. reflexivity.
Qed.

Lemma happy_path_short (self : scenario) (topic payload : string) :
  len (split topic slash) < 4 ->
  HappyPathScenario_validate_response self topic payload = Ok (false, parse_failure).
Proof.
  intros H. unfold HappyPathScenario_validate_response.
  now rewrite (len_lt_4 _ H).
Qed.

Lemma disconnect_reconnect_short (self : scenario) (topic payload : string) :
  len (split topic slash) < 4 ->
  DisconnectReconnectScenario_validate_response self topic payload
  = Ok (false, parse_failure).
Proof.
  intros H. unfold DisconnectReconnectScenario_validate_response.
  now rewrite (len_lt_4 _ H).
Qed.

(** Either the topic has a segment 3 or it has fewer than four segments. *)
Lemma segment_3_or_short (topic : string) :
  (exists seg, nth_error (split topic slash) 3 = Some seg)
  \/ len (split topic slash) < 4.
Proof.
  destruct (nth_error (split topic slash) 3) as [seg|] eqn:E.
  - left. now exists seg.
  - right. apply nth_error_None in E. unfold len. lia.
Qed.

(** C1: for every topic that splits on '/' into at least four segments,
    [HappyPathScenario.validate_response] succeeds if and only if segment 3
    is the literal "202"; for any other segment it fails and the message
    contains that segment. *)
Theorem happy_path_validates_status_segment
  (self : scenario) (topic payload : string) :
  4 <= len (split topic slash) ->
  exists seg b msg,
    nth_error (split topic slash) 3 = Some seg /\
    HappyPathScenario_validate_response self topic payload = Ok (b, msg) /\
    (b = true <-> seg = "202") /\
    (seg <> "202" -> b = false /\ contains seg msg).
Proof.
  intros Hlen.
  destruct (segment_3_or_short topic) as [[seg Hseg]|Hshort]; [|lia].
  rewrite (happy_path_on_segment self topic payload seg Hseg).
  destruct (String.eqb_spec seg "202") as [->|Hne].
  - exists "202", true, "✓ SUCCESS: Received expected status code 202".
    repeat split; auto; congruence.
  - exists seg, false, ("✗ FAILURE: Expected status code 202, got " ++ seg).
    repeat split; auto; try congruence.
    exists "✗ FAILURE: Expected status code 202, got ", "".
    now rewrite append_empty_r.
Qed.

Lemma happy_path_validates_status_segment_witness :
  exists seg b msg,
    nth_error (split "$iothub/credentials/res/400/?$rid=7&$version=1" slash) 3
      = Some seg /\
    HappyPathScenario_validate_response sample_happy
      "$iothub/credentials/res/400/?$rid=7&$version=1" "" = Ok (b, msg) /\
    (b = true <-> seg = "202") /\
    (seg <> "202" -> b = false /\ contains seg msg).
Proof.
  apply happy_path_validates_status_segment. vm_compute. discriminate.
Defined.

(** C2: on a topic with fewer than four segments both scenario variants
    answer failure with the parse-failure message, and on every topic
    whatsoever they return a pair and raise nothing. *)
Theorem validate_response_total_and_short
  (self : scenario) (topic payload : string) :
  (len (split topic slash) < 4 ->
     HappyPathScenario_validate_response self topic payload
       = Ok (false, parse_failure) /\
     DisconnectReconnectScenario_validate_response self topic payload
       = Ok (false, parse_failure)) /\
  (exists r, HappyPathScenario_validate_response self topic payload = Ok r) /\
  (exists r, DisconnectReconnectScenario_validate_response self topic payload
             = Ok r) /\
  (exists r, validate_response self topic payload = Ok r).
Proof.
  assert (HP : exists r, HappyPathScenario_validate_response self topic payload = Ok r).
  { destruct (segment_3_or_short topic) as [[seg Hseg]|Hshort].
    - rewrite (happy_path_on_segment self topic payload seg Hseg).
      destruct (String.eqb seg "202"); eauto.
    - rewrite (happy_path_short self topic payload Hshort). eauto. }
  assert (DR : exists r,
             DisconnectReconnectScenario_validate_response self topic payload = Ok r).
  { destruct (segment_3_or_short topic) as [[seg Hseg]|Hshort].
    - rewrite (disconnect_reconnect_on_segment self topic payload seg Hseg).
      destruct (String.eqb seg "202"); eauto.
    - rewrite (disconnect_reconnect_short self topic payload Hshort). eauto. }
  repeat split; auto using happy_path_short, disconnect_reconnect_short.
  unfold validate_response. destruct (cls self); assumption.
Qed.

Lemma validate_response_total_and_short_witness :
  len (split "$iothub/credentials/res" slash) < 4 /\
  HappyPathScenario_validate_response sample_reconnect "$iothub/credentials/res" ""
    = Ok (false, parse_failure) /\
  DisconnectReconnectScenario_validate_response sample_reconnect
    "$iothub/credentials/res" "" = Ok (false, parse_failure).
Proof.
  assert (H : len (split "$iothub/credentials/res" slash) < 4)
    by (vm_compute; reflexivity).
  split; [exact H|].
  exact (proj1 (validate_response_total_and_short sample_reconnect
                  "$iothub/credentials/res" "") H).
Defined.

Lemma validate_response_on_segment (self : scenario) (topic payload seg : string) :
  nth_error (split topic slash) 3 = Some seg ->
  success (validate_response self topic payload) = Some (String.eqb seg "202").
Proof.
  intros H. unfold validate_response. destruct (cls self).
  - rewrite (happy_path_on_segment self topic payload seg H).
    destruct (String.eqb seg "202"); reflexivity.
  - rewrite (disconnect_reconnect_on_segment self topic payload seg H).
    destruct (String.eqb seg "202"); reflexivity.
Qed.

(** A topic that starts with the four segments of an accepted response has
    "202" as its segment 3, whatever follows. *)
Lemma accepted_prefix_segment (rest : string) :
  nth_error (split ("$iothub/credentials/res/202/" ++ rest) slash) 3 = Some "202".
Proof.
  simpl. destruct (split rest slash); reflexivity.
Qed.

(** C8: the two scenario variants return the same success flag on every
    topic and payload; only the text of the message may differ. *)
Theorem disconnect_reconnect_same_rule_as_happy_path
  (self : scenario) (topic payload : string) :
  exists b m1 m2,
    HappyPathScenario_validate_response self topic payload = Ok (b, m1) /\
    DisconnectReconnectScenario_validate_response self topic payload = Ok (b, m2).
Proof.
  destruct (segment_3_or_short topic) as [[seg Hseg]|Hshort].
  - rewrite (happy_path_on_segment self topic payload seg Hseg),
            (disconnect_reconnect_on_segment self topic payload seg Hseg).
    destruct (String.eqb seg "202"); eauto.
  - rewrite (happy_path_short self topic payload Hshort),
            (disconnect_reconnect_short self topic payload Hshort). eauto.
Qed.

(** What [on_message] of [mqtt_issue_cert.py] records: the status code is
    segment 3 of the topic, or [None] when there is none. *)
Lemma issue_cert_on_message_records (decode_replace : list byte -> string)
  (topic : string) (payload : list byte) (qos : Z) (w : world) :
  let w' := snd (IssueCert.on_message decode_replace topic payload qos w) in
  response_received w' = true /\
  response_data w' =
    Some (topic,
          match payload with [] => "" | _ :: _ => decode_replace payload end,
          nth_error (split topic slash) 3).
Proof.
  unfold IssueCert.on_message, getitem.
  destruct (segment_3_or_short topic) as [[seg Hseg]|Hshort].
  - rewrite (nth_len_ge_4 _ _ Hseg), Hseg.
    destruct payload; cbn; destruct (String.eqb seg "202"); split; reflexivity.
  - rewrite (len_lt_4 _ Hshort).
    assert (E : nth_error (split topic slash) 3 = None)
      by (apply nth_error_None; unfold len in Hshort; lia).
    rewrite E. destruct payload; split; reflexivity.
Qed.

(** C7: the success flag of [validate_response] depends on segment 3 of the
    topic only: two topics with the same segment 3 get the same flag, whatever
    the payloads and whatever the request ids of the scenario objects; a topic
    whose segment 3 is "202" is accepted whatever identifier follows it; and
    [on_message] of [mqtt_issue_cert.py] likewise records segment 3 alone as
    the status code. *)
Theorem validation_keys_on_status_segment_only :
  (forall (self1 self2 : scenario) (t1 t2 p1 p2 seg : string),
      nth_error (split t1 slash) 3 = Some seg ->
      nth_error (split t2 slash) 3 = Some seg ->
      exists b,
        success (validate_response self1 t1 p1) = Some b /\
        success (validate_response self2 t2 p2) = Some b) /\
  (forall (self : scenario) (rid : Z) (payload : string),
      success (validate_response self
                 ("$iothub/credentials/res/202/?$rid=" ++ str_of_int rid
                  ++ "&$version=1") payload) = Some true) /\
  (forall (decode_replace : list byte -> string) (t1 t2 : string)
          (p1 p2 : list byte) (q1 q2 : Z) (w1 w2 : world),
      nth_error (split t1 slash) 3 = nth_error (split t2 slash) 3 ->
      IssueCert.accepted
        (response_data (snd (IssueCert.on_message decode_replace t1 p1 q1 w1)))
      = IssueCert.accepted
          (response_data (snd (IssueCert.on_message decode_replace t2 p2 q2 w2)))).
Proof.
  split; [|split].
  - intros self1 self2 t1 t2 p1 p2 seg H1 H2.
    exists (String.eqb seg "202").
    split; now apply validate_response_on_segment.
  - intros self rid payload.
    apply (validate_response_on_segment self _ payload "202").
    apply (accepted_prefix_segment ("?$rid=" ++ str_of_int rid ++ "&$version=1")).
  - intros dec t1 t2 p1 p2 q1 q2 w1 w2 H.
    rewrite (proj2 (issue_cert_on_message_records dec t1 p1 q1 w1)),
            (proj2 (issue_cert_on_message_records dec t2 p2 q2 w2)), H.
    reflexivity.
Qed.

Lemma validation_keys_on_status_segment_only_witness :
  exists b,
    success (validate_response sample_happy
               "$iothub/credentials/res/202/?$rid=1&$version=1" "") = Some b /\
    success (validate_response sample_reconnect
               "a/b/c/202" "{}") = Some b.
Proof.
  apply (proj1 validation_keys_on_status_segment_only
           sample_happy sample_reconnect
           "$iothub/credentials/res/202/?$rid=1&$version=1" "a/b/c/202"
           "" "{}" "202"); reflexivity.
Defined.

End Validation.

(** ** The float sum of the clock reading and the expiry *)

Section Rounding.

Import Float.

Local Open Scope Q_scope.

Lemma round_half_even_close (y : Q) :
  Qabs (inject_Z (round_half_even y) - y) <= 1 # 2.
Proof.
  unfold round_half_even.
  pose proof (Qfloor_le y) as Hlo. pose proof (Qlt_floor y) as Hhi.
  rewrite inject_Z_plus in Hhi. change (inject_Z 1) with 1 in Hhi.
  apply Qabs_Qle_condition.
  destruct (y - inject_Z (Qfloor y) ?= 1 # 2) eqn:C.
  - apply Qeq_alt in C. destruct (Z.even (Qfloor y));
      rewrite ?inject_Z_plus; change (inject_Z 1) with 1; lra.
  - apply Qlt_alt in C. lra.
  - apply Qgt_alt in C. rewrite inject_Z_plus. change (inject_Z 1) with 1. lra.
Qed.

Lemma round_half_even_Z (k : Z) : round_half_even (inject_Z k) = k.
Proof.
  unfold round_half_even. rewrite Qfloor_Z.
  assert (C : (inject_Z k - inject_Z k ?= 1 # 2) = Lt).
  { apply Qlt_alt. unfold Qminus. rewrite Qplus_opp_r. reflexivity. }
  now rewrite C.
Qed.

Lemma round_half_even_comp (x y : Q) :
  x == y -> round_half_even x = round_half_even y.
Proof.
  intros E. unfold round_half_even.
  rewrite (Qfloor_comp _ _ E).
  assert (C : (x - inject_Z (Qfloor y) ?= 1 # 2)
              = (y - inject_Z (Qfloor y) ?= 1 # 2)).
  { apply Qcompare_comp; [now rewrite E | reflexivity]. }
  now rewrite C.
Qed.

Lemma pow2_pos (e : Z) : 0 < pow2 e.
Proof. apply Qpower_0_lt. reflexivity. Qed.

Lemma pow2_plus (a b : Z) : pow2 (a + b) == pow2 a * pow2 b.
Proof. apply Qpower_plus. discriminate. Qed.

Lemma pow2_Z (e : Z) : (0 <= e)%Z -> pow2 e == inject_Z (2 ^ e).
Proof. intros H. unfold pow2. now rewrite Zpower_Qpower. Qed.

Lemma pow2_le (a b : Z) : (a <= b)%Z -> pow2 a <= pow2 b.
Proof. intros H. apply Qpower_le_compat_l; [exact H | discriminate]. Qed.

Lemma pow2_cancel (e : Z) : pow2 (- e) * pow2 e == 1.
Proof. rewrite <- pow2_plus. now replace (- e + e)%Z with 0%Z by lia. Qed.

(** The spacing of the floats below [2 ** k]. *)
Lemma ulp_exponent_le (k : Z) (x : Q) :
  (-1021 <= k)%Z -> Qabs x < pow2 k -> (ulp_exponent x <= k - 53)%Z.
Proof.
  intros Hk Hx. unfold ulp_exponent.
  apply Z.max_lub; [lia|].
  set (N := Qfloor (Qabs x * subnormals)).
  assert (Hs : subnormals == pow2 1074) by (vm_compute; reflexivity).
  assert (H0 : (0 <= N)%Z).
  { unfold N. rewrite <- (Qfloor_Z 0). apply Qfloor_resp_le.
    apply Qmult_le_0_compat; [apply Qabs_nonneg|].
    rewrite Hs. apply Qlt_le_weak, pow2_pos. }
  assert (HN : (N < 2 ^ (k + 1074))%Z).
  { rewrite Zlt_Qlt. rewrite <- pow2_Z by lia. rewrite pow2_plus, <- Hs.
    apply Qle_lt_trans with (Qabs x * subnormals); [apply Qfloor_le|].
    apply Qmult_lt_compat_r; [rewrite Hs; apply pow2_pos | exact Hx]. }
  destruct (Z.eq_dec N 0) as [E|E].
  - rewrite E. cbn. lia.
  - assert (L : (Z.log2 N < k + 1074)%Z) by (apply Z.log2_lt_pow2; lia).
    lia.
Qed.

Lemma nearest_spec (x : Q) :
  nearest x
  == inject_Z (round_half_even (x / pow2 (ulp_exponent x)))
     * pow2 (ulp_exponent x).
Proof. unfold nearest. cbv zeta. apply Qred_correct. Qed.

(** Rounding moves a number by half the spacing at most. *)
Lemma nearest_close (x : Q) :
  Qabs (nearest x - x) <= pow2 (ulp_exponent x) * (1 # 2).
Proof.
  rewrite nearest_spec.
  set (p := pow2 (ulp_exponent x)).
  assert (Hp : 0 < p) by apply pow2_pos.
  set (y := x / p).
  assert (E : inject_Z (round_half_even y) * p - x
              == (inject_Z (round_half_even y) - y) * p).
  { unfold y. field. intros H. rewrite H in Hp. now apply Qlt_irrefl in Hp. }
  rewrite E, Qabs_Qmult, (Qabs_pos p) by now apply Qlt_le_weak.
  rewrite (Qmult_comm p).
  apply Qmult_le_compat_r; [apply round_half_even_close | now apply Qlt_le_weak].
Qed.

Lemma nearest_close_below (k : Z) (x : Q) :
  (-1021 <= k)%Z -> Qabs x < pow2 k -> Qabs (nearest x - x) <= pow2 (k - 54).
Proof.
  intros Hk Hx.
  apply Qle_trans with (pow2 (ulp_exponent x) * (1 # 2)); [apply nearest_close|].
  apply Qle_trans with (pow2 (k - 53) * (1 # 2)).
  - apply Qmult_le_compat_r; [|discriminate].
    apply pow2_le. now apply ulp_exponent_le.
  - replace (k - 53)%Z with (k - 54 + 1)%Z by lia.
    rewrite pow2_plus. change (pow2 1) with 2. 
    apply Qle_lteq. right. field.
Qed.

(** An integer of fewer than 54 bits is a float. *)
Lemma nearest_int (n : Z) :
  (Z.abs n < 2 ^ 53)%Z -> nearest (inject_Z n) == inject_Z n.
Proof.
  intros Hn.
  assert (Hx : Qabs (inject_Z n) < pow2 53).
  { rewrite pow2_Z by lia. unfold inject_Z at 1. rewrite <- Zabs_Qabs.
    change (Z.abs n # 1) with (inject_Z (Z.abs n)). now rewrite <- Zlt_Qlt. }
  pose proof (ulp_exponent_le 53 _ ltac:(lia) Hx) as He.
  rewrite nearest_spec.
  set (e := ulp_exponent (inject_Z n)) in *.
  assert (Ey : inject_Z n / pow2 e == inject_Z (n * 2 ^ (- e))).
  { rewrite inject_Z_mult, <- pow2_Z by lia.
    unfold Qdiv. apply Qmult_comp; [reflexivity|].
    unfold pow2. now rewrite Qpower_opp. }
  rewrite (round_half_even_comp _ _ Ey), round_half_even_Z.
  rewrite inject_Z_mult, <- pow2_Z by lia.
  rewrite <- Qmult_assoc, pow2_cancel. apply Qmult_1_r.
Qed.

End Rounding.

Section Epoch.

Import Float.
Local Open Scope Q_scope.


Lemma ulp_exponent_comp (x y : Q) : x == y -> ulp_exponent x = ulp_exponent y.
Proof.
  intros E. unfold ulp_exponent. f_equal. f_equal. f_equal.
  apply Qfloor_comp. now rewrite E.
Qed.

Lemma nearest_comp (x y : Q) : x == y -> nearest x = nearest y.
Proof.
  intros E. unfold nearest. cbv zeta.
  rewrite (ulp_exponent_comp _ _ E).
  apply Qred_complete.
  rewrite (round_half_even_comp (x / pow2 (ulp_exponent y))
             (y / pow2 (ulp_exponent y))); [reflexivity|].
  now rewrite E.
Qed.

Lemma round_finite (x : Q) :
  Qabs x < overflow_threshold -> round x = Some (nearest x).
Proof.
  intros H. unfold round.
  destruct (Qle_bool overflow_threshold (Qabs x)) eqn:E; [|reflexivity].
  apply Qle_bool_iff in E. exfalso. apply (Qlt_irrefl (Qabs x)).
  eapply Qlt_le_trans; eassumption.
Qed.

Lemma of_int_small (n : Z) :
  (Z.abs n < 2 ^ 53)%Z ->
  exists x, of_int n = Ok x /\ x == inject_Z n.
Proof.
  intros Hn. unfold of_int. rewrite round_finite.
  - eexists. split; [reflexivity | now apply nearest_int].
  - unfold inject_Z at 1. rewrite <- Zabs_Qabs.
    change (Z.abs n # 1) with (inject_Z (Z.abs n)).
    apply Qlt_trans with (inject_Z (2 ^ 53));
      [now rewrite <- Zlt_Qlt | vm_compute; reflexivity].
Qed.

Lemma split_sum (a b : Q) : a == (a - b) + b.
Proof. ring. Qed.


Lemma clamp_bound (t : Q) :
  Qabs (Qmax (- clock_max) (Qmin clock_max t)) <= clock_max.
Proof.
  apply Qabs_Qle_condition. split.
  - apply Q.le_max_l.
  - apply Q.max_lub; [discriminate | apply Q.le_min_l].
Qed.



Lemma clock_max_below : clock_max < pow2 34.
Proof. vm_compute. reflexivity. Qed.

Lemma of_clock_bound (t : Q) : Qabs (of_clock t) <= pow2 35.
Proof.
  unfold of_clock.
  set (c := Qmax (- clock_max) (Qmin clock_max t)).
  assert (Hc : Qabs c < pow2 34).
  { eapply Qle_lt_trans; [apply clamp_bound | apply clock_max_below]. }
  pose proof (nearest_close_below 34 c ltac:(lia) Hc) as H.
  rewrite (split_sum (nearest c) c).
  eapply Qle_trans; [apply Qabs_triangle|].
  apply Qle_trans with (pow2 (34 - 54) + pow2 34).
  - apply Qplus_le_compat; [exact H | now apply Qlt_le_weak].
  - apply Qle_bool_iff. vm_compute. reflexivity.
Qed.

(** The expiry epoch of an expiry of fewer than 54 bits: the clock reading
    and the sum are rounded, the expiry is not. *)
Lemma expiry_epoch_small (t : Q) (expiry : Z) :
  (Z.abs expiry < 2 ^ 53)%Z ->
  expiry_epoch t expiry
  = Ok (int_of_float (nearest (of_clock t + inject_Z expiry))).
Proof.
  intros He. unfold expiry_epoch.
  destruct (of_int_small expiry He) as [x [Ex Hx]]. rewrite Ex.
  cbn [rbind]. unfold add.
  assert (Hsum : of_clock t + x == of_clock t + inject_Z expiry)
    by now rewrite Hx.
  rewrite round_finite.
  - cbn [to_int]. f_equal. f_equal. now apply nearest_comp.
  - rewrite Hsum.
    eapply Qle_lt_trans; [apply Qabs_triangle|].
    apply Qle_lt_trans with (pow2 35 + inject_Z (2 ^ 53)).
    + apply Qplus_le_compat; [apply of_clock_bound|].
      unfold inject_Z at 1. rewrite <- Zabs_Qabs.
      change (Z.abs expiry # 1) with (inject_Z (Z.abs expiry)).
      rewrite <- Zle_Qle. lia.
    + vm_compute. reflexivity.
Qed.



End Epoch.

(** ** The shared-access-signature token *)

Section Token.

Import CredentialTest Bytes.

Lemma append_assoc (a b c : string) : (a ++ b) ++ c = a ++ b ++ c.
Proof. induction a as [|x a IH]; simpl; [reflexivity | now rewrite IH]. Qed.

(** What [generate_sas_token] does, by the outcome of the float sum and of
    decoding the key. *)
Lemma generate_sas_token_overflow (uri key : string)
  (policy_name : option string) (expiry : Z) (w : world) (e : exn) :
  expiry_epoch (now w) expiry = Raise e ->
  generate_sas_token uri key policy_name expiry w = (Raise e, w).
Proof.
  unfold expiry_epoch. intros Ht.
  destruct (Float.of_int expiry) as [x|o] eqn:Ex; cbn [rbind] in Ht.
  - unfold generate_sas_token, bind, Sys.time_time, get, lift.
    now rewrite Ex, Ht.
  - unfold generate_sas_token, bind, Sys.time_time, get, lift.
    rewrite Ex. congruence.
Qed.

Lemma generate_sas_token_decoded (uri key : string) (policy_name : option string)
  (expiry : Z) (w : world) (dk : list byte) (ttl : Z) :
  expiry_epoch (now w) expiry = Ok ttl ->
  Base64.b64decode key = Ok dk ->
  generate_sas_token uri key policy_name expiry w =
    (Ok (token_text uri (signature_text uri dk ttl) ttl policy_name), w).
Proof.
  unfold expiry_epoch. intros Ht H.
  destruct (Float.of_int expiry) as [x|o] eqn:Ex; cbn [rbind] in Ht;
    [|discriminate].
  unfold generate_sas_token, bind, Sys.time_time, get, try_except, lift.
  rewrite Ex, Ht, H. unfold token_text, signature_text, skn_suffix.
  destruct policy_name as [[|c p]|]; cbv [truthy str_of_option ret];
    rewrite ?append_empty_r; reflexivity.
Qed.

Lemma generate_sas_token_undecodable (uri key : string)
  (policy_name : option string) (expiry : Z) (w : world) (e : exn) (ttl : Z) :
  expiry_epoch (now w) expiry = Ok ttl ->
  Base64.b64decode key = Raise e ->
  is_Exception e = true ->
  fst (generate_sas_token uri key policy_name expiry w) = Raise (SystemExit 1) /\
  history (snd (generate_sas_token uri key policy_name expiry w))
  = (history w ++ [Print ("✗ Error decoding key: " ++ str_of_exn e)])%list.
Proof.
  unfold expiry_epoch. intros Ht H He.
  destruct (Float.of_int expiry) as [x|o] eqn:Ex; cbn [rbind] in Ht;
    [|discriminate].
  unfold generate_sas_token, bind, Sys.time_time, get, try_except, lift.
  rewrite Ex, Ht, H, He. split; reflexivity.
Qed.

(** The expiry the script passes is within every range. *)
Lemma expiry_epoch_3600 (t : Q) : exists ttl, expiry_epoch t 3600 = Ok ttl.
Proof.
  eexists. apply expiry_epoch_small. reflexivity.
Qed.

(** [b64decode] raises nothing but exceptions an [except Exception] catches. *)
Lemma a2b_loop_raises_Exception (data : list byte) :
  forall quad_pos leftchar pads out e,
    Base64.a2b_loop data quad_pos leftchar pads out = Raise e ->
    is_Exception e = true.
Proof.
  induction data as [|c rest IH]; intros qp lc pads out e; simpl.
  - destruct (qp =? 0); [discriminate|].
    destruct (qp =? 1); intros H; inversion H; reflexivity.
  - repeat match goal with
           | |- context [if ?b then _ else _] => destruct b
           | |- context [match Base64.table_a2b c with _ => _ end] =>
               destruct (Base64.table_a2b c)
           end; try discriminate; apply IH.
Qed.

Lemma b64decode_raises_Exception (key : string) (e : exn) :
  Base64.b64decode key = Raise e -> is_Exception e = true.
Proof.
  unfold Base64.b64decode, Base64.a2b_base64.
  destruct (Base64.is_ascii key).
  - apply a2b_loop_raises_Exception.
  - intros H. inversion H. reflexivity.
Qed.



(** The float sum at a clock reading where it is rounded: at the float next
    below 2147480648 the sum with 3600 lies half way between two floats and
    is rounded up, to a whole number. *)
Lemma expiry_epoch_rounds_up :
  expiry_epoch (2147480648 - Float.pow2 (-22)) 3600 = Ok 2147484248 /\
  int_of_float (2147480648 - Float.pow2 (-22) + 3600) = 2147484247.
Proof. split; vm_compute; reflexivity. Qed.

(** C5, as amended: for a key that decodes and an expiry for which
    [int(time.time() + expiry)] is computed, [generate_sas_token] returns
    exactly "SharedAccessSignature sr=<uri>&sig=<sig>&se=<ttl>" followed by
    "&skn=<policy_name>" if and only if a non-empty policy name is given,
    where [ttl] is that integer and [sig] is the URL-encoded Base64 text of
    HMAC-SHA256 over the UTF-8 bytes of "{uri}\n{ttl}" under the decoded
    key; it prints nothing and leaves the world as it was.  The integer is
    computed for every expiry of fewer than 54 bits; where the sum cannot be
    computed, the exception of the sum leaves the function before the key
    is looked at. *)
Theorem generate_sas_token_format
  (uri key : string) (policy_name : option string) (expiry : Z) (w : world)
  (decoded_key : list byte) :
  Base64.b64decode key = Ok decoded_key ->
  (forall ttl : Z,
      expiry_epoch (now w) expiry = Ok ttl ->
      let sig :=
        Url.quote_plus
          (decode_ascii
             (Base64.b64encode
                (Sha256.hmac_sha256 decoded_key
                   (encode_utf8 (uri ++ LF ++ str_of_int ttl))))) in
      let base :=
        "SharedAccessSignature sr=" ++ uri ++ "&sig=" ++ sig
        ++ "&se=" ++ str_of_int ttl in
      generate_sas_token uri key policy_name expiry w =
        (Ok match policy_name with
            | Some (String c p) => base ++ "&skn=" ++ String c p
            | Some EmptyString | None => base
            end, w)) /\
  (Z.abs expiry < 2 ^ 53 ->
   exists ttl, expiry_epoch (now w) expiry = Ok ttl) /\
  (forall e : exn,
      expiry_epoch (now w) expiry = Raise e ->
      generate_sas_token uri key policy_name expiry w = (Raise e, w)
      /\ exists msg, e = OverflowError msg).
Proof.
  intros Hk. split; [|split].
  - intros ttl Ht sig base.
    rewrite (generate_sas_token_decoded _ _ _ _ _ decoded_key ttl Ht Hk).
    unfold token_text, signature_text, skn_suffix.
    fold sig. subst base.
    destruct policy_name as [[|c p]|];
      rewrite ?append_assoc, ?append_empty_r; reflexivity.
  - intros He. eexists. now apply expiry_epoch_small.
  - intros e He. split; [now apply generate_sas_token_overflow|].
    unfold expiry_epoch, Float.of_int, Float.to_int in He.
    destruct (Float.round (inject_Z expiry)); cbn [rbind] in He.
    + destruct (Float.add (Float.of_clock (now w)) q); [discriminate|].
      injection He as <-. eauto.
    + injection He as <-. eauto.
Qed.

Lemma generate_sas_token_format_witness :
  generate_sas_token "myhub.azure-devices.net" "c2VjcmV0" (Some "iothubowner")
    3600 quiet_world
  = (Ok "SharedAccessSignature sr=myhub.azure-devices.net&sig=aZKYCJChXcEDYqovKl5J1Al6568IXWaxNjJ7Tyo7Q4c%3D&se=1700003600&skn=iothubowner",
     quiet_world).
Proof.
  assert (Hk : Base64.b64decode "c2VjcmV0" = Ok (list_byte_of_string "secret"))
    by (vm_compute; reflexivity).
  assert (Ht : expiry_epoch (now quiet_world) 3600 = Ok 1700003600)
    by (vm_compute; reflexivity).
  rewrite (proj1 (generate_sas_token_format "myhub.azure-devices.net"
                    "c2VjcmV0" (Some "iothubowner") 3600 quiet_world _ Hk)
             1700003600 Ht).
  vm_compute. reflexivity.
Defined.

(** C5, as it is stated, fails for an expiry beyond the range of a float:
    the key decodes, and no token is returned. *)
Lemma sas_token_expiry_beyond_float_range :
  Base64.b64decode "c2VjcmV0" = Ok (list_byte_of_string "secret") /\
  generate_sas_token "myhub.azure-devices.net" "c2VjcmV0" (Some "iothubowner")
    (2 ^ 1024) quiet_world
  = (Raise (OverflowError "int too large to convert to float"), quiet_world).
Proof. split; vm_compute; reflexivity. Qed.

Lemma b64encode_first_char (x : byte) :
  Base64.table_b2a (Z.shiftr (to_Z x) 2) <> "!"%byte.
Proof. destruct x; vm_compute; discriminate. Qed.

Lemma bangs_not_base64 : ~ valid_base64 "!!!!".
Proof.
  intros [b Hb]. unfold decode_ascii in Hb.
  destruct b as [|x [|y [|z rest]]]; simpl in Hb; try discriminate;
    injection Hb as Hc _;
    apply (b64encode_first_char x);
    apply (f_equal byte_of_ascii) in Hc;
    rewrite byte_of_ascii_of_byte in Hc; exact Hc.
Qed.

Lemma b64encode_fourth_char (z : byte) :
  Base64.table_b2a (Z.land (to_Z z) 63) <> "="%byte.
Proof. destruct z; vm_compute; discriminate. Qed.

Lemma padded_middle_not_base64 : ~ valid_base64 "c2U=cmV0".
Proof.
  intros [b Hb]. unfold decode_ascii in Hb.
  destruct b as [|x [|y [|z rest]]].
  - discriminate.
  - apply (f_equal String.length) in Hb. discriminate.
  - apply (f_equal String.length) in Hb. discriminate.
  - cbn [Base64.b64encode string_of_list_byte] in Hb.
    injection Hb as _ _ _ H4 _.
    apply (b64encode_fourth_char z).
    apply (f_equal byte_of_ascii) in H4.
    rewrite byte_of_ascii_of_byte in H4. exact H4.
Qed.

(** C6, at its failing inputs: the key "!!!!" holds no Base64 character, yet
    it decodes, to the empty key, and a token signed with the empty key is
    returned, with nothing printed; and the key "c2U=cmV0", padded in the
    middle, decodes to the two bytes before the padding, and the token
    returned is the one of the key "c2U=". *)
Theorem sas_token_from_invalid_key :
  ~ valid_base64 "!!!!" /\
  Base64.b64decode "!!!!" = Ok [] /\
  generate_sas_token "myhub.azure-devices.net" "!!!!" (Some "iothubowner")
    3600 quiet_world
  = (Ok "SharedAccessSignature sr=myhub.azure-devices.net&sig=OqGQnkMAkr5Kwo9DMPVxqqj%2BMq4sHt6wYEOuCMA32Ow%3D&se=1700003600&skn=iothubowner",
     quiet_world) /\
  ~ valid_base64 "c2U=cmV0" /\
  Base64.b64decode "c2U=cmV0" = Ok (list_byte_of_string "se") /\
  generate_sas_token "myhub.azure-devices.net" "c2U=cmV0" (Some "iothubowner")
    3600 quiet_world
  = generate_sas_token "myhub.azure-devices.net" "c2U=" (Some "iothubowner")
      3600 quiet_world /\
  fst (generate_sas_token "myhub.azure-devices.net" "c2U=cmV0"
         (Some "iothubowner") 3600 quiet_world)
  = Ok "SharedAccessSignature sr=myhub.azure-devices.net&sig=eglFpG%2F7ullkJbwPJsa4%2BOvRgzCs%2FvwF5K5Ld6p59dc%3D&se=1700003600&skn=iothubowner".
Proof.
  split; [exact bangs_not_base64|].
  split; [vm_compute; reflexivity|].
  split; [vm_compute; reflexivity|].
  split; [exact padded_middle_not_base64|].
  repeat split; vm_compute; reflexivity.
Qed.

(** X4: whenever decoding the key does raise, [generate_sas_token] prints
    the error and exits with status 1, and returns no token.  That is so
    whenever the line before, [int(time.time() + expiry)], has computed the
    expiry epoch, as it does for every expiry of fewer than 54 bits; where
    it raises, its exception leaves the function and nothing is printed. *)
Lemma sas_token_fails_fast_when_decoding_raises (uri key : string)
  (policy_name : option string) (expiry : Z) (w : world) (e : exn) :
  Base64.b64decode key = Raise e ->
  match expiry_epoch (now w) expiry with
  | Ok _ =>
      fst (generate_sas_token uri key policy_name expiry w)
      = Raise (SystemExit 1) /\
      history (snd (generate_sas_token uri key policy_name expiry w))
      = (history w ++ [Print ("✗ Error decoding key: " ++ str_of_exn e)])%list
  | Raise o =>
      generate_sas_token uri key policy_name expiry w = (Raise o, w)
  end /\
  (Z.abs expiry < 2 ^ 53 -> exists ttl, expiry_epoch (now w) expiry = Ok ttl).
Proof.
  intros H. split.
  - destruct (expiry_epoch (now w) expiry) as [ttl|o] eqn:Ht.
    + apply (generate_sas_token_undecodable _ _ _ _ _ _ ttl Ht H).
      exact (b64decode_raises_Exception key e H).
    + now apply generate_sas_token_overflow.
  - intros He. eexists. now apply expiry_epoch_small.
Qed.

End Token.

(** ** Frame reasoning for the monad

    A relation between the world before and the world after that is reflexive
    and transitive is kept by a whole computation as soon as each primitive
    step keeps it. *)

Section Frame.

Variable P : world -> world -> Prop.
Hypothesis P_refl : forall w, P w w.
Hypothesis P_trans : forall a b c, P a b -> P b c -> P a c.

Lemma keeps_ret {A} (a : A) : keeps P (ret a).
Proof. intros w. apply P_refl. Qed.

Lemma keeps_raise {A} (e : exn) : keeps P (@raise A e).
Proof. intros w. apply P_refl. Qed.

Lemma keeps_lift {A} (r : result A) : keeps P (lift r).
Proof. intros w. apply P_refl. Qed.

Lemma keeps_get {A} (f : world -> A) : keeps P (get f).
Proof. intros w. apply P_refl. Qed.

Lemma keeps_bind {A B} (m : M A) (k : A -> M B) :
  keeps P m -> (forall a, keeps P (k a)) -> keeps P (bind m k).
Proof.
  intros Hm Hk w. unfold bind.
  specialize (Hm w). destruct (m w) as [[a|e] w1]; simpl in *.
  - eapply P_trans; [exact Hm | apply Hk].
  - exact Hm.
Qed.

Lemma keeps_try_except {A} (body : M A) (handler : exn -> option (M A)) :
  keeps P body -> (forall e h, handler e = Some h -> keeps P h) ->
  keeps P (try_except body handler).
Proof.
  intros Hb Hh w. unfold try_except.
  specialize (Hb w). destruct (body w) as [[a|e] w1]; simpl in *.
  - exact Hb.
  - destruct (handler e) as [h|] eqn:E; simpl.
    + eapply P_trans; [exact Hb | exact (Hh e h E w1)].
    + exact Hb.
Qed.

Lemma keeps_while (fuel : nat) (cond : M bool) (body : M unit) :
  keeps P cond -> keeps P body -> keeps P (Sys.while_ fuel cond body).
Proof.
  intros Hc Hb. induction fuel as [|fuel IH]; simpl.
  - apply keeps_raise.
  - apply keeps_bind; [exact Hc|]. intros [|].
    + apply keeps_bind; [exact Hb | intros _; exact IH].
    + apply keeps_ret.
Qed.

Lemma keeps_fold {A} (l : list A) (f : M unit -> A -> M unit) (m0 : M unit) :
  keeps P m0 -> (forall m a, keeps P m -> keeps P (f m a)) -> keeps P (fold_left f l m0).
Proof.
  intros H0 Hf. revert m0 H0.
  induction l as [|a l IH]; simpl; intros m0 H0; [exact H0|].
  apply IH, Hf, H0.
Qed.

Hypothesis P_thread_ends : forall w, P w (set_loop_running false w).

(** The events of a tick, handled by callbacks that keep the relation. *)
Lemma keeps_deliver (handler : net_event -> M unit) (evs : list net_event) :
  (forall ev, keeps P (handler ev)) ->
  forall w, P w (Client.deliver handler evs w).
Proof.
  intros Hh. induction evs as [|ev evs IH]; intros w; simpl.
  - apply P_refl.
  - destruct (loop_running w); [|apply P_refl].
    specialize (Hh ev w). destruct (handler ev w) as [[u|e] w1]; simpl in *.
    + eapply P_trans; [exact Hh | apply IH].
    + eapply P_trans; [exact Hh | apply P_thread_ends].
Qed.

End Frame.

(** The recurring steps of a frame proof: split a computation along its
    binds and branches, and leave the primitive steps to [leaf]. *)
Ltac frame_with refl trans leaf :=
  repeat first
    [ leaf
    | apply (keeps_ret _ refl)
    | apply (keeps_raise _ refl)
    | apply (keeps_lift _ refl)
    | apply (keeps_get _ refl)
    | apply (keeps_bind _ trans); [ | intros ? ]
    | apply (keeps_while _ refl trans)
    | match goal with
      | |- keeps _ (if ?b then _ else _) => destruct b
      | |- keeps _ (match ?x with _ => _ end) => destruct x
      end ].

(** *** The clock is touched by [time.sleep] alone *)

Lemma same_clock_refl (w : world) : same_clock w w.
Proof. reflexivity. Qed.

Lemma same_clock_trans (a b c : world) :
  same_clock a b -> same_clock b c -> same_clock a c.
Proof. unfold same_clock. congruence. Qed.

Lemma clock_disconnect : keeps same_clock Client.disconnect.
Proof. intros w. reflexivity. Qed.

Lemma clock_publish (topic payload : string) (qos : Z) :
  keeps same_clock (Client.publish topic payload qos).
Proof.
  intros w. unfold Client.publish, Client.publish_result, bind, log, modify.
  simpl. destruct (publish_results w); reflexivity.
Qed.

Ltac clock_leaf :=
  first
    [ apply clock_disconnect
    | apply clock_publish
    | solve [ intros w; unfold same_clock, Sys.print, Sys.sys_exit, log, modify,
                raise, Client.subscribe, Client.unsubscribe; reflexivity ] ].

Ltac clock := frame_with same_clock_refl same_clock_trans clock_leaf.

Section CallbacksKeepClock.

Variable environ : string -> option string.
Variable json_dumps : list (string * string) -> string.
Variable decode_replace : list byte -> string.

Lemma clock_dispatch (scenario : Scenario.scenario) (ev : net_event) :
  keeps same_clock (CredentialTest.dispatch environ json_dumps decode_replace scenario ev).
Proof.
  destruct ev; unfold CredentialTest.dispatch, CredentialTest.on_connect,
    CredentialTest.on_subscribe, CredentialTest.on_publish,
    CredentialTest.on_message, CredentialTest.on_disconnect;
    clock.
Qed.

Lemma clock_dispatch_issue (ud : IssueCert.userdata) (ev : net_event) :
  keeps same_clock (IssueCert.dispatch decode_replace ud ev).
Proof.
  destruct ev; unfold IssueCert.dispatch, IssueCert.on_connect,
    IssueCert.on_subscribe, IssueCert.on_publish,
    IssueCert.on_message, IssueCert.on_disconnect;
    clock.
Qed.

End CallbacksKeepClock.

(** *** The waiting loops end by themselves *)

Section Waiting.

Variable handler : net_event -> M unit.
Hypothesis handler_clock : forall ev, keeps same_clock (handler ev).

Lemma sleep_clock (d : Q) (w : world) :
  (now (snd (Client.sleep handler d w)) == now w + d)%Q.
Proof.
  unfold Client.sleep, Client.tick_step, bind, log, modify.
  cbn [fst snd ticks set_now set_trace now].
  destruct (ticks w) as [|t rest] eqn:E; cbn [fst snd now set_now].
  - apply Qred_correct.
  - match goal with
    | |- context [Client.deliver handler ?evs ?w0] =>
        pose proof (keeps_deliver same_clock same_clock_refl same_clock_trans
                      (fun w => eq_refl) handler evs handler_clock w0) as H
    end.
    unfold same_clock in H.
    destruct (interrupt t); cbn [fst snd]; rewrite H;
      cbn [now set_ticks set_now]; apply Qred_correct.
Qed.

Variable guard : world -> bool.
Variable start_time timeout poll : Q.
Hypothesis poll_positive : (0 < poll)%Q.

Lemma waiting_loop_step (n : nat) (w : world) :
  waiting_loop handler guard start_time timeout poll (S n) w =
    if guard w && Qltb (now w - start_time) timeout then
      match Client.sleep handler poll w with
      | (Ok _, w1) => waiting_loop handler guard start_time timeout poll n w1
      | (Raise e, w1) => (Raise e, w1)
      end
    else (Ok tt, w).
Proof.
  unfold waiting_loop. cbn [Sys.while_].
  cbv beta iota delta [bind get Sys.time_time ret].
  destruct (guard w); [destruct (Qltb (now w - start_time) timeout)|];
    reflexivity.
Qed.

Lemma sleep_raises (d : Q) (w : world) (e : exn) (w1 : world) :
  Client.sleep handler d w = (Raise e, w1) -> e = KeyboardInterrupt.
Proof.
  unfold Client.sleep, Client.tick_step, bind, log, modify.
  cbn [fst snd ticks set_now set_trace].
  destruct (ticks w) as [|t rest]; [discriminate|].
  destruct (interrupt t); intros H; inversion H; reflexivity.
Qed.

Lemma waiting_loop_fuel (n : nat) :
  forall w,
    (timeout - (now w - start_time) <= inject_Z (Z.of_nat n) * poll)%Q ->
    fst (waiting_loop handler guard start_time timeout poll (S n) w) <> Raise OutOfFuel.
Proof.
  induction n as [|n IH]; intros w Hw; rewrite waiting_loop_step.
  - assert (E : Qltb (now w - start_time) timeout = false).
    { unfold Qltb. apply negb_false_iff, Qle_bool_iff.
      change (inject_Z (Z.of_nat 0)) with 0%Q in Hw. lra. }
    rewrite E, andb_false_r. discriminate.
  - destruct (guard w && Qltb (now w - start_time) timeout); [|discriminate].
    pose proof (sleep_clock poll w) as Hs.
    destruct (Client.sleep handler poll w) as [[u|e] w1] eqn:Es;
      cbn [snd] in Hs.
    + apply IH. rewrite Hs.
      rewrite Nat2Z.inj_succ in Hw. unfold Z.succ in Hw.
      rewrite inject_Z_plus in Hw.
      assert (Hd : ((inject_Z (Z.of_nat n) + inject_Z 1) * poll
                    == inject_Z (Z.of_nat n) * poll + poll)%Q) by ring.
      rewrite Hd in Hw.
      set (x := (inject_Z (Z.of_nat n) * poll)%Q) in *. lra.
    + rewrite (sleep_raises _ _ _ _ Es). discriminate.
Qed.

(** A waiting loop raises nothing but the interrupt of a sleep, unless it is
    cut short. *)
Lemma waiting_loop_raises (n : nat) :
  forall w e,
    fst (waiting_loop handler guard start_time timeout poll n w) = Raise e ->
    e = KeyboardInterrupt \/ e = OutOfFuel.
Proof.
  induction n as [|n IH]; intros w e.
  - simpl. intros H. inversion H. now right.
  - rewrite waiting_loop_step.
    destruct (guard w && Qltb (now w - start_time) timeout); [|discriminate].
    destruct (Client.sleep handler poll w) as [[u|e'] w1] eqn:Es.
    + apply IH.
    + simpl. intros H. inversion H. subst e'. left.
      exact (sleep_raises _ _ _ _ Es).
Qed.

Lemma rounds_enough (w : world) :
  (start_time <= now w)%Q ->
  (timeout - (now w - start_time)
   <= inject_Z (Z.of_nat (Z.to_nat (Qceiling (timeout / poll)))) * poll)%Q.
Proof.
  intros Hs.
  assert (H1 : (timeout / poll <= inject_Z (Qceiling (timeout / poll)))%Q)
    by apply Qle_ceiling.
  assert (H2 : (inject_Z (Qceiling (timeout / poll))
                <= inject_Z (Z.of_nat (Z.to_nat (Qceiling (timeout / poll)))))%Q).
  { rewrite <- Zle_Qle. lia. }
  assert (H3 : (timeout / poll * poll == timeout)%Q).
  { field. intros E. rewrite E in poll_positive. now apply Qlt_irrefl in poll_positive. }
  assert (H4 : (timeout / poll * poll
                <= inject_Z (Z.of_nat (Z.to_nat (Qceiling (timeout / poll)))) * poll)%Q).
  { apply Qmult_le_compat_r; [|now apply Qlt_le_weak]. lra. }
  lra.
Qed.

(** With the fuel [rounds] gives, a loop entered no earlier than its
    [start_time] is never cut short. *)
Lemma waiting_loop_terminates (w : world) :
  (start_time <= now w)%Q ->
  fst (waiting_loop handler guard start_time timeout poll (Sys.rounds timeout poll) w) <> Raise OutOfFuel.
Proof.
  intros Hs. unfold Sys.rounds. apply waiting_loop_fuel, rounds_enough, Hs.
Qed.

End Waiting.

Section WaitingLoops.

Variable environ : string -> option string.
Variable json_dumps : list (string * string) -> string.
Variable decode_replace : list byte -> string.

Lemma wait_for_disconnect_terminates (scenario : Scenario.scenario)
  (start_time : Q) (w : world) :
  (start_time <= now w)%Q ->
  fst (CredentialTest.wait_for_disconnect environ json_dumps decode_replace
         scenario start_time w) <> Raise OutOfFuel.
Proof.
  intros H.
  apply (waiting_loop_terminates
           (CredentialTest.dispatch environ json_dumps decode_replace scenario)
           (clock_dispatch environ json_dumps decode_replace scenario)
           connected start_time CredentialTest.timeout CredentialTest.poll);
    [reflexivity | exact H].
Qed.

Lemma wait_for_response_terminates (scenario : Scenario.scenario)
  (start_time : Q) (w : world) :
  (start_time <= now w)%Q ->
  fst (CredentialTest.wait_for_response environ json_dumps decode_replace
         scenario start_time w) <> Raise OutOfFuel.
Proof.
  intros H.
  apply (waiting_loop_terminates
           (CredentialTest.dispatch environ json_dumps decode_replace scenario)
           (clock_dispatch environ json_dumps decode_replace scenario)
           (fun w => negb (response_received w))
           start_time CredentialTest.timeout CredentialTest.poll);
    [reflexivity | exact H].
Qed.

Lemma issue_cert_wait_terminates (ud : IssueCert.userdata) (timeout : Z)
  (start_time : Q) (w : world) :
  (start_time <= now w)%Q ->
  fst (IssueCert.wait_for_response decode_replace ud timeout start_time w)
  <> Raise OutOfFuel.
Proof.
  intros H.
  apply (waiting_loop_terminates
           (IssueCert.dispatch decode_replace ud)
           (clock_dispatch_issue decode_replace ud)
           (fun w => negb (response_received w))
           start_time (inject_Z timeout) IssueCert.poll);
    [reflexivity | exact H].
Qed.

End WaitingLoops.

(** ** The log of a run *)

Lemma first_connect_flag_app (l1 l2 : list entry) :
  first_connect_flag (l1 ++ l2) =
    match first_connect_flag l1 with
    | Some b => Some b
    | None => first_connect_flag l2
    end.
Proof.
  induction l1 as [|e l1 IH]; simpl; [reflexivity|].
  destruct (is_connect (eff e)); [reflexivity | exact IH].
Qed.

(** *** The log only grows *)

Lemma grows_refl (w : world) : grows w w.
Proof. now exists []. Qed.

Lemma grows_trans (a b c : world) : grows a b -> grows b c -> grows a c.
Proof.
  intros [l1 H1] [l2 H2]. exists (l2 ++ l1)%list.
  now rewrite H2, H1, app_assoc.
Qed.

Lemma grows_thread_ends (w : world) : grows w (set_loop_running false w).
Proof. now exists []. Qed.

Lemma grows_log (e : effect) : keeps grows (log e).
Proof. intros w. now eexists [_]. Qed.

Lemma grows_modify (f : world -> world) :
  (forall w, trace (f w) = trace w) -> keeps grows (modify f).
Proof. intros H w. exists []. apply H. Qed.

Lemma grows_randint (a b : Z) : keeps grows (Sys.randint a b).
Proof. intros w. unfold Sys.randint. destruct (entropy w); now exists []. Qed.

Lemma grows_handshake : keeps grows Client.handshake.
Proof.
  intros w. unfold Client.handshake.
  destruct (connect_results w) as [|[]]; now exists [].
Qed.

Lemma grows_publish_result : keeps grows Client.publish_result.
Proof.
  intros w. unfold Client.publish_result.
  destruct (publish_results w); now exists [].
Qed.

Lemma grows_tick_step (handler : net_event -> M unit) :
  (forall ev, keeps grows (handler ev)) -> keeps grows (Client.tick_step handler).
Proof.
  intros H w. unfold Client.tick_step.
  destruct (ticks w) as [|t rest]; [now exists []|].
  assert (G : grows w (Client.deliver handler (arrivals t) (set_ticks rest w))).
  { apply (grows_trans _ (set_ticks rest w)); [now exists []|].
    apply (keeps_deliver grows grows_refl grows_trans grows_thread_ends), H. }
  destruct (interrupt t); exact G.
Qed.

Ltac grows_leaf :=
  first
    [ apply grows_log
    | apply grows_modify; solve [intros ?; reflexivity]
    | apply grows_randint
    | apply grows_handshake
    | apply grows_publish_result ].

Ltac grow := frame_with grows_refl grows_trans grows_leaf.

Section ScriptGrows.

Variable environ : string -> option string.
Variable json_dumps : list (string * string) -> string.
Variable decode_replace : list byte -> string.

Lemma grows_dispatch (scenario : Scenario.scenario) (ev : net_event) :
  keeps grows
    (CredentialTest.dispatch environ json_dumps decode_replace scenario ev).
Proof.
  destruct ev; unfold CredentialTest.dispatch, CredentialTest.on_connect,
    CredentialTest.on_subscribe, CredentialTest.on_publish,
    CredentialTest.on_message, CredentialTest.on_disconnect,
    Client.publish, Client.disconnect, Client.subscribe, Client.unsubscribe,
    Sys.print, Sys.sys_exit;
    grow.
Qed.

Lemma grows_sleep (scenario : Scenario.scenario) (d : Q) :
  keeps grows
    (Client.sleep
       (CredentialTest.dispatch environ json_dumps decode_replace scenario) d).
Proof.
  unfold Client.sleep. grow.
  apply grows_tick_step, grows_dispatch.
Qed.

Lemma grows_run_connected (scenario : Scenario.scenario) :
  keeps grows
    (CredentialTest.run_connected environ json_dumps decode_replace scenario).
Proof.
  unfold CredentialTest.run_connected, CredentialTest.wait_for_disconnect,
    CredentialTest.wait_for_response, Client.loop_start, Client.loop_stop,
    Client.connect, Client.disconnect, Client.is_connected, Sys.time_time,
    Sys.print.
  frame_with grows_refl grows_trans ltac:(first [apply grows_sleep | grows_leaf]).
Qed.

Lemma grows_run_handler (e : exn) (h : M unit) :
  CredentialTest.run_handler e = Some h -> keeps grows h.
Proof.
  unfold CredentialTest.run_handler, Client.disconnect, Client.loop_stop,
    Sys.print, Sys.sys_exit.
  destruct e; simpl; intros H; inversion H; subst; grow.
Qed.

End ScriptGrows.

(** *** Before the first [connect] *)

Lemma calm_refl (w : world) : calm w w.
Proof. intros H. split; [exact H|]. now exists []. Qed.

Lemma calm_trans (a b c : world) : calm a b -> calm b c -> calm a c.
Proof.
  intros Hab Hbc Ha.
  destruct (Hab Ha) as [Hb [l1 [E1 F1]]].
  destruct (Hbc Hb) as [Hc [l2 [E2 F2]]].
  split; [exact Hc|].
  exists (l2 ++ l1)%list. split.
  - now rewrite E2, E1, app_assoc.
  - now rewrite rev_app_distr, first_connect_flag_app, F1.
Qed.

Lemma calm_log (e : effect) : is_connect e = false -> keeps calm (log e).
Proof.
  intros He w Hw. split; [exact Hw|].
  eexists [_]. split; [reflexivity|]. simpl. now rewrite He.
Qed.

Lemma calm_modify (f : world -> world) :
  (forall w, trace (f w) = trace w) ->
  (forall w, response_received (f w) = response_received w) ->
  keeps calm (modify f).
Proof.
  intros Ht Hr w Hw. simpl. split; [now rewrite Hr|].
  exists []. split; [apply Ht | reflexivity].
Qed.

Lemma calm_randint (a b : Z) : keeps calm (Sys.randint a b).
Proof.
  intros w Hw. unfold Sys.randint.
  destruct (entropy w); (split; [exact Hw | now exists []]).
Qed.

Ltac calm_leaf :=
  first
    [ apply calm_log; reflexivity
    | apply calm_modify; solve [intros ?; reflexivity]
    | apply calm_randint ].

Ltac calming := frame_with calm_refl calm_trans calm_leaf.

Lemma total_ret {A} (a : A) : total (ret a).
Proof. intros w. now exists a. Qed.

Lemma total_bind {A B} (m : M A) (k : A -> M B) :
  total m -> (forall a, total (k a)) -> total (bind m k).
Proof.
  intros Hm Hk w. unfold bind.
  destruct (Hm w) as [a Ha]. destruct (m w) as [r w1]. simpl in Ha. subst r.
  apply Hk.
Qed.

Lemma total_log (e : effect) : total (log e).
Proof. intros w. now exists tt. Qed.

Lemma total_randint (a b : Z) : total (Sys.randint a b).
Proof. intros w. unfold Sys.randint. destruct (entropy w); simpl; eauto. Qed.

Lemma total_modify (f : world -> world) : total (modify f).
Proof. intros w. now exists tt. Qed.

Lemma total_get {A} (f : world -> A) : total (get f).
Proof. intros w. now exists (f w). Qed.

Ltac totality :=
  repeat first
    [ apply total_ret
    | apply total_log
    | apply total_modify
    | apply total_get
    | apply total_randint
    | apply total_bind; [ | intros ? ]
    | match goal with
      | |- total (if ?b then _ else _) => destruct b
      | |- total (match ?x with _ => _ end) => destruct x
      end ].

Lemma sure_safe {A} (m : M A) : sure m -> safe m.
Proof.
  intros H w Hw. destruct (H w Hw) as [l [E F]].
  exists l. split; [exact E|]. rewrite F. discriminate.
Qed.

Lemma safe_bind {A B} (m : M A) (k : A -> M B) :
  keeps calm m -> (forall a, safe (k a)) -> safe (bind m k).
Proof.
  intros Hm Hk w Hw. unfold bind.
  destruct (Hm w Hw) as [H1 [l1 [E1 F1]]].
  destruct (m w) as [[a|e] w1]; simpl in *.
  - destruct (Hk a w1 H1) as [l2 [E2 F2]].
    exists (l2 ++ l1)%list. split.
    + now rewrite E2, E1, app_assoc.
    + now rewrite rev_app_distr, first_connect_flag_app, F1.
  - exists l1. split; [exact E1|]. rewrite F1. discriminate.
Qed.

Lemma sure_bind {A B} (m : M A) (k : A -> M B) :
  keeps calm m -> total m -> (forall a, sure (k a)) -> sure (bind m k).
Proof.
  intros Hm Tm Hk w Hw. unfold bind.
  destruct (Hm w Hw) as [H1 [l1 [E1 F1]]].
  destruct (Tm w) as [a Ha].
  destruct (m w) as [r w1]; simpl in *. subst r.
  destruct (Hk a w1 H1) as [l2 [E2 F2]].
  exists (l2 ++ l1)%list. split.
  - now rewrite E2, E1, app_assoc.
  - now rewrite rev_app_distr, first_connect_flag_app, F1.
Qed.

(** A [try] whose body starts by printing and connecting does connect, with
    the flag as it was. *)
Lemma sure_connect_first (line host : string) (port keepalive : Z)
  (rest : M unit) (handler : exn -> option (M unit)) :
  keeps grows rest ->
  (forall e h, handler e = Some h -> keeps grows h) ->
  sure (try_except
          (Sys.print line ;; Client.connect host port keepalive ;; rest)
          handler).
Proof.
  intros Hrest Hh w Hw.
  set (w1 := set_trace ({| eff := Print line; flag_at := response_received w |}
                          :: trace w) w).
  set (w2 := set_trace ({| eff := Connect host port keepalive;
                           flag_at := response_received w1 |} :: trace w1) w1).
  change (try_except
            (Sys.print line ;; Client.connect host port keepalive ;; rest)
            handler w)
    with (try_except (Client.handshake ;; rest) handler w2).
  assert (G : keeps grows (try_except (Client.handshake ;; rest) handler)).
  { apply (keeps_try_except grows grows_trans); [|exact Hh].
    apply (keeps_bind grows grows_trans); [apply grows_handshake|].
    intros _. exact Hrest. }
  destruct (G w2) as [l El].
  exists (l ++ [ {| eff := Connect host port keepalive;
                    flag_at := response_received w1 |};
                 {| eff := Print line; flag_at := response_received w |} ])%list.
  split.
  - rewrite El. subst w2 w1. simpl. now rewrite <- app_assoc.
  - rewrite rev_app_distr. simpl. subst w1. simpl. now rewrite Hw.
Qed.

Section FlagReset.

Variable environ : string -> option string.
Variable json_dumps : list (string * string) -> string.
Variable decode_replace : list byte -> string.

Lemma calm_instantiate (c : Scenario.scenario_class) :
  keeps calm (CredentialTest.instantiate environ c).
Proof.
  destruct c; unfold CredentialTest.instantiate,
    CredentialTest.HappyPathScenario_init,
    CredentialTest.DisconnectReconnectScenario_init,
    CredentialTest.MQTTTestScenario_init; calming.
Qed.

Lemma total_instantiate (c : Scenario.scenario_class) :
  total (CredentialTest.instantiate environ c).
Proof.
  destruct c; unfold CredentialTest.instantiate,
    CredentialTest.HappyPathScenario_init,
    CredentialTest.DisconnectReconnectScenario_init,
    CredentialTest.MQTTTestScenario_init; totality.
Qed.

Lemma calm_setup_certificate_auth :
  keeps calm (CredentialTest.setup_certificate_auth environ).
Proof. unfold CredentialTest.setup_certificate_auth, Sys.print. calming. Qed.

Lemma total_setup_certificate_auth :
  total (CredentialTest.setup_certificate_auth environ).
Proof. unfold CredentialTest.setup_certificate_auth, Sys.print. totality. Qed.

Lemma calm_generate_sas_token (uri key : string) (policy_name : option string)
  (expiry : Z) :
  keeps calm (CredentialTest.generate_sas_token uri key policy_name expiry).
Proof.
  unfold CredentialTest.generate_sas_token, Sys.time_time.
  apply (keeps_bind calm calm_trans); [apply (keeps_get calm calm_refl)|].
  intros t.
  apply (keeps_bind calm calm_trans); [apply (keeps_lift calm calm_refl)|].
  intros seconds.
  apply (keeps_bind calm calm_trans); [apply (keeps_lift calm calm_refl)|].
  intros ttl.
  apply (keeps_bind calm calm_trans).
  - apply (keeps_try_except calm calm_trans); [apply (keeps_lift calm calm_refl)|].
    intros e h. destruct (is_Exception e); [|discriminate].
    intros H. inversion H. unfold Sys.print, Sys.sys_exit. calming.
  - intros dk. destruct (truthy policy_name); apply (keeps_ret calm calm_refl).
Qed.

Lemma calm_setup_sas_auth : keeps calm (CredentialTest.setup_sas_auth environ).
Proof.
  unfold CredentialTest.setup_sas_auth, Sys.print.
  frame_with calm_refl calm_trans
    ltac:(first [apply calm_generate_sas_token | calm_leaf]).
Qed.

Lemma sure_try_run_body (scenario : Scenario.scenario) :
  sure (try_except
          (CredentialTest.run_body environ json_dumps decode_replace scenario)
          CredentialTest.run_handler).
Proof.
  unfold CredentialTest.run_body.
  apply sure_connect_first.
  - apply grows_run_connected.
  - apply grows_run_handler.
Qed.

Lemma sure_run_with_certificate (c : Scenario.scenario_class) :
  sure (scenario <- CredentialTest.instantiate environ c ;;
        Sys.print (LF ++ str_mul "=" 70) ;;
        Sys.print ("MQTT Credential Management Test - " ++ Scenario.name scenario) ;;
        Sys.print ("Description: " ++ Scenario.description scenario) ;;
        Sys.print (str_mul "=" 70) ;;
        log (ClientNew (CredentialTest.CLIENT_ID environ) true) ;;
        CredentialTest.setup_certificate_auth environ ;;
        try_except
          (CredentialTest.run_body environ json_dumps decode_replace scenario)
          CredentialTest.run_handler).
Proof.
  apply sure_bind; [apply calm_instantiate | apply total_instantiate |].
  intros scenario. unfold Sys.print.
  repeat (apply sure_bind; [calm_leaf | apply total_log | intros _]).
  apply sure_bind;
    [apply calm_setup_certificate_auth | apply total_setup_certificate_auth |].
  intros _. apply sure_try_run_body.
Qed.

Lemma safe_run_with_token (c : Scenario.scenario_class) :
  safe (scenario <- CredentialTest.instantiate environ c ;;
        Sys.print (LF ++ str_mul "=" 70) ;;
        Sys.print ("MQTT Credential Management Test - " ++ Scenario.name scenario) ;;
        Sys.print ("Description: " ++ Scenario.description scenario) ;;
        Sys.print (str_mul "=" 70) ;;
        log (ClientNew (CredentialTest.CLIENT_ID environ) true) ;;
        CredentialTest.setup_sas_auth environ ;;
        try_except
          (CredentialTest.run_body environ json_dumps decode_replace scenario)
          CredentialTest.run_handler).
Proof.
  apply safe_bind; [apply calm_instantiate|].
  intros scenario. unfold Sys.print.
  repeat (apply safe_bind; [calm_leaf | intros _]).
  apply safe_bind; [apply calm_setup_sas_auth|].
  intros _. apply sure_safe, sure_try_run_body.
Qed.

(** C10: whatever value [response_received] has when [run_scenario] is
    entered, the run logs its actions after the ones already there, and if it
    calls [connect] at all the flag is [False] at the first such call; with
    certificate authentication it does call [connect], with the flag
    [False]. *)
Theorem response_flag_reset_before_connect
  (scenario_class : Scenario.scenario_class) (use_cert_auth : bool) (w : world) :
  exists new,
    trace (snd (CredentialTest.run_scenario environ json_dumps decode_replace
                  scenario_class use_cert_auth w))
    = (new ++ trace w)%list /\
    first_connect_flag (rev new) <> Some true /\
    (use_cert_auth = true -> first_connect_flag (rev new) = Some false).
Proof.
  unfold CredentialTest.run_scenario.
  set (w0 := set_response_received false w).
  assert (H0 : response_received w0 = false) by reflexivity.
  destruct use_cert_auth.
  - destruct (sure_run_with_certificate scenario_class w0 H0) as [l [E F]].
    exists l. split; [exact E|]. split; [rewrite F; discriminate | auto].
  - destruct (safe_run_with_token scenario_class w0 H0) as [l [E F]].
    exists l. split; [exact E|]. split; [exact F | discriminate].
Qed.

End FlagReset.

(** ** What a straight-line computation returns and logs *)

Lemma returns_ret {A} (a : A) : returns (ret a) (eq a) [].
Proof. intros w. exists a. simpl. now rewrite app_nil_r. Qed.

Lemma returns_log (e : effect) : returns (log e) (fun _ => True) [e].
Proof. intros w. exists tt. repeat split. Qed.

Lemma returns_randint (a b : Z) : returns (Sys.randint a b) (fun _ => True) [].
Proof.
  intros w. unfold Sys.randint.
  destruct (entropy w); eexists; simpl; rewrite app_nil_r; repeat split.
Qed.

Lemma returns_bind {A B} (m : M A) (k : A -> M B) (Q : A -> Prop)
  (R : B -> Prop) (es1 es2 : list effect) :
  returns m Q es1 -> (forall a, Q a -> returns (k a) R es2) ->
  returns (bind m k) R (es1 ++ es2).
Proof.
  intros Hm Hk w. unfold bind.
  destruct (Hm w) as [a [Ea [Qa Ha]]].
  destruct (m w) as [r w1]; simpl in *. subst r.
  destruct (Hk a Qa w1) as [b [Eb [Rb Hb]]].
  exists b. repeat split; auto. now rewrite Hb, Ha, app_assoc.
Qed.

Lemma returns_weaken {A} (m : M A) (Q R : A -> Prop) (es : list effect) :
  returns m Q es -> (forall a, Q a -> R a) -> returns m R es.
Proof.
  intros Hm H w. destruct (Hm w) as [a [Ea [Qa Ha]]]. exists a. auto.
Qed.

Lemma exits_raise {A} (e : exn) : exits (@raise A e) e [].
Proof. intros w. simpl. now rewrite app_nil_r. Qed.

Lemma exits_bind {A B} (m : M A) (k : A -> M B) (Q : A -> Prop) (e : exn)
  (es1 es2 : list effect) :
  returns m Q es1 -> (forall a, Q a -> exits (k a) e es2) ->
  exits (bind m k) e (es1 ++ es2).
Proof.
  intros Hm Hk w. unfold bind.
  destruct (Hm w) as [a [Ea [Qa Ha]]].
  destruct (m w) as [r w1]; simpl in *. subst r.
  destruct (Hk a Qa w1) as [Eb Hb].
  split; [exact Eb|]. now rewrite Hb, Ha, app_assoc.
Qed.

Lemma exits_then {A B} (m : M A) (k : A -> M B) (e : exn) (es : list effect) :
  exits m e es -> exits (bind m k) e es.
Proof.
  intros Hm w. unfold bind. destruct (Hm w) as [Ea Ha].
  destruct (m w) as [r w1]; simpl in *. subst r. auto.
Qed.

(** ** Unknown scenario names *)

Section UnknownScenario.

Variable environ : string -> option string.
Variable json_dumps : list (string * string) -> string.
Variable decode_replace : list byte -> string.

Lemma returns_instantiate (c : Scenario.scenario_class) :
  returns (CredentialTest.instantiate environ c)
    (fun s => Scenario.description s = description_of c) [].
Proof.
  intros w. destruct c;
    unfold CredentialTest.instantiate, CredentialTest.HappyPathScenario_init,
      CredentialTest.DisconnectReconnectScenario_init,
      CredentialTest.MQTTTestScenario_init, bind, ret, Sys.randint;
    destruct (entropy w); eexists; simpl; rewrite app_nil_r; repeat split.
Qed.

Lemma returns_listing_line (name : string) (c : Scenario.scenario_class) :
  returns
    (scenario <- CredentialTest.instantiate environ c ;;
     Sys.print ("  " ++ ljust name 20 ++ " - " ++ Scenario.description scenario))
    (fun _ => True)
    [Print ("  " ++ ljust name 20 ++ " - " ++ description_of c)].
Proof.
  apply (returns_bind _ _ _ _ [] [_] (returns_instantiate c)).
  intros s Hs. rewrite Hs. apply returns_log.
Qed.

Lemma returns_list_scenarios :
  returns (CredentialTest.list_scenarios environ) (fun _ => True)
    scenario_listing.
Proof.
  unfold CredentialTest.list_scenarios, CredentialTest.SCENARIOS, Sys.print.
  cbn [fold_left fst snd].
  apply (returns_bind _ _ _ _ [_] (_ :: _) (returns_log _)). intros _ _.
  apply (returns_bind _ _ _ _ [_] (_ :: _) (returns_log _)). intros _ _.
  apply (returns_bind _ _ (fun _ => True) _ [_; _] [_]); [|intros _ _; apply returns_log].
  apply (returns_bind _ _ (fun _ => True) _ [_] [_]).
  - apply (returns_bind _ _ (fun _ => True) _ [] [_]).
    + apply (returns_weaken _ _ _ _ (returns_ret tt)). trivial.
    + intros _ _. apply (returns_listing_line "happy_path").
  - intros _ _. apply (returns_listing_line "disconnect_reconnect").
Qed.

Lemma main_lists (a : CredentialTest.args) :
  CredentialTest.arg_list_scenarios a = true ->
  returns (CredentialTest.main environ json_dumps decode_replace a)
    (fun _ => True) scenario_listing.
Proof.
  intros Hl. unfold CredentialTest.main. rewrite Hl.
  apply returns_list_scenarios.
Qed.

Lemma main_wants_authentication (a : CredentialTest.args) :
  CredentialTest.arg_list_scenarios a = false ->
  CredentialTest.arg_cert a || CredentialTest.arg_sas a = false ->
  exits (CredentialTest.main environ json_dumps decode_replace a)
    (SystemExit 2) argument_error.
Proof.
  intros Hl Ha. unfold CredentialTest.main. rewrite Hl.
  apply orb_false_elim in Ha. destruct Ha as [Hc Hs]. rewrite Hc, Hs.
  cbn [negb andb].
  apply exits_then. unfold CredentialTest.parser_error, Sys.sys_exit.
  apply (exits_bind _ _ _ _ [_] [_] (returns_log _)). intros _ _.
  apply (exits_bind _ _ _ _ [_] [] (returns_log _)). intros _ _.
  apply exits_raise.
Qed.

Lemma main_rejects_unknown (a : CredentialTest.args) :
  CredentialTest.registered (CredentialTest.arg_scenario a) = false ->
  CredentialTest.arg_list_scenarios a = false ->
  CredentialTest.arg_cert a || CredentialTest.arg_sas a = true ->
  exits (CredentialTest.main environ json_dumps decode_replace a)
    (SystemExit 1)
    (unknown_scenario_error (CredentialTest.arg_scenario a) :: scenario_listing).
Proof.
  intros Hr Hl Ha. unfold CredentialTest.main. rewrite Hl, Hr.
  assert (E : negb (CredentialTest.arg_cert a) && negb (CredentialTest.arg_sas a)
              = false).
  { destruct (CredentialTest.arg_cert a), (CredentialTest.arg_sas a);
      simpl in *; congruence. }
  rewrite E. cbn [negb].
  apply (exits_bind _ _ (fun _ => True) _ [] (_ :: _)).
  { apply (returns_weaken _ _ _ _ (returns_ret tt)). trivial. }
  intros _ _. apply exits_then. unfold Sys.print, Sys.sys_exit.
  apply (exits_bind _ _ _ _ [_] scenario_listing (returns_log _)). intros _ _.
  rewrite <- (app_nil_r scenario_listing).
  apply (exits_bind _ _ _ _ _ [] returns_list_scenarios). intros _ _.
  apply exits_raise.
Qed.

Lemma no_connect_in_listing (h : string) (p k : Z) (pre : list effect) :
  (forall e, In e pre -> is_connect e = false) ->
  ~ In (Connect h p k) (pre ++ scenario_listing)%list.
Proof.
  intros Hpre Hin. apply in_app_or in Hin. destruct Hin as [Hin|Hin].
  - specialize (Hpre _ Hin). discriminate.
  - simpl in Hin. repeat (destruct Hin as [Hin|Hin]; [discriminate|]).
    exact Hin.
Qed.

(** C9, as amended: for a scenario name that is not in the registry, [main]
    never calls [connect].  When [--list-scenarios] is not given and an
    authentication method is, it prints the unknown-scenario error, lists the
    scenarios and exits with status 1.  With [--list-scenarios] it lists the
    scenarios and returns, with status 0: the name is not looked at.  Without
    an authentication method (and without [--list-scenarios]) it stops with
    the argument error and status 2, before the name is checked. *)
Theorem unknown_scenario_never_connects (a : CredentialTest.args) (w : world) :
  CredentialTest.registered (CredentialTest.arg_scenario a) = false ->
  exists new,
    history (snd (CredentialTest.main environ json_dumps decode_replace a w))
    = (history w ++ new)%list /\
    (forall host port keepalive, ~ In (Connect host port keepalive) new) /\
    (CredentialTest.arg_list_scenarios a = false ->
     CredentialTest.arg_cert a || CredentialTest.arg_sas a = true ->
     fst (CredentialTest.main environ json_dumps decode_replace a w)
       = Raise (SystemExit 1) /\
     exit_status
       (fst (CredentialTest.main environ json_dumps decode_replace a w)) <> 0 /\
     new = unknown_scenario_error (CredentialTest.arg_scenario a)
             :: scenario_listing) /\
    (CredentialTest.arg_list_scenarios a = true ->
     fst (CredentialTest.main environ json_dumps decode_replace a w) = Ok tt /\
     exit_status
       (fst (CredentialTest.main environ json_dumps decode_replace a w)) = 0 /\
     new = scenario_listing) /\
    (CredentialTest.arg_list_scenarios a = false ->
     CredentialTest.arg_cert a || CredentialTest.arg_sas a = false ->
     fst (CredentialTest.main environ json_dumps decode_replace a w)
       = Raise (SystemExit 2) /\
     exit_status
       (fst (CredentialTest.main environ json_dumps decode_replace a w)) = 2 /\
     new = argument_error).
Proof.
  intros Hr.
  destruct (CredentialTest.arg_list_scenarios a) eqn:Hl.
  - destruct (main_lists a Hl w) as [[] [Hf [_ Hh]]].
    exists scenario_listing. split; [exact Hh|].
    split; [|split; [discriminate|split; [|discriminate]]].
    + intros h p k. apply (no_connect_in_listing h p k []). intros e [].
    + intros _. rewrite Hf. repeat split.
  - destruct (CredentialTest.arg_cert a || CredentialTest.arg_sas a) eqn:Ha.
    + destruct (main_rejects_unknown a Hr Hl Ha w) as [Hf Hh].
      exists (unknown_scenario_error (CredentialTest.arg_scenario a)
                :: scenario_listing).
      split; [exact Hh|].
      split; [|split; [|split; discriminate]].
      * intros h p k.
        apply (no_connect_in_listing h p k
                 [unknown_scenario_error (CredentialTest.arg_scenario a)]).
        intros e [<-|[]]. reflexivity.
      * intros _ _. rewrite Hf. repeat split. simpl. discriminate.
    + destruct (main_wants_authentication a Hl Ha w) as [Hf Hh].
      exists argument_error. split; [exact Hh|].
      split; [|split; [discriminate|split; [discriminate|]]].
      * intros h p k [H|[H|[]]]; discriminate.
      * intros _ _. rewrite Hf. repeat split.
Qed.

End UnknownScenario.

(** ** How a run ends

    The clock never goes back and the script of [connect] outcomes is only
    consumed; with that, the waiting loops have fuel to spare, the body of
    the [try] raises nothing but an interrupt or the [OSError] of a failed
    [connect], and the exit status follows. *)

Lemma onward_refl (w : world) : onward w w.
Proof. split; [apply Qle_refl | now exists []]. Qed.

Lemma onward_trans (a b c : world) : onward a b -> onward b c -> onward a c.
Proof.
  intros [H1 [l1 E1]] [H2 [l2 E2]]. split.
  - eapply Qle_trans; eauto.
  - exists (l1 ++ l2)%list. now rewrite E1, E2, app_assoc.
Qed.

Lemma onward_same (w w' : world) :
  now w' = now w -> connect_results w' = connect_results w -> onward w w'.
Proof.
  intros Hn Hc. split; [rewrite Hn; apply Qle_refl | exists []; now rewrite Hc].
Qed.

Lemma onward_log (e : effect) : keeps onward (log e).
Proof. intros w. now apply onward_same. Qed.

Lemma onward_modify (f : world -> world) :
  (forall w, now (f w) = now w) ->
  (forall w, connect_results (f w) = connect_results w) ->
  keeps onward (modify f).
Proof. intros Hn Hc w. apply onward_same; [apply Hn | apply Hc]. Qed.

Lemma onward_randint (a b : Z) : keeps onward (Sys.randint a b).
Proof.
  intros w. unfold Sys.randint. destruct (entropy w); now apply onward_same.
Qed.

Lemma onward_publish_result : keeps onward Client.publish_result.
Proof.
  intros w. unfold Client.publish_result.
  destruct (publish_results w); now apply onward_same.
Qed.

Lemma onward_handshake : keeps onward Client.handshake.
Proof.
  intros w. unfold Client.handshake.
  destruct (connect_results w) as [|c rest] eqn:E.
  - now apply onward_same.
  - destruct c;
      (split; [apply Qle_refl | eexists [_]; simpl; rewrite E; reflexivity]).
Qed.

Lemma onward_advance (d : Q) :
  (0 <= d)%Q -> keeps onward (modify (fun w => set_now (Qred (now w + d)) w)).
Proof.
  intros Hd w. split; [|now exists []].
  unfold modify. cbn [snd now set_now].
  assert (E : (Qred (now w + d) == now w + d)%Q) by apply Qred_correct.
  lra.
Qed.

Lemma onward_tick_step (handler : net_event -> M unit) :
  (forall ev, keeps onward (handler ev)) -> keeps onward (Client.tick_step handler).
Proof.
  intros H w. unfold Client.tick_step.
  destruct (ticks w) as [|t rest]; [apply onward_refl|].
  assert (G : onward w (Client.deliver handler (arrivals t) (set_ticks rest w))).
  { apply (onward_trans _ (set_ticks rest w)); [now apply onward_same|].
    apply (keeps_deliver onward onward_refl onward_trans); [|exact H].
    intros w0. now apply onward_same. }
  destruct (interrupt t); exact G.
Qed.

Ltac onward_leaf :=
  first
    [ apply onward_log
    | apply onward_modify; solve [intros ?; reflexivity]
    | apply onward_randint
    | apply onward_handshake
    | apply onward_publish_result ].

Ltac go_onward := frame_with onward_refl onward_trans onward_leaf.

Lemma onward_sleep (handler : net_event -> M unit) (d : Q) :
  (forall ev, keeps onward (handler ev)) -> (0 <= d)%Q ->
  keeps onward (Client.sleep handler d).
Proof.
  intros H Hd. unfold Client.sleep.
  apply (keeps_bind onward onward_trans); [apply onward_log|]. intros _.
  apply (keeps_bind onward onward_trans); [now apply onward_advance|]. intros _.
  now apply onward_tick_step.
Qed.

Lemma since_onward (fails : bool) (t : Q) (w w' : world) :
  onward w w' -> since fails t w -> since fails t w'.
Proof.
  intros [Hn [l Hl]] [Hj Ht]. split.
  - intros Hf msg Hin. apply (Hj Hf msg). rewrite Hl. apply in_or_app. now right.
  - eapply Qle_trans; eauto.
Qed.

(** *** Triples *)

Lemma triple_ret {A} (Pre : world -> Prop) (a : A) (Exc : exn -> world -> Prop) :
  triple Pre (ret a) (fun b w => b = a /\ Pre w) Exc.
Proof. intros w Hw. simpl. auto. Qed.

Lemma triple_bind {A B} (Pre : world -> Prop) (m : M A) (k : A -> M B)
  (Mid : A -> world -> Prop) (Post : B -> world -> Prop) (Exc : exn -> world -> Prop) :
  triple Pre m Mid Exc -> (forall a, triple (Mid a) (k a) Post Exc) ->
  triple Pre (bind m k) Post Exc.
Proof.
  intros Hm Hk w Hw. unfold bind. specialize (Hm w Hw).
  destruct (m w) as [[a|e] w1]; [apply (Hk a w1 Hm) | exact Hm].
Qed.

Lemma triple_conseq {A} (Pre Pre' : world -> Prop) (m : M A)
  (Post Post' : A -> world -> Prop) (Exc Exc' : exn -> world -> Prop) :
  triple Pre m Post Exc ->
  (forall w, Pre' w -> Pre w) ->
  (forall a w, Post a w -> Post' a w) ->
  (forall e w, Exc e w -> Exc' e w) ->
  triple Pre' m Post' Exc'.
Proof.
  intros Hm H1 H2 H3 w Hw. specialize (Hm w (H1 w Hw)).
  destruct (m w) as [[a|e] w1]; auto.
Qed.

Lemma triple_pure {A} (F : Prop) (Pre : world -> Prop) (m : M A)
  (Post : A -> world -> Prop) (Exc : exn -> world -> Prop) :
  (F -> triple Pre m Post Exc) -> triple (fun w => Pre w /\ F) m Post Exc.
Proof. intros H w [Hw HF]. exact (H HF w Hw). Qed.

Lemma triple_try {A} (Pre : world -> Prop) (body : M A)
  (handler : exn -> option (M A)) (Post : A -> world -> Prop)
  (Exc1 Exc2 : exn -> world -> Prop) :
  triple Pre body Post Exc1 ->
  (forall e w, Exc1 e w ->
     match handler e with
     | Some h => match h w with
                 | (Ok a, w') => Post a w'
                 | (Raise e', w') => Exc2 e' w'
                 end
     | None => Exc2 e w
     end) ->
  triple Pre (try_except body handler) Post Exc2.
Proof.
  intros Hb Hh w Hw. unfold try_except. specialize (Hb w Hw).
  destruct (body w) as [[a|e] w1]; [exact Hb|].
  specialize (Hh e w1 Hb). destruct (handler e) as [h|]; exact Hh.
Qed.

(** A step that raises nothing and moves the world onward keeps [since]. *)
Lemma triple_step {A} (fails : bool) (t : Q) (m : M A) (Exc : exn -> world -> Prop) :
  keeps onward m -> total m ->
  triple (since fails t) m (fun _ => since fails t) Exc.
Proof.
  intros Hk Ht w Hw. destruct (Ht w) as [a Ha]. specialize (Hk w).
  destruct (m w) as [r w1]; simpl in *. subst r.
  now apply (since_onward fails t w).
Qed.

Lemma triple_ret_since (fails : bool) (t : Q) (Exc : exn -> world -> Prop) :
  triple (since fails t) (ret t) (fun s w => since fails s w) Exc.
Proof. intros w H. exact H. Qed.

Lemma triple_time (fails : bool) (t : Q) (Exc : exn -> world -> Prop) :
  triple (since fails t) Sys.time_time (fun a w => since fails a w) Exc.
Proof. intros w [Hj _]. simpl. split; [exact Hj | apply Qle_refl]. Qed.

Lemma triple_sleep (fails : bool) (t : Q) (handler : net_event -> M unit)
  (d : Q) :
  (forall ev, keeps onward (handler ev)) -> (0 <= d)%Q ->
  triple (since fails t) (Client.sleep handler d) (fun _ => since fails t)
    (interrupt_or_failure fails).
Proof.
  intros Hh Hd w Hw. pose proof (onward_sleep handler d Hh Hd w) as Ho.
  destruct (Client.sleep handler d w) as [[u|e] w1] eqn:Es; simpl in Ho.
  - now apply (since_onward fails t w).
  - left. exact (sleep_raises _ _ _ _ _ Es).
Qed.

Lemma triple_handshake (fails : bool) (t : Q) :
  triple (since fails t) Client.handshake (fun _ => since fails t)
    (interrupt_or_failure fails).
Proof.
  intros w Hw. pose proof (onward_handshake w) as Ho.
  unfold Client.handshake in *.
  destruct (connect_results w) as [|c rest] eqn:E; [exact Hw|].
  destruct c; cbn [fst snd] in *.
  - now apply (since_onward fails t w).
  - destruct fails.
    + right. split; [reflexivity | now exists msg].
    + exfalso. destruct Hw as [Hj _]. apply (Hj eq_refl msg).
      rewrite E. now left.
  - now left.
Qed.

Lemma triple_connect (fails : bool) (t : Q) (host : string) (port keepalive : Z) :
  triple (since fails t) (Client.connect host port keepalive)
    (fun _ => since fails t) (interrupt_or_failure fails).
Proof.
  unfold Client.connect.
  apply (triple_bind _ _ _ (fun _ => since fails t)).
  - apply triple_step; [apply onward_log | apply total_log].
  - intros _. apply triple_handshake.
Qed.

(** A waiting loop entered after its start time, with the fuel [rounds]
    gives it. *)
Lemma triple_waiting_loop (fails : bool) (handler : net_event -> M unit)
  (guard : world -> bool) (start_time timeout poll : Q) :
  (forall ev, keeps same_clock (handler ev)) ->
  (forall ev, keeps onward (handler ev)) ->
  (0 < poll)%Q ->
  triple (since fails start_time)
    (waiting_loop handler guard start_time timeout poll
       (Sys.rounds timeout poll))
    (fun _ => since fails start_time) (interrupt_or_failure fails).
Proof.
  intros Hc Ho Hp w Hw.
  assert (Hk : keeps onward
                 (waiting_loop handler guard start_time timeout poll
                    (Sys.rounds timeout poll))).
  { unfold waiting_loop, Sys.time_time.
    frame_with onward_refl onward_trans
      ltac:(first [ apply onward_sleep; [exact Ho | now apply Qlt_le_weak]
                  | onward_leaf ]). }
  specialize (Hk w).
  pose proof (waiting_loop_terminates handler Hc guard start_time timeout poll
                Hp w (proj2 Hw)) as Hfuel.
  pose proof (waiting_loop_raises handler guard start_time timeout poll
                (Sys.rounds timeout poll) w) as Hr.
  destruct (waiting_loop handler guard start_time timeout poll
              (Sys.rounds timeout poll) w) as [[u|e] w1]; simpl in *.
  - now apply (since_onward fails start_time w).
  - destruct (Hr e eq_refl) as [->| ->]; [now left | congruence].
Qed.

Section RunEnds.

Variable environ : string -> option string.
Variable json_dumps : list (string * string) -> string.
Variable decode_replace : list byte -> string.

Lemma onward_dispatch (scenario : Scenario.scenario) (ev : net_event) :
  keeps onward
    (CredentialTest.dispatch environ json_dumps decode_replace scenario ev).
Proof.
  destruct ev; unfold CredentialTest.dispatch, CredentialTest.on_connect,
    CredentialTest.on_subscribe, CredentialTest.on_publish,
    CredentialTest.on_message, CredentialTest.on_disconnect,
    Client.publish, Client.disconnect, Client.subscribe, Client.unsubscribe,
    Sys.print, Sys.sys_exit;
    go_onward.
Qed.

Lemma onward_dispatch_issue (ud : IssueCert.userdata) (ev : net_event) :
  keeps onward (IssueCert.dispatch decode_replace ud ev).
Proof.
  destruct ev; unfold IssueCert.dispatch, IssueCert.on_connect,
    IssueCert.on_subscribe, IssueCert.on_publish,
    IssueCert.on_message, IssueCert.on_disconnect,
    Client.publish, Client.disconnect, Client.subscribe, Client.unsubscribe,
    Sys.print, Sys.sys_exit;
    go_onward.
Qed.

(** One step of a sequence: the first computation keeps [since]. *)
Ltac run_step :=
  eapply triple_bind;
  [ first
      [ apply triple_connect
      | apply triple_time
      | apply triple_sleep; [apply onward_dispatch | ]
      | apply triple_step;
        [ unfold Sys.print, Client.loop_start, Client.loop_stop,
            Client.disconnect, Client.is_connected; go_onward
        | unfold Sys.print, Client.loop_start, Client.loop_stop,
            Client.disconnect, Client.is_connected; totality ] ]
  | ].

Lemma triple_wait_for_disconnect (fails : bool)
  (scenario : Scenario.scenario) (start_time : Q) :
  triple (since fails start_time)
    (CredentialTest.wait_for_disconnect environ json_dumps decode_replace
       scenario start_time)
    (fun _ => since fails start_time) (interrupt_or_failure fails).
Proof.
  apply (triple_waiting_loop fails
           (CredentialTest.dispatch environ json_dumps decode_replace scenario)
           connected start_time CredentialTest.timeout CredentialTest.poll).
  - apply clock_dispatch.
  - apply onward_dispatch.
  - reflexivity.
Qed.

Lemma triple_wait_for_response (fails : bool)
  (scenario : Scenario.scenario) (start_time : Q) :
  triple (since fails start_time)
    (CredentialTest.wait_for_response environ json_dumps decode_replace
       scenario start_time)
    (fun _ => since fails start_time) (interrupt_or_failure fails).
Proof.
  apply (triple_waiting_loop fails
           (CredentialTest.dispatch environ json_dumps decode_replace scenario)
           (fun w => negb (response_received w))
           start_time CredentialTest.timeout CredentialTest.poll).
  - apply clock_dispatch.
  - apply onward_dispatch.
  - reflexivity.
Qed.

(** The body of the [try], from [loop_start] on, raises nothing but an
    interrupt or the failure of the second [connect]. *)
Lemma triple_run_connected (fails : bool) (scenario : Scenario.scenario)
  (t : Q) :
  0 <= Scenario.reconnect_delay scenario ->
  triple (since fails t)
    (CredentialTest.run_connected environ json_dumps decode_replace scenario)
    (fun _ _ => True) (interrupt_or_failure fails).
Proof.
  intros Hdelay. unfold CredentialTest.run_connected.
  run_step. intros ?.
  run_step. intros start_time.
  apply (triple_bind _ _ _ (fun s w => since fails s w)).
  - destruct (Scenario.disconnect_after_publish scenario).
    + run_step. intros ?.
      eapply triple_bind; [apply triple_wait_for_disconnect | intros ?].
      run_step. intros c.
      destruct (negb c).
      * run_step. intros ?. run_step. intros ?.
        run_step.
        { rewrite Zle_Qle in Hdelay. exact Hdelay. }
        intros ?.
        run_step. intros ?. run_step. intros ?. run_step. intros ?.
        run_step. intros ?. run_step. intros ?.
        apply triple_time.
      * apply triple_ret_since.
    + apply triple_ret_since.
  - intros start_time'.
    eapply triple_bind; [apply triple_wait_for_response | intros ?].
    run_step. intros r.
    apply (triple_bind _ _ _ (fun _ => since fails start_time')).
    + destruct (negb r).
      * run_step. intros ?.
        apply triple_step;
          [unfold Client.disconnect; go_onward
          | unfold Client.disconnect; totality].
      * apply triple_step; [go_onward | totality].
    + intros ?. run_step.
      { unfold Qle. simpl. lia. }
      intros ?.
      apply (triple_conseq (since fails start_time') _ _
               (fun _ => since fails start_time') _
               (interrupt_or_failure fails)); auto.
      apply triple_step;
        [unfold Client.loop_stop; go_onward | unfold Client.loop_stop; totality].
Qed.

Lemma triple_run_body (fails : bool) (scenario : Scenario.scenario) (t : Q) :
  0 <= Scenario.reconnect_delay scenario ->
  triple (since fails t)
    (CredentialTest.run_body environ json_dumps decode_replace scenario)
    (fun _ _ => True) (interrupt_or_failure fails).
Proof.
  intros Hdelay. unfold CredentialTest.run_body.
  run_step. intros ?. run_step. intros ?.
  now apply triple_run_connected.
Qed.

Lemma triple_try_run_body (fails : bool) (scenario : Scenario.scenario) (t : Q) :
  0 <= Scenario.reconnect_delay scenario ->
  triple (since fails t)
    (try_except
       (CredentialTest.run_body environ json_dumps decode_replace scenario)
       CredentialTest.run_handler)
    (fun _ _ => True) (exit_after_failure fails).
Proof.
  intros Hdelay.
  apply (triple_try _ _ _ _ (interrupt_or_failure fails));
    [now apply triple_run_body|].
  intros e w [->|[Hf [msg ->]]]; simpl; [trivial|].
  split; [reflexivity | exact Hf].
Qed.

(** X1: the [try] statement of [run_scenario] ends in one of two ways,
    whatever the broker does: the function returns, or the process exits
    with status 1.  No waiting loop of it is cut short, an interrupt that
    arrives while the main thread waits in [time.sleep] or [client.connect]
    is caught, and so is the [OSError] of a [connect].  The scenario object
    is any with a delay that [time.sleep] accepts. *)
Lemma run_scenario_ends (scenario : Scenario.scenario) (w : world) :
  0 <= Scenario.reconnect_delay scenario ->
  fst (try_except
         (CredentialTest.run_body environ json_dumps decode_replace scenario)
         CredentialTest.run_handler w) = Ok tt
  \/ fst (try_except
            (CredentialTest.run_body environ json_dumps decode_replace scenario)
            CredentialTest.run_handler w) = Raise (SystemExit 1).
Proof.
  intros Hdelay.
  assert (Hw : since true (now w) w).
  { split; [discriminate | apply Qle_refl]. }
  pose proof (triple_try_run_body true scenario (now w) Hdelay w Hw) as H.
  destruct (try_except
              (CredentialTest.run_body environ json_dumps decode_replace
                 scenario)
              CredentialTest.run_handler w) as [[[]|e] w1]; simpl.
  - now left.
  - right. destruct H as [-> _]. reflexivity.
Qed.

(** X2: when no [connect] raises an [OSError], the [try] statement of
    [run_scenario] lets the function return, whatever arrives or fails to
    arrive: after a response of any status, after the timeout, and after an
    interrupt that arrives while the main thread waits in [time.sleep] or
    [client.connect]. *)
Lemma run_scenario_returns (scenario : Scenario.scenario) (w : world) :
  0 <= Scenario.reconnect_delay scenario ->
  no_connect_failure w ->
  fst (try_except
         (CredentialTest.run_body environ json_dumps decode_replace scenario)
         CredentialTest.run_handler w) = Ok tt.
Proof.
  intros Hdelay Hj.
  assert (Hw : since false (now w) w).
  { split; [intros _; exact Hj | apply Qle_refl]. }
  pose proof (triple_try_run_body false scenario (now w) Hdelay w Hw) as H.
  destruct (try_except
              (CredentialTest.run_body environ json_dumps decode_replace
                 scenario)
              CredentialTest.run_handler w) as [[[]|e] w1]; simpl.
  - reflexivity.
  - destruct H as [_ H]. discriminate.
Qed.

End RunEnds.

Section IssueCertEnds.

Variable PAHO_MQTT_VERSION : string.
Variable json_dumps : list (string * string) -> string.
Variable decode_replace : list byte -> string.

Lemma triple_weaken_exc {A} (Pre : world -> Prop) (m : M A)
  (Post : A -> world -> Prop) (Exc Exc' : exn -> world -> Prop) :
  (forall e w, Exc e w -> Exc' e w) ->
  triple Pre m Post Exc -> triple Pre m Post Exc'.
Proof. intros H Hm. apply (triple_conseq Pre Pre m Post Post Exc Exc'); auto. Qed.

Lemma triple_issue_wait (ud : IssueCert.userdata) (timeout : Z)
  (start_time : Q) :
  triple (since true start_time)
    (IssueCert.wait_for_response decode_replace ud timeout start_time)
    (fun _ => since true start_time) (interrupt_or_failure true).
Proof.
  apply (triple_waiting_loop true
           (IssueCert.dispatch decode_replace ud)
           (fun w => negb (response_received w))
           start_time (inject_Z timeout) IssueCert.poll).
  - apply clock_dispatch_issue.
  - apply onward_dispatch_issue.
  - reflexivity.
Qed.

Lemma triple_main_body (a : IssueCert.args) (ud : IssueCert.userdata) (t : Q) :
  triple (since true t) (IssueCert.main_body decode_replace a ud)
    (fun _ _ => False) exit_of_body.
Proof.
  assert (W : forall e w, interrupt_or_failure true e w -> exit_of_body e w)
    by (intros e w H; now left).
  unfold IssueCert.main_body.
  eapply triple_bind; [apply (triple_weaken_exc _ _ _ _ _ W) | intros ?].
  { apply triple_step; unfold Sys.print; [go_onward | totality]. }
  eapply triple_bind;
    [apply (triple_weaken_exc _ _ _ _ _ W), triple_connect | intros ?].
  eapply triple_bind; [apply (triple_weaken_exc _ _ _ _ _ W) | intros ?].
  { apply triple_step; unfold Client.loop_start; [go_onward | totality]. }
  eapply triple_bind;
    [apply (triple_weaken_exc _ _ _ _ _ W), triple_time | intros start_time].
  eapply triple_bind;
    [apply (triple_weaken_exc _ _ _ _ _ W), triple_issue_wait | intros ?].
  eapply triple_bind; [apply (triple_weaken_exc _ _ _ _ _ W) | intros r].
  { apply triple_step; [go_onward | totality]. }
  apply (triple_bind _ _ _ (fun _ => since true start_time)).
  { destruct (negb r).
    - eapply triple_bind; [apply (triple_weaken_exc _ _ _ _ _ W) | intros ?].
      { apply triple_step; unfold Sys.print; [go_onward | totality]. }
      eapply triple_bind; [apply (triple_weaken_exc _ _ _ _ _ W) | intros ?].
      { apply triple_step; unfold Client.disconnect; [go_onward | totality]. }
      intros w _. simpl. right. now left.
    - apply triple_step; [go_onward | totality]. }
  intros ?.
  eapply triple_bind;
    [apply (triple_weaken_exc _ _ _ _ _ W), triple_sleep;
       [apply onward_dispatch_issue | unfold Qle; simpl; lia]
    | intros ?].
  eapply triple_bind; [apply (triple_weaken_exc _ _ _ _ _ W) | intros ?].
  { apply triple_step; unfold Client.loop_stop; [go_onward | totality]. }
  intros w _. unfold bind, get, Sys.sys_exit, raise. cbn [fst snd].
  destruct (IssueCert.accepted (response_data w)) eqn:E; right;
    [right; now split | now left].
Qed.

Lemma triple_try_main_body (a : IssueCert.args) (ud : IssueCert.userdata)
  (t : Q) :
  triple (since true t)
    (try_except (IssueCert.main_body decode_replace a ud)
       IssueCert.main_handler)
    (fun _ _ => False) exit_of_main.
Proof.
  apply (triple_try _ _ _ _ exit_of_body); [apply triple_main_body|].
  intros e w [[->|[_ [msg ->]]]|[->|[-> H]]]; simpl.
  - now left.
  - now left.
  - now left.
  - right. now split.
Qed.

(** X3: the [try] statement of [main] of [mqtt_issue_cert.py] always ends
    by [sys.exit], with status 0 or 1, whatever the broker does and also
    when an interrupt arrives while the main thread waits in [time.sleep] or
    [client.connect]; and with status 0 only after a response whose status
    code is "202" was recorded.  For [main] as a whole: its exit status is 0
    only if such a response was recorded. *)
Lemma issue_cert_main_ends (a : IssueCert.args) (w : world) :
  (forall ud : IssueCert.userdata,
      let r := try_except (IssueCert.main_body decode_replace a ud)
                 IssueCert.main_handler w in
      fst r = Raise (SystemExit 1)
      \/ (fst r = Raise (SystemExit 0)
          /\ IssueCert.accepted (response_data (snd r)) = true)) /\
  (let r := IssueCert.main PAHO_MQTT_VERSION json_dumps decode_replace a w in
   exit_status (fst r) = 0 ->
   IssueCert.accepted (response_data (snd r)) = true).
Proof.
  assert (Hw : since true (now w) w).
  { split; [discriminate | apply Qle_refl]. }
  split.
  - intros ud. cbv zeta.
    pose proof (triple_try_main_body a ud (now w) w Hw) as T.
    destruct (try_except (IssueCert.main_body decode_replace a ud)
                IssueCert.main_handler w) as [[u|e] w1]; simpl;
      [contradiction|].
    destruct T as [->|[-> H]]; [now left | right; now split].
  - assert (T : triple (since true (now w))
                  (IssueCert.main PAHO_MQTT_VERSION json_dumps decode_replace a)
                  (fun _ _ => False) exit_of_main).
    { unfold IssueCert.main.
      eapply triple_bind.
      { apply triple_step; [go_onward | totality]. }
      intros request_id. cbv zeta.
      repeat (eapply triple_bind;
              [ apply triple_step; unfold Sys.print; [go_onward | totality]
              | intros ? ]).
      apply triple_try_main_body. }
    specialize (T w Hw). cbv zeta.
    destruct (IssueCert.main PAHO_MQTT_VERSION json_dumps decode_replace a w)
      as [[u|e] w1]; simpl; [contradiction|].
    destruct T as [->|[-> H]]; [discriminate | intros _; exact H].
Qed.

End IssueCertEnds.

(** ** Base64: decoding undoes encoding *)

Section Base64RoundTrip.

Import Base64.

Lemma to_Z_range (x : byte) : 0 <= to_Z x < 256.
Proof. destruct x; vm_compute; split; congruence. Qed.

Lemma of_Z_to_Z (x : byte) : of_Z (to_Z x) = x.
Proof. destruct x; reflexivity. Qed.

Lemma lor_shiftl (a b n : Z) :
  0 <= n -> 0 <= b < 2 ^ n -> Z.lor (Z.shiftl a n) b = a * 2 ^ n + b.
Proof.
  intros Hn Hb.
  assert (E : Z.land (Z.shiftl a n) b = 0).
  { apply Z.bits_inj'. intros i Hi.
    rewrite Z.land_spec, Z.bits_0.
    destruct (Z.lt_ge_cases i n) as [Hlt|Hge].
    - now rewrite Z.shiftl_spec_low.
    - rewrite <- (Z.mod_small b (2 ^ n)) by exact Hb.
      rewrite Z.mod_pow2_bits_high by lia. apply andb_false_r. }
  rewrite <- (Z.lxor_lor _ _ E), <- (Z.add_nocarry_lxor _ _ E).
  now rewrite Z.shiftl_mul_pow2.
Qed.

Lemma land_3 (a : Z) : Z.land a 3 = a mod 4.
Proof. exact (Z.land_ones a 2 ltac:(lia)). Qed.

Lemma land_15 (a : Z) : Z.land a 15 = a mod 16.
Proof. exact (Z.land_ones a 4 ltac:(lia)). Qed.

Lemma land_63 (a : Z) : Z.land a 63 = a mod 64.
Proof. exact (Z.land_ones a 6 ltac:(lia)). Qed.

Lemma sextet0_arith (x : Z) : sextet0 x = x / 4.
Proof. unfold sextet0. now rewrite Z.shiftr_div_pow2. Qed.

Lemma sextet1_arith (x y : Z) :
  0 <= y < 256 -> sextet1 x y = x mod 4 * 16 + y / 16.
Proof.
  intros Hy. unfold sextet1.
  rewrite (Z.shiftr_div_pow2 y 4) by lia.
  rewrite land_3.
  rewrite lor_shiftl; [reflexivity | lia |].
  change (2 ^ 4) with 16. Z.div_mod_to_equations; lia.
Qed.

Lemma sextet2_arith (y z : Z) :
  0 <= z < 256 -> sextet2 y z = y mod 16 * 4 + z / 64.
Proof.
  intros Hz. unfold sextet2.
  rewrite (Z.shiftr_div_pow2 z 6) by lia.
  rewrite land_15.
  rewrite lor_shiftl; [reflexivity | lia |].
  change (2 ^ 6) with 64. change (2 ^ 2) with 4. Z.div_mod_to_equations; lia.
Qed.

Lemma sextet3_arith (z : Z) : sextet3 z = z mod 64.
Proof. apply land_63. Qed.

(** What the decoder rebuilds from the groups. *)
Lemma rebuild_first (x y : Z) :
  0 <= x < 256 -> 0 <= y < 256 ->
  Z.lor (Z.shiftl (sextet0 x) 2) (Z.shiftr (sextet1 x y) 4) = x.
Proof.
  intros Hx Hy. rewrite sextet0_arith, sextet1_arith by exact Hy.
  rewrite Z.shiftr_div_pow2 by lia.
  rewrite lor_shiftl; change (2 ^ 2) with 4; change (2 ^ 4) with 16;
    [ | lia | ]; Z.div_mod_to_equations; lia.
Qed.

Lemma rebuild_second (x y z : Z) :
  0 <= y < 256 -> 0 <= z < 256 ->
  Z.lor (Z.shiftl (Z.land (sextet1 x y) 15) 4) (Z.shiftr (sextet2 y z) 2) = y.
Proof.
  intros Hy Hz. rewrite sextet1_arith, sextet2_arith by assumption.
  rewrite Z.shiftr_div_pow2 by lia.
  rewrite land_15.
  rewrite lor_shiftl; change (2 ^ 2) with 4; change (2 ^ 4) with 16;
    [ | lia | ]; Z.div_mod_to_equations; lia.
Qed.

Lemma rebuild_third (y z : Z) :
  0 <= z < 256 ->
  Z.lor (Z.shiftl (Z.land (sextet2 y z) 3) 6) (sextet3 z) = z.
Proof.
  intros Hz. rewrite sextet2_arith, sextet3_arith by assumption.
  rewrite land_3.
  rewrite lor_shiftl; change (2 ^ 2) with 4; change (2 ^ 6) with 64;
    [ | lia | ]; Z.div_mod_to_equations; lia.
Qed.

Lemma sextet_ranges (x y z : Z) :
  0 <= x < 256 -> 0 <= y < 256 -> 0 <= z < 256 ->
  0 <= sextet0 x < 64 /\ 0 <= sextet1 x y < 64
  /\ 0 <= sextet2 y z < 64 /\ 0 <= sextet3 z < 64.
Proof.
  intros Hx Hy Hz.
  rewrite sextet0_arith, sextet1_arith, sextet2_arith, sextet3_arith by assumption.
  repeat split; Z.div_mod_to_equations; lia.
Qed.

End Base64RoundTrip.

Section Base64Alphabet.

Import Base64.

(** A character of the alphabet is no pad character, decodes to its value
    and is ASCII. *)
Lemma table_b2a_spec (s : Z) :
  0 <= s < 64 ->
  table_a2b (table_b2a s) = Some s
  /\ (to_Z (table_b2a s) =? BASE64_PAD) = false
  /\ (to_Z (table_b2a s) <? 128) = true.
Proof.
  intros Hs.
  rewrite <- (Z2Nat.id s) by lia.
  assert (Hn : (Z.to_nat s < 64)%nat) by lia.
  generalize dependent (Z.to_nat s). clear s Hs. intros n Hn.
  do 64 (destruct n as [|n]; [vm_compute; repeat split|]).
  lia.
Qed.

Lemma a2b_loop_char (s : Z) (rest : list byte) (quad_pos leftchar pads : Z)
  (out : list byte) :
  0 <= s < 64 ->
  a2b_loop (table_b2a s :: rest) quad_pos leftchar pads out =
    if quad_pos =? 0 then a2b_loop rest 1 s 0 out
    else if quad_pos =? 1 then
      a2b_loop rest 2 (Z.land s 15) 0
        (of_Z (Z.lor (Z.shiftl leftchar 2) (Z.shiftr s 4)) :: out)
    else if quad_pos =? 2 then
      a2b_loop rest 3 (Z.land s 3) 0
        (of_Z (Z.lor (Z.shiftl leftchar 4) (Z.shiftr s 2)) :: out)
    else
      a2b_loop rest 0 0 0 (of_Z (Z.lor (Z.shiftl leftchar 6) s) :: out).
Proof.
  intros Hs. destruct (table_b2a_spec s Hs) as [E1 [E2 _]].
  cbn [a2b_loop]. rewrite E2, E1. reflexivity.
Qed.

Lemma a2b_loop_pad (rest : list byte) (quad_pos leftchar pads : Z)
  (out : list byte) :
  a2b_loop (pad_byte :: rest) quad_pos leftchar pads out =
    if quad_pos >=? 2 then
      if quad_pos + (pads + 1) >=? 4 then Ok (rev out)
      else a2b_loop rest quad_pos leftchar (pads + 1) out
    else a2b_loop rest quad_pos leftchar pads out.
Proof. reflexivity. Qed.

End Base64Alphabet.

Section Base64Decode.

Import Base64.

Lemma list_ind3 {A} (P : list A -> Prop) :
  P [] -> (forall x, P [x]) -> (forall x y, P [x; y]) ->
  (forall x y z rest, P rest -> P (x :: y :: z :: rest)) ->
  forall l, P l.
Proof.
  intros H0 H1 H2 H3 l.
  assert (H : forall n l, (List.length l <= n)%nat -> P l).
  { clear l. induction n as [|n IH]; intros l Hl.
    - destruct l; [exact H0 | simpl in Hl; lia].
    - destruct l as [|x [|y [|z rest]]]; auto.
      apply H3, IH. simpl in Hl. lia. }
  apply (H (List.length l)). lia.
Qed.

Lemma b64encode_sextets (x y z : byte) (rest : list byte) :
  b64encode (x :: y :: z :: rest) =
    table_b2a (sextet0 (to_Z x)) :: table_b2a (sextet1 (to_Z x) (to_Z y))
    :: table_b2a (sextet2 (to_Z y) (to_Z z)) :: table_b2a (sextet3 (to_Z z))
    :: b64encode rest.
Proof. reflexivity. Qed.

Lemma b64encode_sextets_2 (x y : byte) :
  b64encode [x; y] =
    [table_b2a (sextet0 (to_Z x)); table_b2a (sextet1 (to_Z x) (to_Z y));
     table_b2a (sextet2 (to_Z y) 0); pad_byte].
Proof.
  unfold sextet2. change (Z.shiftr 0 6) with 0. rewrite Z.lor_0_r. reflexivity.
Qed.

Lemma b64encode_sextets_1 (x : byte) :
  b64encode [x] =
    [table_b2a (sextet0 (to_Z x)); table_b2a (sextet1 (to_Z x) 0);
     pad_byte; pad_byte].
Proof.
  unfold sextet1. change (Z.shiftr 0 4) with 0. rewrite Z.lor_0_r. reflexivity.
Qed.

(** The decoder run on encoded text gives the bytes back. *)
Lemma a2b_loop_b64encode (k : list byte) :
  forall out, a2b_loop (b64encode k) 0 0 0 out = Ok (rev out ++ k)%list.
Proof.
  induction k as [|x|x y|x y z rest IH] using list_ind3; intros out.
  - simpl. now rewrite app_nil_r.
  - pose proof (to_Z_range x) as Hx.
    destruct (sextet_ranges (to_Z x) 0 0 Hx ltac:(lia) ltac:(lia))
      as [R0 [R1 _]].
    rewrite b64encode_sextets_1.
    rewrite (a2b_loop_char _ _ _ _ _ _ R0). cbn [Z.eqb].
    rewrite (a2b_loop_char _ _ _ _ _ _ R1). cbn [Z.eqb Pos.eqb].
    rewrite rebuild_first by lia. rewrite of_Z_to_Z.
    rewrite !a2b_loop_pad. reflexivity.
  - pose proof (to_Z_range x) as Hx. pose proof (to_Z_range y) as Hy.
    destruct (sextet_ranges (to_Z x) (to_Z y) 0 Hx Hy ltac:(lia))
      as [R0 [R1 [R2 _]]].
    rewrite b64encode_sextets_2.
    rewrite (a2b_loop_char _ _ _ _ _ _ R0). cbn [Z.eqb].
    rewrite (a2b_loop_char _ _ _ _ _ _ R1). cbn [Z.eqb Pos.eqb].
    rewrite (a2b_loop_char _ _ _ _ _ _ R2). cbn [Z.eqb Pos.eqb].
    rewrite rebuild_first, rebuild_second by lia. rewrite !of_Z_to_Z.
    rewrite a2b_loop_pad. simpl. now rewrite <- app_assoc.
  - pose proof (to_Z_range x) as Hx. pose proof (to_Z_range y) as Hy.
    pose proof (to_Z_range z) as Hz.
    destruct (sextet_ranges (to_Z x) (to_Z y) (to_Z z) Hx Hy Hz)
      as [R0 [R1 [R2 R3]]].
    rewrite b64encode_sextets.
    rewrite (a2b_loop_char _ _ _ _ _ _ R0). cbn [Z.eqb].
    rewrite (a2b_loop_char _ _ _ _ _ _ R1). cbn [Z.eqb Pos.eqb].
    rewrite (a2b_loop_char _ _ _ _ _ _ R2). cbn [Z.eqb Pos.eqb].
    rewrite (a2b_loop_char _ _ _ _ _ _ R3). cbn [Z.eqb Pos.eqb].
    rewrite rebuild_first, rebuild_second, rebuild_third by lia.
    rewrite !of_Z_to_Z, IH. simpl. now rewrite <- !app_assoc.
Qed.

(** The characters of encoded text: of the alphabet, or pads. *)
Lemma b64encode_ascii (k : list byte) :
  forallb (fun c => to_Z c <? 128) (b64encode k) = true.
Proof.
  induction k as [|x|x y|x y z rest IH] using list_ind3.
  - reflexivity.
  - pose proof (to_Z_range x) as Hx.
    destruct (sextet_ranges (to_Z x) 0 0 Hx ltac:(lia) ltac:(lia))
      as [R0 [R1 _]].
    rewrite b64encode_sextets_1. cbn [forallb].
    rewrite (proj2 (proj2 (table_b2a_spec _ R0))),
            (proj2 (proj2 (table_b2a_spec _ R1))). reflexivity.
  - pose proof (to_Z_range x) as Hx. pose proof (to_Z_range y) as Hy.
    destruct (sextet_ranges (to_Z x) (to_Z y) 0 Hx Hy ltac:(lia))
      as [R0 [R1 [R2 _]]].
    rewrite b64encode_sextets_2. cbn [forallb].
    rewrite (proj2 (proj2 (table_b2a_spec _ R0))),
            (proj2 (proj2 (table_b2a_spec _ R1))),
            (proj2 (proj2 (table_b2a_spec _ R2))). reflexivity.
  - pose proof (to_Z_range x) as Hx. pose proof (to_Z_range y) as Hy.
    pose proof (to_Z_range z) as Hz.
    destruct (sextet_ranges (to_Z x) (to_Z y) (to_Z z) Hx Hy Hz)
      as [R0 [R1 [R2 R3]]].
    rewrite b64encode_sextets. cbn [forallb].
    rewrite (proj2 (proj2 (table_b2a_spec _ R0))),
            (proj2 (proj2 (table_b2a_spec _ R1))),
            (proj2 (proj2 (table_b2a_spec _ R2))),
            (proj2 (proj2 (table_b2a_spec _ R3))), IH. reflexivity.
Qed.

Lemma b64decode_b64encode (k : list byte) :
  b64decode (decode_ascii (b64encode k)) = Ok k.
Proof.
  unfold b64decode, is_ascii, decode_ascii, a2b_base64.
  rewrite list_byte_of_string_of_list_byte, b64encode_ascii.
  apply (a2b_loop_b64encode k []).
Qed.

End Base64Decode.

(** ** The signature field of the token *)

Section DigestLength.

Import Sha256.
Local Open Scope list_scope.

Lemma length_be_bytes (n : nat) (x : Z) : List.length (be_bytes n x) = n.
Proof. unfold be_bytes. now rewrite length_map, length_rev, length_seq. Qed.

Lemma length_compress (h block : list Z) :
  List.length h = 8%nat -> List.length (compress h block) = 8%nat.
Proof.
  intros Hh. unfold compress.
  rewrite length_map, length_combine, Hh. reflexivity.
Qed.

Lemma length_fold_compress (bs : list (list Z)) :
  forall h, List.length h = 8%nat ->
  List.length (fold_left compress bs h) = 8%nat.
Proof.
  induction bs as [|b bs IH]; intros h Hh; simpl; [exact Hh|].
  apply IH, length_compress, Hh.
Qed.

Lemma length_flat_be_bytes (l : list Z) :
  List.length (flat_map (be_bytes 4) l) = (4 * List.length l)%nat.
Proof.
  induction l as [|x l IH]; [reflexivity|].
  cbn [flat_map]. rewrite length_app, length_be_bytes, IH. simpl. lia.
Qed.

(** A SHA-256 digest has 32 bytes, and so has an HMAC-SHA256. *)
Lemma length_sha256 (msg : list byte) : List.length (sha256 msg) = 32%nat.
Proof.
  unfold sha256, sha256_Z. rewrite length_map, length_flat_be_bytes.
  rewrite length_fold_compress; reflexivity.
Qed.

Lemma length_hmac_sha256 (key msg : list byte) :
  List.length (hmac_sha256 key msg) = 32%nat.
Proof. unfold hmac_sha256. apply length_sha256. Qed.

End DigestLength.

Section SignatureShape.

Import Base64.
Local Open Scope list_scope.

Lemma string_of_list_byte_app (a b : list byte) :
  string_of_list_byte (a ++ b)
  = (string_of_list_byte a ++ string_of_list_byte b)%string.
Proof.
  unfold string_of_list_byte.
  induction a as [|x a IH]; simpl; [reflexivity | now rewrite IH].
Qed.

Lemma length_string_of_list_byte (l : list byte) :
  String.length (string_of_list_byte l) = List.length l.
Proof.
  unfold string_of_list_byte.
  induction l as [|x l IH]; simpl; [reflexivity | now rewrite IH].
Qed.

(** [quote_plus] on the characters of encoded text: a letter or a digit
    stays, and [+], [/] and the pad become escapes. *)
Lemma quote_byte_alphabet (s : Z) :
  0 <= s < 64 ->
  forallb url_safe_byte (Url.quote_byte (table_b2a s)) = true.
Proof.
  intros Hs.
  rewrite <- (Z2Nat.id s) by lia.
  assert (Hn : (Z.to_nat s < 64)%nat) by lia.
  generalize dependent (Z.to_nat s). clear s Hs. intros n Hn.
  do 64 (destruct n as [|n]; [vm_compute; reflexivity|]).
  lia.
Qed.

Lemma quote_byte_pad :
  Url.quote_byte pad_byte = list_byte_of_string "%3D".
Proof. reflexivity. Qed.

Lemma quote_plus_encoded (k : list byte) :
  forallb url_safe_byte (flat_map Url.quote_byte (b64encode k)) = true.
Proof.
  induction k as [|x|x y|x y z rest IH] using list_ind3.
  - reflexivity.
  - pose proof (to_Z_range x) as Hx.
    destruct (sextet_ranges (to_Z x) 0 0 Hx ltac:(lia) ltac:(lia))
      as [R0 [R1 _]].
    rewrite b64encode_sextets_1. cbn [flat_map]. rewrite !forallb_app.
    rewrite (quote_byte_alphabet _ R0), (quote_byte_alphabet _ R1).
    reflexivity.
  - pose proof (to_Z_range x) as Hx. pose proof (to_Z_range y) as Hy.
    destruct (sextet_ranges (to_Z x) (to_Z y) 0 Hx Hy ltac:(lia))
      as [R0 [R1 [R2 _]]].
    rewrite b64encode_sextets_2. cbn [flat_map]. rewrite !forallb_app.
    rewrite (quote_byte_alphabet _ R0), (quote_byte_alphabet _ R1),
            (quote_byte_alphabet _ R2).
    reflexivity.
  - pose proof (to_Z_range x) as Hx. pose proof (to_Z_range y) as Hy.
    pose proof (to_Z_range z) as Hz.
    destruct (sextet_ranges (to_Z x) (to_Z y) (to_Z z) Hx Hy Hz)
      as [R0 [R1 [R2 R3]]].
    rewrite b64encode_sextets. cbn [flat_map]. rewrite !forallb_app.
    rewrite (quote_byte_alphabet _ R0), (quote_byte_alphabet _ R1),
            (quote_byte_alphabet _ R2), (quote_byte_alphabet _ R3), IH.
    reflexivity.
Qed.

(** Encoded text has four characters for every three bytes begun, and ends
    with a pad unless the number of bytes is a multiple of three. *)
Lemma length_b64encode (k : list byte) :
  Z.of_nat (List.length (b64encode k)) = 4 * ((Z.of_nat (List.length k) + 2) / 3).
Proof.
  induction k as [|x|x y|x y z rest IH] using list_ind3; try reflexivity.
  rewrite b64encode_sextets.
  cbn [List.length]. rewrite !Nat2Z.inj_succ, IH.
  Z.div_mod_to_equations; lia.
Qed.

Lemma b64encode_ends_with_pad (k : list byte) :
  Z.of_nat (List.length k) mod 3 <> 0 ->
  exists body, b64encode k = body ++ [pad_byte].
Proof.
  induction k as [|x|x y|x y z rest IH] using list_ind3; intros H.
  - now destruct H.
  - now eexists [_; _; _].
  - now eexists [_; _; _].
  - destruct IH as [body Hb].
    + cbn [List.length] in H. rewrite !Nat2Z.inj_succ in H.
      revert H. Z.div_mod_to_equations; lia.
    + rewrite b64encode_sextets, Hb. now eexists (_ :: _ :: _ :: _ :: body).
Qed.

Lemma signature_text_shape (uri : string) (decoded_key : list byte) (ttl : Z) :
  exists b64 : string,
    signature_text uri decoded_key ttl = Url.quote_plus b64 /\
    String.length b64 = 44%nat /\
    (exists body, Url.quote_plus b64 = (body ++ "%3D")%string) /\
    forallb url_safe_byte (list_byte_of_string (Url.quote_plus b64)) = true.
Proof.
  unfold signature_text.
  set (digest := Sha256.hmac_sha256 decoded_key _).
  assert (Hlen : List.length digest = 32%nat) by apply length_hmac_sha256.
  exists (decode_ascii (b64encode digest)).
  split; [reflexivity|]. split; [|split].
  - unfold decode_ascii. rewrite length_string_of_list_byte.
    apply Nat2Z.inj. rewrite length_b64encode, Hlen. reflexivity.
  - destruct (b64encode_ends_with_pad digest) as [body Hb].
    { rewrite Hlen. discriminate. }
    exists (string_of_list_byte (flat_map Url.quote_byte body)).
    unfold Url.quote_plus, decode_ascii.
    rewrite list_byte_of_string_of_list_byte, Hb, flat_map_app.
    rewrite string_of_list_byte_app. reflexivity.
  - unfold Url.quote_plus, decode_ascii.
    rewrite !list_byte_of_string_of_list_byte. apply quote_plus_encoded.
Qed.

End SignatureShape.

Section TokenKey.

Import CredentialTest.

(** X5: a key that is the Base64 text of the bytes [k] decodes to exactly
    [k], and the token [generate_sas_token] returns for it is the one signed
    under [k]; nothing is printed and the world stays as it was.  The token
    is returned whenever [int(time.time() + expiry)] is computed, as it is
    for every expiry of fewer than 54 bits; otherwise the exception of the
    sum leaves the function. *)
Lemma sas_token_key_round_trip (uri : string) (k : list byte)
  (policy_name : option string) (expiry : Z) (w : world) :
  Base64.b64decode (decode_ascii (Base64.b64encode k)) = Ok k /\
  generate_sas_token uri (decode_ascii (Base64.b64encode k)) policy_name
    expiry w
  = (match expiry_epoch (now w) expiry with
     | Ok ttl => Ok (token_text uri (signature_text uri k ttl) ttl policy_name)
     | Raise o => Raise o
     end, w) /\
  (Z.abs expiry < 2 ^ 53 -> exists ttl, expiry_epoch (now w) expiry = Ok ttl).
Proof.
  split; [apply b64decode_b64encode|]. split.
  - destruct (expiry_epoch (now w) expiry) as [ttl|o] eqn:Ht.
    + apply generate_sas_token_decoded; [exact Ht | apply b64decode_b64encode].
    + now apply generate_sas_token_overflow.
  - intros He. eexists. now apply expiry_epoch_small.
Qed.

(** X6: for a key that decodes, the [sig] field of the token is the
    URL-encoding of a Base64 text of 44 characters (the digest has 32 bytes):
    it ends with the escaped pad "%3D" and holds nothing but letters, digits
    and the percent signs of escapes.  That is so of every token returned; no
    token is returned only where [int(time.time() + expiry)] raises. *)
Lemma sas_signature_shape (uri key : string) (policy_name : option string)
  (expiry : Z) (w : world) (decoded_key : list byte) :
  Base64.b64decode key = Ok decoded_key ->
  match expiry_epoch (now w) expiry with
  | Ok ttl =>
      exists b64 : string,
        fst (generate_sas_token uri key policy_name expiry w)
        = Ok (token_text uri (Url.quote_plus b64) ttl policy_name) /\
        String.length b64 = 44%nat /\
        (exists body, Url.quote_plus b64 = body ++ "%3D") /\
        forallb url_safe_byte (list_byte_of_string (Url.quote_plus b64)) = true
  | Raise o => fst (generate_sas_token uri key policy_name expiry w) = Raise o
  end.
Proof.
  intros Hk.
  destruct (expiry_epoch (now w) expiry) as [ttl|o] eqn:Ht.
  - destruct (signature_text_shape uri decoded_key ttl)
      as [b64 [E [Hlen [Hend Hsafe]]]].
    exists b64.
    rewrite (generate_sas_token_decoded _ _ _ _ _ decoded_key ttl Ht Hk).
    cbn [fst]. rewrite E. auto.
  - now rewrite (generate_sas_token_overflow _ _ _ _ _ o Ht).
Qed.

Lemma sas_signature_shape_witness :
  exists b64 : string,
    fst (generate_sas_token "myhub.azure-devices.net" "c2VjcmV0"
           (Some "iothubowner") 3600 quiet_world)
    = Ok (token_text "myhub.azure-devices.net" (Url.quote_plus b64)
            1700003600 (Some "iothubowner")) /\
    String.length b64 = 44%nat /\
    (exists body, Url.quote_plus b64 = body ++ "%3D") /\
    forallb url_safe_byte (list_byte_of_string (Url.quote_plus b64)) = true.
Proof.
  assert (Hk : Base64.b64decode "c2VjcmV0" = Ok (list_byte_of_string "secret"))
    by (vm_compute; reflexivity).
  assert (Ht : expiry_epoch (now quiet_world) 3600 = Ok 1700003600)
    by (vm_compute; reflexivity).
  pose proof (sas_signature_shape "myhub.azure-devices.net" "c2VjcmV0"
                (Some "iothubowner") 3600 quiet_world
                (list_byte_of_string "secret") Hk) as H.
  rewrite Ht in H. exact H.
Defined.

End TokenKey.

(** ** Topics: splitting and joining *)

Section Topics.

Lemma concat_cons (sep x : string) (l : list string) :
  l <> [] -> String.concat sep (x :: l) = x ++ sep ++ String.concat sep l.
Proof. destruct l; [congruence | reflexivity]. Qed.

(** Joining the segments of a string gives the string back. *)
Lemma join_split (s : string) : join_slash (split s slash) = s.
Proof.
  unfold join_slash. induction s as [|c s IH]; [reflexivity|].
  cbn [split]. destruct (Ascii.eqb c slash) eqn:E.
  - apply Ascii.eqb_eq in E. subst c.
    rewrite concat_cons by apply split_nonempty. now rewrite IH.
  - pose proof (split_nonempty s slash) as Hne.
    destruct (split s slash) as [|h t]; [congruence|].
    destruct t as [|h' t].
    + simpl in *. now rewrite IH.
    + rewrite concat_cons by discriminate.
      rewrite concat_cons in IH by discriminate.
      rewrite <- IH. reflexivity.
Qed.

(** No segment holds a slash. *)
Lemma split_no_slash (s : string) : forallb no_slash (split s slash) = true.
Proof.
  induction s as [|c s IH]; [reflexivity|].
  cbn [split]. destruct (Ascii.eqb c slash) eqn:E.
  - cbn [forallb]. now rewrite IH.
  - pose proof (split_nonempty s slash) as Hne.
    destruct (split s slash) as [|h t]; [congruence|].
    cbn [forallb] in *. apply andb_true_iff in IH. destruct IH as [Hh Ht].
    rewrite Ht, andb_true_r. unfold no_slash in *. simpl. now rewrite E, Hh.
Qed.

Lemma split_segment (a s : string) :
  no_slash a = true -> split (a ++ "/" ++ s) slash = a :: split s slash.
Proof.
  unfold no_slash. induction a as [|c a IH]; intros H; [reflexivity|].
  simpl in H. apply andb_true_iff in H. destruct H as [Hc Ha].
  apply negb_true_iff in Hc.
  simpl. rewrite Hc.
  change (split (a ++ String "/" s) slash) with (split (a ++ "/" ++ s) slash).
  now rewrite (IH Ha).
Qed.

Lemma split_last (a : string) : no_slash a = true -> split a slash = [a].
Proof.
  unfold no_slash. induction a as [|c a IH]; intros H; [reflexivity|].
  simpl in H. apply andb_true_iff in H. destruct H as [Hc Ha].
  apply negb_true_iff in Hc. simpl. now rewrite Hc, (IH Ha).
Qed.

(** Splitting the join of slash-free segments gives the segments back. *)
Lemma split_join (l : list string) :
  l <> [] -> forallb no_slash l = true -> split (join_slash l) slash = l.
Proof.
  unfold join_slash. induction l as [|x l IH]; intros Hne H; [congruence|].
  cbn [forallb] in H. apply andb_true_iff in H. destruct H as [Hx Hl].
  destruct l as [|y l].
  - now apply split_last.
  - rewrite concat_cons by discriminate.
    rewrite (split_segment _ _ Hx), IH; [reflexivity | discriminate | exact Hl].
Qed.

(** X7: on topics, splitting on [/] and joining with [/] undo each other,
    and the topics a scenario accepts are exactly those of the form
    [a/b/c/202] or [a/b/c/202/...]: segment 3 is the text [202], the three
    segments before it are arbitrary (empty ones included), and any
    segments may follow.  The payload plays no part. *)
Lemma validate_response_accepts_exactly :
  (forall s : string, join_slash (split s slash) = s) /\
  (forall l : list string,
      l <> [] -> forallb no_slash l = true -> split (join_slash l) slash = l) /\
  (forall (self : scenario) (topic payload : string),
      success (validate_response self topic payload) = Some true <->
      exists a b c rest,
        forallb no_slash (a :: b :: c :: rest) = true /\
        topic = join_slash (a :: b :: c :: "202" :: rest)).
Proof.
  split; [exact join_split|]. split; [exact split_join|].
  intros self topic payload. split.
  - intros H.
    destruct (segment_3_or_short topic) as [[seg Hseg]|Hshort].
    + rewrite (validate_response_on_segment self topic payload seg Hseg) in H.
      injection H as H. apply String.eqb_eq in H. subst seg.
      pose proof (join_split topic) as Hj.
      pose proof (split_no_slash topic) as Hn.
      destruct (split topic slash) as [|a [|b [|c [|d rest]]]]; try discriminate.
      injection Hseg as ->.
      exists a, b, c, rest. split; [|now rewrite Hj].
      cbn [forallb] in *.
      repeat match goal with
             | H : _ && _ = true |- _ =>
                 apply andb_true_iff in H; destruct H
             end.
      repeat (apply andb_true_iff; split); assumption.
    + unfold validate_response in H.
      destruct (cls self);
        [rewrite (happy_path_short self topic payload Hshort) in H
        |rewrite (disconnect_reconnect_short self topic payload Hshort) in H];
        discriminate.
  - intros [a [b [c [rest [Hn ->]]]]].
    apply (validate_response_on_segment self _ payload "202").
    rewrite split_join; [reflexivity | discriminate |].
    cbn [forallb] in *.
    apply andb_true_iff in Hn. destruct Hn as [Ha Hn].
    apply andb_true_iff in Hn. destruct Hn as [Hb Hn].
    apply andb_true_iff in Hn. destruct Hn as [Hc Hr].
    rewrite Ha, Hb, Hc, Hr. reflexivity.
Qed.

End Topics.

(** ** What a run does to the client

    The frame reasoning of above, for relations that say which actions
    were logged. *)

Section LogsOnly.

Variable ok : effect -> Prop.

Lemma logs_only_refl (w : world) : logs_only ok w w.
Proof. exists []. split; [reflexivity | constructor]. Qed.

Lemma logs_only_trans (a b c : world) :
  logs_only ok a b -> logs_only ok b c -> logs_only ok a c.
Proof.
  intros [l1 [E1 F1]] [l2 [E2 F2]]. exists (l2 ++ l1)%list. split.
  - now rewrite E2, E1, app_assoc.
  - apply Forall_app. now split.
Qed.

Lemma logs_only_same (w w' : world) : trace w' = trace w -> logs_only ok w w'.
Proof. intros H. exists []. split; [exact H | constructor]. Qed.

Lemma logs_only_log (e : effect) : ok e -> keeps (logs_only ok) (log e).
Proof.
  intros He w. eexists [_]. split; [reflexivity|].
  constructor; [exact He | constructor].
Qed.

Lemma logs_only_modify (f : world -> world) :
  (forall w, trace (f w) = trace w) -> keeps (logs_only ok) (modify f).
Proof. intros H w. apply logs_only_same, H. Qed.

Lemma logs_only_randint (a b : Z) : keeps (logs_only ok) (Sys.randint a b).
Proof.
  intros w. unfold Sys.randint. destruct (entropy w); now apply logs_only_same.
Qed.

Lemma logs_only_handshake : keeps (logs_only ok) Client.handshake.
Proof.
  intros w. unfold Client.handshake.
  destruct (connect_results w) as [|[]]; now apply logs_only_same.
Qed.

Lemma logs_only_publish_result : keeps (logs_only ok) Client.publish_result.
Proof.
  intros w. unfold Client.publish_result.
  destruct (publish_results w); now apply logs_only_same.
Qed.

Lemma logs_only_tick_step (handler : net_event -> M unit) :
  (forall ev, keeps (logs_only ok) (handler ev)) ->
  keeps (logs_only ok) (Client.tick_step handler).
Proof.
  intros H w. unfold Client.tick_step.
  destruct (ticks w) as [|t rest]; [apply logs_only_refl|].
  assert (G : logs_only ok w
                (Client.deliver handler (arrivals t) (set_ticks rest w))).
  { apply (logs_only_trans _ (set_ticks rest w)); [now apply logs_only_same|].
    apply (keeps_deliver (logs_only ok) logs_only_refl logs_only_trans);
      [|exact H].
    intros w0. now apply logs_only_same. }
  destruct (interrupt t); exact G.
Qed.

Lemma logs_only_sleep (handler : net_event -> M unit) (d : Q) :
  ok (Sleep d) ->
  (forall ev, keeps (logs_only ok) (handler ev)) ->
  keeps (logs_only ok) (Client.sleep handler d).
Proof.
  intros Hd H. unfold Client.sleep.
  apply (keeps_bind _ logs_only_trans); [now apply logs_only_log|]. intros _.
  apply (keeps_bind _ logs_only_trans);
    [apply logs_only_modify; reflexivity|]. intros _.
  now apply logs_only_tick_step.
Qed.

End LogsOnly.

Lemma logs_only_weaken (ok ok' : effect -> Prop) (w w' : world) :
  (forall e, ok e -> ok' e) -> logs_only ok w w' -> logs_only ok' w w'.
Proof.
  intros H [l [E F]]. exists l. split; [exact E|].
  eapply Forall_impl; [|exact F]. intros e. apply H.
Qed.

Lemma keeps_weaken (ok ok' : effect -> Prop) {A} (m : M A) :
  (forall e, ok e -> ok' e) -> keeps (logs_only ok) m -> keeps (logs_only ok') m.
Proof. intros H Hm w. exact (logs_only_weaken ok ok' _ _ H (Hm w)). Qed.

Lemma callback_is_run_effect (host : string) (port : Z) (sub pub payload : string)
  (u : bool) (e : effect) :
  callback_effect sub pub payload u e -> run_effect host port sub pub payload u e.
Proof. destruct e; simpl; tauto. Qed.

(** The recurring steps of a proof that a computation keeps a relation
    between worlds: the computation is split along its binds, branches and
    loops; [refl] and [trans] prove the relation reflexive and transitive, and
    [leaf] deals with the primitive steps and the calls of the script. *)
Ltac frame_steps refl trans leaf :=
  repeat first
    [ lazymatch goal with
      | |- keeps _ (Sys.while_ _ _ _) => apply keeps_while; [ refl | trans | | ]
      end
    | leaf
    | lazymatch goal with
      | |- keeps _ (ret _) => apply keeps_ret; refl
      | |- keeps _ (raise _) => apply keeps_raise; refl
      | |- keeps _ (lift _) => apply keeps_lift; refl
      | |- keeps _ (get _) => apply keeps_get; refl
      | |- keeps _ (bind _ _) => apply keeps_bind; [ trans | | intros ? ]
      | |- keeps _ (if ?b then _ else _) => destruct b eqn:?
      | |- keeps _ (match ?x with _ => _ end) => destruct x eqn:?
      end ].

Ltac only_leaf :=
  lazymatch goal with
  | |- keeps _ (log _) =>
      apply logs_only_log; solve [simpl; auto | reflexivity | exact I]
  | |- keeps _ (modify _) =>
      apply logs_only_modify; solve [intros ?; reflexivity]
  | |- keeps _ (Sys.randint _ _) => apply logs_only_randint
  | |- keeps _ Client.handshake => apply logs_only_handshake
  | |- keeps _ Client.publish_result => apply logs_only_publish_result
  end.

Ltac only_with leaf :=
  frame_steps ltac:(apply logs_only_refl) ltac:(apply logs_only_trans)
    ltac:(first [ leaf | only_leaf ]).

Ltac only_these := only_with fail.

Section ScriptLogs.

Variable environ : string -> option string.
Variable json_dumps : list (string * string) -> string.
Variable decode_replace : list byte -> string.

Lemma logs_dispatch (s : scenario) (u : bool) (ev : net_event) :
  disconnect_after_publish s = u ->
  keeps
    (logs_only
       (callback_effect (subscribe_topic s) (str_of_option (publish_topic s))
          (payload_json json_dumps s) u))
    (CredentialTest.dispatch environ json_dumps decode_replace s ev).
Proof.
  intros <-.
  destruct ev; unfold CredentialTest.dispatch, CredentialTest.on_connect,
    CredentialTest.on_subscribe, CredentialTest.on_publish,
    CredentialTest.on_message, CredentialTest.on_disconnect,
    Client.publish, Client.disconnect, Client.subscribe, Client.unsubscribe,
    Sys.print, Sys.sys_exit, payload_json.
  all: only_these.
Qed.

End ScriptLogs.

Lemma logs_only_history (ok : effect -> Prop) (w w' : world) :
  logs_only ok w w' ->
  exists new, history w' = (history w ++ new)%list /\ Forall ok new.
Proof.
  intros [l [E F]]. exists (rev (map eff l)). split.
  - unfold history. now rewrite E, map_app, rev_app_distr.
  - apply Forall_rev. apply Forall_map. exact F.
Qed.

Section Targets.

Variable environ : string -> option string.
Variable json_dumps : list (string * string) -> string.
Variable decode_replace : list byte -> string.

Lemma randint_range (a b : Z) (w : world) :
  a <= b ->
  exists r, Sys.randint a b w = (Ok r, snd (Sys.randint a b w))
            /\ a <= r <= b /\ trace (snd (Sys.randint a b w)) = trace w.
Proof.
  intros Hab. unfold Sys.randint. destruct (entropy w) as [|r rest].
  - exists a. repeat split; simpl; lia.
  - exists (a + r mod (b - a + 1)). repeat split; simpl;
      pose proof (Z.mod_pos_bound r (b - a + 1) ltac:(lia)); lia.
Qed.

Lemma instantiate_well_formed (c : scenario_class) (w : world) :
  exists s,
    fst (CredentialTest.instantiate environ c w) = Ok s
    /\ trace (snd (CredentialTest.instantiate environ c w)) = trace w
    /\ well_formed (CredentialTest.CLIENT_ID environ) c s.
Proof.
  destruct (randint_range 1 99999999 w ltac:(lia)) as [r [Er [Hr Ht]]].
  destruct c;
    unfold CredentialTest.instantiate, CredentialTest.HappyPathScenario_init,
      CredentialTest.DisconnectReconnectScenario_init,
      CredentialTest.MQTTTestScenario_init, bind, ret;
    rewrite Er; cbn [fst snd];
    eexists; (split; [reflexivity|]); (split; [exact Ht|]);
    repeat split; cbn; lia.
Qed.

Lemma logs_run_sleep (s : scenario) (u : bool) (d : Q) :
  disconnect_after_publish s = u ->
  keeps (logs_only (whole_run environ json_dumps s u))
    (Client.sleep
       (CredentialTest.dispatch environ json_dumps decode_replace s) d).
Proof.
  intros Hu. apply logs_only_sleep; [exact I|]. intros ev.
  apply (keeps_weaken
           (callback_effect (subscribe_topic s)
              (str_of_option (publish_topic s)) (payload_json json_dumps s) u));
    [apply callback_is_run_effect|].
  now apply logs_dispatch.
Qed.

Lemma logs_run_connected (s : scenario) (u : bool) :
  disconnect_after_publish s = u ->
  keeps (logs_only (whole_run environ json_dumps s u))
    (CredentialTest.run_connected environ json_dumps decode_replace s).
Proof.
  intros Hu.
  unfold CredentialTest.run_connected, CredentialTest.wait_for_disconnect,
    CredentialTest.wait_for_response, Client.loop_start, Client.loop_stop,
    Client.connect, Client.disconnect, Client.is_connected, Sys.time_time,
    Sys.print.
  only_with ltac:(idtac; lazymatch goal with
                    | |- keeps _ (Client.sleep _ _) =>
                        apply logs_run_sleep; congruence
                    end).
Qed.

Lemma logs_try_run_body (s : scenario) (u : bool) :
  disconnect_after_publish s = u ->
  keeps (logs_only (whole_run environ json_dumps s u))
    (try_except
       (CredentialTest.run_body environ json_dumps decode_replace s)
       CredentialTest.run_handler).
Proof.
  intros Hu.
  apply keeps_try_except; [apply logs_only_trans | |].
  - unfold CredentialTest.run_body, Client.connect, Sys.print.
    only_with ltac:(idtac; lazymatch goal with
                      | |- keeps _ (CredentialTest.run_connected _ _ _ _) =>
                          apply logs_run_connected; congruence
                      end).
  - unfold CredentialTest.run_handler, Client.disconnect, Client.loop_stop,
      Sys.print, Sys.sys_exit.
    intros e h. destruct e; simpl; intros H; inversion H; subst; only_these.
Qed.

Lemma logs_setup_only (use_cert_auth : bool) :
  keeps (logs_only setup_effect)
    (if use_cert_auth then CredentialTest.setup_certificate_auth environ
     else CredentialTest.setup_sas_auth environ).
Proof.
  destruct use_cert_auth.
  - unfold CredentialTest.setup_certificate_auth, Sys.print. only_these.
  - unfold CredentialTest.setup_sas_auth, CredentialTest.generate_sas_token,
      Sys.print, Sys.sys_exit, Sys.time_time.
    only_with ltac:(idtac; lazymatch goal with
                    | |- keeps _ (try_except _ _) =>
                        apply keeps_try_except;
                        [ apply logs_only_trans
                        | 
                        | intros e h; destruct (is_Exception e);
                          [|discriminate]; intros H; inversion H ]
                    end).
Qed.

Lemma logs_setup (s : scenario) (u use_cert_auth : bool) :
  keeps (logs_only (whole_run environ json_dumps s u))
    (if use_cert_auth then CredentialTest.setup_certificate_auth environ
     else CredentialTest.setup_sas_auth environ).
Proof.
  eapply keeps_weaken; [|apply logs_setup_only].
  intros e. destruct e; simpl; tauto.
Qed.

End Targets.

Section TargetsOfRuns.

Variable environ : string -> option string.
Variable PAHO_MQTT_VERSION : string.
Variable json_dumps : list (string * string) -> string.
Variable decode_replace : list byte -> string.

Lemma logs_issue_dispatch (ud : IssueCert.userdata) (ev : net_event) :
  keeps
    (logs_only
       (callback_effect (IssueCert.ud_subscribe_topic ud)
          (IssueCert.ud_publish_topic ud) (IssueCert.ud_payload ud) false))
    (IssueCert.dispatch decode_replace ud ev).
Proof.
  destruct ev; unfold IssueCert.dispatch, IssueCert.on_connect,
    IssueCert.on_subscribe, IssueCert.on_publish,
    IssueCert.on_message, IssueCert.on_disconnect,
    Client.publish, Client.disconnect, Client.subscribe, Client.unsubscribe,
    Sys.print, Sys.sys_exit.
  all: only_these.
Qed.

Lemma logs_issue_sleep (host : string) (port : Z) (ud : IssueCert.userdata)
  (d : Q) :
  keeps
    (logs_only
       (run_effect host port (IssueCert.ud_subscribe_topic ud)
          (IssueCert.ud_publish_topic ud) (IssueCert.ud_payload ud) false))
    (Client.sleep (IssueCert.dispatch decode_replace ud) d).
Proof.
  apply logs_only_sleep; [exact I|]. intros ev.
  apply (keeps_weaken
           (callback_effect (IssueCert.ud_subscribe_topic ud)
              (IssueCert.ud_publish_topic ud) (IssueCert.ud_payload ud) false));
    [apply callback_is_run_effect | apply logs_issue_dispatch].
Qed.

Lemma logs_issue_try (a : IssueCert.args) (ud : IssueCert.userdata) :
  keeps
    (logs_only
       (run_effect (IssueCert.arg_host a) (IssueCert.arg_port a)
          (IssueCert.ud_subscribe_topic ud)
          (IssueCert.ud_publish_topic ud) (IssueCert.ud_payload ud) false))
    (try_except (IssueCert.main_body decode_replace a ud)
       IssueCert.main_handler).
Proof.
  apply keeps_try_except; [apply logs_only_trans | |].
  - unfold IssueCert.main_body, IssueCert.wait_for_response, Client.connect,
      Client.loop_start, Client.loop_stop, Client.disconnect, Sys.print,
      Sys.sys_exit, Sys.time_time.
    only_with ltac:(idtac; lazymatch goal with
                    | |- keeps _ (Client.sleep _ _) => apply logs_issue_sleep
                    end).
  - unfold IssueCert.main_handler, Client.disconnect, Client.loop_stop,
      Sys.print, Sys.sys_exit.
    intros e h. destruct e; simpl; intros H; inversion H; subst; only_these.
Qed.

(** X8: whatever the broker sends, a run of [run_scenario] and a run of
    [main] of [mqtt_issue_cert.py] touch nothing but their own targets: they
    connect to their host and port with keepalive 60, subscribe with QoS 1
    to [$iothub/credentials/res/#], and publish with QoS 1 the one JSON
    request to [$iothub/credentials/POST/issueCertificate/?$rid=<rid>], for
    one request identifier between 1 and 99999999.  Only a scenario that
    disconnects after publishing unsubscribes, and from that same filter. *)
Lemma runs_stay_on_target :
  (forall (c : scenario_class) (use_cert_auth : bool) (w : world),
      exists rid new,
        1 <= rid <= 99999999 /\
        history (snd (CredentialTest.run_scenario environ json_dumps
                        decode_replace c use_cert_auth w))
        = (history w ++ new)%list /\
        Forall
          (run_effect (CredentialTest.HOST environ) 8883
             response_topic_filter (request_topic rid)
             (json_dumps [("id", CredentialTest.CLIENT_ID environ);
                          ("csr", "TU9DSyBDU1I=")])
             (reconnects c))
          new) /\
  (forall (a : IssueCert.args) (w : world),
      exists rid new,
        1 <= rid <= 99999999 /\
        history (snd (IssueCert.main PAHO_MQTT_VERSION json_dumps
                        decode_replace a w))
        = (history w ++ new)%list /\
        Forall
          (run_effect (IssueCert.arg_host a) (IssueCert.arg_port a)
             response_topic_filter (request_topic rid)
             (json_dumps [("id", IssueCert.arg_device a);
                          ("csr", IssueCert.arg_csr a)])
             false)
          new).
Proof.
  split.
  - intros c use_cert_auth w.
    unfold CredentialTest.run_scenario.
    set (w0 := set_response_received false w).
    change (bind (modify (set_response_received false)) ?k w) with (k tt w0).
    cbv beta.
    destruct (instantiate_well_formed environ c w0) as [s [Es [Et Hwf]]].
    destruct Hwf as [_ [_ [_ [Hrid [Hsub [Hpub [Hpay [Hdap _]]]]]]]].
    unfold bind at 1.
    destruct (CredentialTest.instantiate environ c w0) as [r w1].
    cbn [fst snd] in Es, Et. subst r.
    exists (request_id s).
    match goal with
    | |- context [snd (?k w1)] =>
        assert (K : keeps (logs_only
                             (whole_run environ json_dumps s (reconnects c))) k)
    end.
    { unfold Sys.print.
      only_with ltac:(idtac; lazymatch goal with
                      | |- keeps _ (try_except _ _) =>
                          apply logs_try_run_body; exact Hdap
                      | |- keeps _ (if use_cert_auth then _ else _) =>
                          apply logs_setup
                      end). }
    destruct (logs_only_history _ _ _ (K w1)) as [new [Hh Hnew]].
    exists new. split; [exact Hrid|]. split.
    + rewrite Hh. unfold history. now rewrite Et.
    + unfold whole_run, payload_json in Hnew.
      rewrite Hsub, Hpub, Hpay in Hnew. exact Hnew.
  - intros a w. unfold IssueCert.main.
    destruct (randint_range 1 99999999 w ltac:(lia)) as [r [Er [Hr Ht]]].
    unfold bind at 1. rewrite Er.
    set (w1 := snd (Sys.randint 1 99999999 w)) in *.
    exists r. cbv zeta.
    match goal with
    | |- context [snd (?k w1)] =>
        assert (K : keeps
                      (logs_only
                         (run_effect (IssueCert.arg_host a) (IssueCert.arg_port a)
                            response_topic_filter (request_topic r)
                            (json_dumps [("id", IssueCert.arg_device a);
                                         ("csr", IssueCert.arg_csr a)])
                            false)) k)
    end.
    { unfold Sys.print.
      only_with ltac:(idtac; lazymatch goal with
                      | |- keeps _ (try_except _ _) => apply (logs_issue_try a)
                      end). }
    destruct (logs_only_history _ _ _ (K w1)) as [new [Hh Hnew]].
    exists new. split; [exact Hr|]. split; [|exact Hnew].
    rewrite Hh. unfold history. now rewrite Ht.
Qed.

End TargetsOfRuns.

(** ** Counting the calls of [connect] *)

Section CountingConnects.

Lemma connect_calls_app (l1 l2 : list effect) :
  connect_calls (l1 ++ l2) = (connect_calls l1 + connect_calls l2)%nat.
Proof. unfold connect_calls. now rewrite filter_app, length_app. Qed.

Lemma connect_calls_rev (l : list effect) :
  connect_calls (rev l) = connect_calls l.
Proof.
  induction l as [|e l IH]; [reflexivity|].
  simpl. rewrite connect_calls_app, IH. unfold connect_calls. simpl.
  destruct (is_connect e); simpl; lia.
Qed.

Lemma no_connect_calls (l : list entry) :
  Forall (fun e => no_connect (eff e)) l -> connect_calls (map eff l) = 0%nat.
Proof.
  induction 1 as [|e l He _ IH]; [reflexivity|].
  unfold connect_calls in *. simpl. rewrite He. exact IH.
Qed.

Lemma connects_none {A} (m : M A) :
  keeps (logs_only no_connect) m -> keeps (connects_at_most 0) m.
Proof.
  intros H w. destruct (H w) as [l [E F]]. exists l. split; [exact E|].
  now rewrite no_connect_calls.
Qed.

Lemma connects_more (n n' : nat) {A} (m : M A) :
  (n <= n')%nat -> keeps (connects_at_most n) m -> keeps (connects_at_most n') m.
Proof.
  intros Hn H w. destruct (H w) as [l [E F]]. exists l. split; [exact E | lia].
Qed.

Lemma connects_bind (n k : nat) {A B} (m : M A) (f : A -> M B) :
  keeps (connects_at_most n) m -> (forall a, keeps (connects_at_most k) (f a)) ->
  keeps (connects_at_most (n + k)) (bind m f).
Proof.
  intros Hm Hf w. unfold bind. destruct (Hm w) as [l1 [E1 F1]].
  destruct (m w) as [[a|e] w1]; cbn [snd] in *.
  - destruct (Hf a w1) as [l2 [E2 F2]]. exists (l2 ++ l1)%list. split.
    + now rewrite E2, E1, app_assoc.
    + rewrite map_app, connect_calls_app. lia.
  - exists l1. split; [exact E1 | lia].
Qed.

Lemma connects_try (n k : nat) {A} (body : M A) (handler : exn -> option (M A)) :
  keeps (connects_at_most n) body ->
  (forall e h, handler e = Some h -> keeps (connects_at_most k) h) ->
  keeps (connects_at_most (n + k)) (try_except body handler).
Proof.
  intros Hb Hh w. unfold try_except. destruct (Hb w) as [l1 [E1 F1]].
  destruct (body w) as [[a|e] w1]; cbn [snd] in *.
  - exists l1. split; [exact E1 | lia].
  - destruct (handler e) as [h|] eqn:E; cbn [snd].
    + destruct (Hh e h E w1) as [l2 [E2 F2]]. exists (l2 ++ l1)%list. split.
      * now rewrite E2, E1, app_assoc.
      * rewrite map_app, connect_calls_app. lia.
    + exists l1. split; [exact E1 | lia].
Qed.

Lemma connects_after {A B} (n : nat) (m : M A) (f : A -> M B) :
  keeps (logs_only no_connect) m -> (forall a, keeps (connects_at_most n) (f a)) ->
  keeps (connects_at_most n) (bind m f).
Proof.
  intros Hm Hf. apply (connects_bind 0 n); [now apply connects_none | exact Hf].
Qed.

Lemma connects_before {A B} (n : nat) (m : M A) (f : A -> M B) :
  keeps (connects_at_most n) m -> (forall a, keeps (logs_only no_connect) (f a)) ->
  keeps (connects_at_most n) (bind m f).
Proof.
  intros Hm Hf. apply (connects_more (n + 0)); [lia|].
  apply connects_bind; [exact Hm|]. intros a. apply connects_none, Hf.
Qed.

Lemma connects_once (host : string) (port keepalive : Z) :
  keeps (connects_at_most 1) (Client.connect host port keepalive).
Proof.
  intros w. unfold Client.connect, Client.handshake, bind, log, modify.
  cbn [fst snd connect_results set_trace].
  eexists [_]. destruct (connect_results w) as [|[]]; cbn; split; reflexivity.
Qed.

Lemma callback_makes_no_connect (sub pub payload : string) (u : bool)
  (e : effect) : callback_effect sub pub payload u e -> no_connect e.
Proof. destruct e; simpl; intros H; try reflexivity; contradiction. Qed.

End CountingConnects.

Section ConnectsOfRuns.

Variable environ : string -> option string.
Variable PAHO_MQTT_VERSION : string.
Variable json_dumps : list (string * string) -> string.
Variable decode_replace : list byte -> string.

Lemma quiet_sleep (s : scenario) (d : Q) :
  keeps (logs_only no_connect)
    (Client.sleep
       (CredentialTest.dispatch environ json_dumps decode_replace s) d).
Proof.
  apply logs_only_sleep; [reflexivity|]. intros ev.
  eapply keeps_weaken; [apply callback_makes_no_connect|].
  now apply (logs_dispatch environ json_dumps decode_replace s
               (disconnect_after_publish s)).
Qed.

Lemma quiet_issue_sleep (ud : IssueCert.userdata) (d : Q) :
  keeps (logs_only no_connect)
    (Client.sleep (IssueCert.dispatch decode_replace ud) d).
Proof.
  apply logs_only_sleep; [reflexivity|]. intros ev.
  eapply keeps_weaken; [apply callback_makes_no_connect|].
  apply logs_issue_dispatch.
Qed.

Ltac quiet :=
  unfold CredentialTest.wait_for_disconnect, CredentialTest.wait_for_response,
    IssueCert.wait_for_response,
    Client.loop_start, Client.loop_stop, Client.disconnect,
    Client.is_connected, Sys.time_time, Sys.print, Sys.sys_exit;
  only_with ltac:(idtac; lazymatch goal with
                  | |- keeps _ (Client.sleep (CredentialTest.dispatch _ _ _ _) _) =>
                      apply quiet_sleep
                  | |- keeps _ (Client.sleep (IssueCert.dispatch _ _) _) =>
                      apply quiet_issue_sleep
                  end).

Ltac skip_quiet :=
  repeat lazymatch goal with
         | |- keeps _ (bind _ _) =>
             apply connects_after; [solve [quiet] | intros ?]
         end.

Lemma connects_run_connected (s : scenario) :
  keeps (connects_at_most (if disconnect_after_publish s then 1 else 0))
    (CredentialTest.run_connected environ json_dumps decode_replace s).
Proof.
  unfold CredentialTest.run_connected.
  skip_quiet.
  apply connects_before; [|intros ?; quiet].
  destruct (disconnect_after_publish s).
  - skip_quiet.
    match goal with |- keeps _ (if ?b then _ else _) => destruct b end.
    + skip_quiet. apply connects_before; [apply connects_once | intros ?; quiet].
    + apply (connects_more 0); [lia|]. apply connects_none. quiet.
  - apply connects_none. quiet.
Qed.

Lemma connects_try_run_body (s : scenario) :
  keeps (connects_at_most (if disconnect_after_publish s then 2 else 1))
    (try_except
       (CredentialTest.run_body environ json_dumps decode_replace s)
       CredentialTest.run_handler).
Proof.
  apply (connects_more
           ((1 + if disconnect_after_publish s then 1 else 0) + 0)).
  { destruct (disconnect_after_publish s); lia. }
  apply connects_try.
  - unfold CredentialTest.run_body. skip_quiet.
    apply connects_bind; [apply connects_once|]. intros ?.
    apply connects_run_connected.
  - unfold CredentialTest.run_handler.
    intros e h. destruct e; simpl; intros H; inversion H; subst;
      apply connects_none; quiet.
Qed.

Lemma quiet_setup (use_cert_auth : bool) :
  keeps (logs_only no_connect)
    (if use_cert_auth then CredentialTest.setup_certificate_auth environ
     else CredentialTest.setup_sas_auth environ).
Proof.
  eapply keeps_weaken; [|apply logs_setup_only].
  intros e. destruct e; simpl; intros H; try reflexivity; contradiction.
Qed.

Lemma connects_run_scenario (c : scenario_class) (use_cert_auth : bool) :
  keeps (connects_at_most (if reconnects c then 2 else 1))
    (CredentialTest.run_scenario environ json_dumps decode_replace c
       use_cert_auth).
Proof.
  unfold CredentialTest.run_scenario.
  apply connects_after; [quiet | intros ?].
  intros w0.
  destruct (instantiate_well_formed environ c w0) as [s [Es [Et Hwf]]].
  destruct Hwf as [_ [_ [_ [_ [_ [_ [_ [Hdap _]]]]]]]].
  unfold bind at 1.
  destruct (CredentialTest.instantiate environ c w0) as [r w1].
  cbn [fst snd] in Es, Et. subst r. rewrite <- Hdap.
  match goal with
  | |- connects_at_most _ _ (snd (?k w1)) =>
      assert (K : keeps
                    (connects_at_most
                       (if disconnect_after_publish s then 2 else 1)) k)
  end.
  { skip_quiet.
    apply connects_after; [apply quiet_setup | intros ?].
    apply connects_try_run_body. }
  destruct (K w1) as [l [E F]]. exists l. split; [|exact F].
  now rewrite E, Et.
Qed.

Lemma connects_issue_main (a : IssueCert.args) :
  keeps (connects_at_most 1)
    (IssueCert.main PAHO_MQTT_VERSION json_dumps decode_replace a).
Proof.
  unfold IssueCert.main.
  apply connects_after; [quiet | intros rid]. cbv zeta.
  skip_quiet.
  apply (connects_more (1 + 0)); [lia|].
  apply connects_try.
  - unfold IssueCert.main_body. skip_quiet.
    apply connects_before; [apply connects_once | intros ?; quiet].
  - unfold IssueCert.main_handler.
    intros e h. destruct e; simpl; intros H; inversion H; subst;
      apply connects_none; quiet.
Qed.

(** A [try] whose body starts by printing and connecting logs that
    [connect], however it goes on. *)
(** X9: [client.connect] is called at most once in a run of the happy
    path and at most twice in a run of the disconnect-reconnect scenario,
    whatever happens in the run; [main] of [mqtt_issue_cert.py] calls it at
    most once. *)
Lemma connect_is_called_at_most_twice :
  (forall (c : scenario_class) (use_cert_auth : bool) (w : world),
      exists new,
        history (snd (CredentialTest.run_scenario environ json_dumps
                        decode_replace c use_cert_auth w))
        = (history w ++ new)%list /\
        (connect_calls new <= if reconnects c then 2 else 1)%nat) /\
  (forall (a : IssueCert.args) (w : world),
      exists new,
        history (snd (IssueCert.main PAHO_MQTT_VERSION json_dumps
                        decode_replace a w))
        = (history w ++ new)%list /\
        (connect_calls new <= 1)%nat).
Proof.
  split.
  - intros c use_cert_auth w.
    destruct (connects_run_scenario c use_cert_auth w) as [l [E F]].
    exists (rev (map eff l)). split.
    + unfold history. now rewrite E, map_app, rev_app_distr.
    + now rewrite connect_calls_rev.
  - intros a w.
    destruct (connects_issue_main a w) as [l [E F]].
    exists (rev (map eff l)). split.
    + unfold history. now rewrite E, map_app, rev_app_distr.
    + now rewrite connect_calls_rev.
Qed.

End ConnectsOfRuns.

(** ** Running straight-line code *)

Lemma bind_log {B} (e : effect) (k : unit -> M B) (w : world) :
  bind (log e) k w
  = k tt (set_trace ({| eff := e; flag_at := response_received w |} :: trace w) w).
Proof. reflexivity. Qed.

Lemma bind_ret {A B} (a : A) (k : A -> M B) (w : world) :
  bind (ret a) k w = k a w.
Proof. reflexivity. Qed.

Lemma bind_bind {A B C} (m : M A) (f : A -> M B) (g : B -> M C) (w : world) :
  bind (bind m f) g w = bind m (fun a => bind (f a) g) w.
Proof. unfold bind. destruct (m w) as [[a|e] w1]; reflexivity. Qed.

Lemma bind_lift {A B} (a : A) (k : A -> M B) (w : world) :
  bind (lift (Ok a)) k w = k a w.
Proof. reflexivity. Qed.

Lemma bind_modify {B} (f : world -> world) (k : unit -> M B) (w : world) :
  bind (modify f) k w = k tt (f w).
Proof. reflexivity. Qed.

Lemma bind_get {A B} (f : world -> A) (k : A -> M B) (w : world) :
  bind (get f) k w = k (f w) w.
Proof. reflexivity. Qed.

Lemma bind_raise {A B} (e : exn) (k : A -> M B) (w : world) :
  bind (raise e) k w = (Raise e, w).
Proof. reflexivity. Qed.

Lemma bind_ok {A B} (m : M A) (k : A -> M B) (w w1 : world) (a : A) :
  m w = (Ok a, w1) -> bind m k w = k a w1.
Proof. intros E. unfold bind. now rewrite E. Qed.

Lemma bind_fails {A B} (m : M A) (k : A -> M B) (w w1 : world) (e : exn) :
  m w = (Raise e, w1) -> bind m k w = (Raise e, w1).
Proof. intros E. unfold bind. now rewrite E. Qed.

Lemma run_log (e : effect) (w : world) :
  log e w
  = (Ok tt,
     set_trace ({| eff := e; flag_at := response_received w |} :: trace w) w).
Proof. reflexivity. Qed.

Lemma run_modify (f : world -> world) (w : world) : modify f w = (Ok tt, f w).
Proof. reflexivity. Qed.

Lemma set_trace_twice (l l' : list entry) (w : world) :
  set_trace l (set_trace l' w) = set_trace l w.
Proof. reflexivity. Qed.

(** The fields of a world that was built by setters. *)
Ltac fields :=
  rewrite ?set_trace_twice;
  cbn [response_received response_data now connected loop_running trace
       entropy connect_results publish_results ticks
       set_response_received set_response_data set_now set_connected
       set_loop_running set_trace set_entropy set_connect_results
       set_publish_results set_ticks fst snd].

Ltac fields_in H :=
  cbn [response_received response_data now connected loop_running trace
       entropy connect_results publish_results ticks
       set_response_received set_response_data set_now set_connected
       set_loop_running set_trace set_entropy set_connect_results
       set_publish_results set_ticks fst snd] in H.

(** One step after the other of a sequence of prints, assignments and
    reads. *)
Ltac run :=
  repeat first
    [ rewrite bind_bind
    | rewrite bind_log; fields
    | rewrite bind_modify; fields
    | rewrite bind_get; fields
    | rewrite bind_ret
    | rewrite bind_lift
    | rewrite bind_raise
    | rewrite run_log; fields
    | rewrite run_modify; fields ].

Section Callbacks.

Variable environ : string -> option string.
Variable json_dumps : list (string * string) -> string.
Variable decode_replace : list byte -> string.

Lemma validate_response_returns (s : scenario) (topic payload : string) :
  exists b message, validate_response s topic payload = Ok (b, message).
Proof.
  unfold validate_response.
  destruct (segment_3_or_short topic) as [[seg Hseg]|Hshort]; destruct (cls s).
  - rewrite (happy_path_on_segment s topic payload seg Hseg).
    destruct (String.eqb seg "202"); eauto.
  - rewrite (disconnect_reconnect_on_segment s topic payload seg Hseg).
    destruct (String.eqb seg "202"); eauto.
  - rewrite (happy_path_short s topic payload Hshort). eauto.
  - rewrite (disconnect_reconnect_short s topic payload Hshort). eauto.
Qed.

(** What [on_message] of the scenario runner does, on any message. *)
Lemma on_message_runs (s : scenario) (topic : string) (payload : list byte)
  (qos : Z) (w : world) :
  exists b message older,
    validate_response s topic (payload_text decode_replace payload)
    = Ok (b, message) /\
    CredentialTest.on_message decode_replace s topic payload qos w
    = (Ok tt,
       set_connected false
         (set_trace
            ({| eff := Disconnect; flag_at := true |}
             :: {| eff := Print (str_mul "=" 70 ++ LF);
                   flag_at := response_received w |}
             :: {| eff := Print (LF ++ message);
                   flag_at := response_received w |}
             :: older)
            (set_response_received true w))).
Proof.
  destruct (validate_response_returns s topic
              (payload_text decode_replace payload)) as [b [message Hv]].
  exists b, message.
  unfold CredentialTest.on_message, getitem, Sys.print, Client.disconnect.
  destruct (segment_3_or_short topic) as [[seg Hseg]|Hshort].
  - rewrite (nth_len_ge_4 _ _ Hseg), Hseg.
    destruct payload; cbn [payload_text] in *; run; rewrite Hv; run;
      eexists; (split; [reflexivity|]); reflexivity.
  - rewrite (len_lt_4 _ Hshort).
    destruct payload; cbn [payload_text] in *; run; rewrite Hv; run;
      eexists; (split; [reflexivity|]); reflexivity.
Qed.

(** What [on_message] of [mqtt_issue_cert.py] does, on any message. *)
Lemma issue_on_message_runs (topic : string) (payload : list byte) (qos : Z)
  (w : world) :
  exists older,
    IssueCert.on_message decode_replace topic payload qos w
    = (Ok tt,
       set_connected false
         (set_trace ({| eff := Disconnect; flag_at := true |} :: older)
            (set_response_received true
               (set_response_data
                  (Some (topic, payload_text decode_replace payload,
                         nth_error (split topic slash) 3)) w)))).
Proof.
  unfold IssueCert.on_message, getitem, Sys.print, Client.disconnect.
  destruct (segment_3_or_short topic) as [[seg Hseg]|Hshort].
  - rewrite (nth_len_ge_4 _ _ Hseg), Hseg.
    destruct payload; cbn [payload_text]; run; cbn [option_eqb];
      destruct (String.eqb seg "202"); run; eexists; reflexivity.
  - rewrite (len_lt_4 _ Hshort).
    assert (E : nth_error (split topic slash) 3 = None)
      by (apply nth_error_None; unfold len in Hshort; lia).
    rewrite E.
    destruct payload; cbn [payload_text]; run; cbn [option_eqb]; run;
      eexists; reflexivity.
Qed.

(** X10: [on_message] of either script never raises, whatever the topic
    and the payload: it records that a response was received, and its last
    action is [client.disconnect()].  The scenario runner prints the message
    of the scenario's validation and the closing rule just before;
    [mqtt_issue_cert.py] stores the topic, the payload text and the status
    segment, which is [None] for a topic of fewer than four segments. *)
Lemma on_message_ends_the_wait :
  (forall (s : scenario) (topic : string) (payload : list byte) (qos : Z)
          (w : world),
      exists b message older,
        validate_response s topic (payload_text decode_replace payload)
        = Ok (b, message) /\
        fst (CredentialTest.on_message decode_replace s topic payload qos w)
        = Ok tt /\
        response_received
          (snd (CredentialTest.on_message decode_replace s topic payload qos w))
        = true /\
        connected
          (snd (CredentialTest.on_message decode_replace s topic payload qos w))
        = false /\
        trace
          (snd (CredentialTest.on_message decode_replace s topic payload qos w))
        = {| eff := Disconnect; flag_at := true |}
          :: {| eff := Print (str_mul "=" 70 ++ LF);
                flag_at := response_received w |}
          :: {| eff := Print (LF ++ message); flag_at := response_received w |}
          :: older) /\
  (forall (topic : string) (payload : list byte) (qos : Z) (w : world),
      exists older,
        fst (IssueCert.on_message decode_replace topic payload qos w) = Ok tt /\
        response_received
          (snd (IssueCert.on_message decode_replace topic payload qos w))
        = true /\
        connected
          (snd (IssueCert.on_message decode_replace topic payload qos w))
        = false /\
        response_data
          (snd (IssueCert.on_message decode_replace topic payload qos w))
        = Some (topic, payload_text decode_replace payload,
                nth_error (split topic slash) 3) /\
        trace (snd (IssueCert.on_message decode_replace topic payload qos w))
        = {| eff := Disconnect; flag_at := true |} :: older).
Proof.
  split.
  - intros s topic payload qos w.
    destruct (on_message_runs s topic payload qos w)
      as [b [message [older [Hv E]]]].
    exists b, message, older. rewrite E. repeat split. exact Hv.
  - intros topic payload qos w.
    destruct (issue_on_message_runs topic payload qos w) as [older E].
    exists older. rewrite E. repeat split.
Qed.

End Callbacks.

Lemma history_grown (l : list entry) (w w' : world) :
  trace w' = (l ++ trace w)%list ->
  history w' = (history w ++ rev (map eff l))%list.
Proof. intros E. unfold history. now rewrite E, map_app, rev_app_distr. Qed.

Section Subscribing.

Variable environ : string -> option string.
Variable json_dumps : list (string * string) -> string.
Variable decode_replace : list byte -> string.

(** X11: [on_subscribe] of the scenario runner publishes the request of
    the scenario once, with QoS 1, whatever QoS values were granted.  That
    of [mqtt_issue_cert.py] does the same when at least one value was
    granted; on an empty list it raises [IndexError] before it prints
    anything, which stops the network loop: no later event is delivered. *)
Lemma on_subscribe_publishes_the_request :
  (forall (s : scenario) (mid : Z) (granted_qos : list Z) (w : world),
      exists line,
        fst (CredentialTest.on_subscribe json_dumps s mid granted_qos w) = Ok tt /\
        history (snd (CredentialTest.on_subscribe json_dumps s mid granted_qos w))
        = (history w
           ++ [ Print ("✓ Subscribed successfully (QoS: "
                       ++ repr_tuple granted_qos ++ ")");
                Print ("✓ Publishing to: " ++ str_of_option (get_publish_topic s));
                Print ("  Payload: " ++ payload_json json_dumps s);
                Publish (str_of_option (get_publish_topic s))
                  (payload_json json_dumps s) 1;
                Print line ])%list) /\
  (forall (ud : IssueCert.userdata) (mid q : Z) (rest : list Z) (w : world),
      exists line,
        fst (IssueCert.on_subscribe ud mid (q :: rest) w) = Ok tt /\
        history (snd (IssueCert.on_subscribe ud mid (q :: rest) w))
        = (history w
           ++ [ Print ("[OK] Subscribed successfully (QoS: " ++ str_of_int q ++ ")");
                Print ("[OK] Publishing to: " ++ IssueCert.ud_publish_topic ud);
                Print ("  Payload: " ++ IssueCert.ud_payload ud);
                Publish (IssueCert.ud_publish_topic ud) (IssueCert.ud_payload ud) 1;
                Print line ])%list) /\
  (forall (ud : IssueCert.userdata) (mid : Z) (w : world),
      (exists msg,
         IssueCert.on_subscribe ud mid [] w = (Raise (IndexError msg), w)) /\
      (forall later : list net_event,
         loop_running w = true ->
         Client.deliver (IssueCert.dispatch decode_replace ud)
           (Suback mid [] :: later) w
         = set_loop_running false w)).
Proof.
  split; [|split].
  - intros s mid granted_qos w.
    destruct (CredentialTest.on_subscribe json_dumps s mid granted_qos w)
      as [res w'] eqn:E.
    revert E.
    unfold CredentialTest.on_subscribe, Client.publish, Client.publish_result,
      Sys.print, get_publish_topic.
    fold (payload_json json_dumps s). run.
    unfold bind. fields.
    destruct (publish_results w) as [|[rc mid'] rest]; fields;
      match goal with |- context [if ?b then _ else _] => destruct b end;
      run; intros E; injection E as <- <-;
      eexists; (split; [reflexivity|]);
      rewrite (history_grown [_; _; _; _; _] w) by (fields; reflexivity);
      reflexivity.
  - intros ud mid q rest w.
    destruct (IssueCert.on_subscribe ud mid (q :: rest) w) as [res w'] eqn:E.
    revert E.
    unfold IssueCert.on_subscribe, getitem, Client.publish,
      Client.publish_result, Sys.print.
    cbn [nth_error]. run.
    unfold bind. fields.
    destruct (publish_results w) as [|[rc mid'] rest']; fields;
      match goal with |- context [if ?b then _ else _] => destruct b end;
      run; intros E; injection E as <- <-;
      eexists; (split; [reflexivity|]);
      rewrite (history_grown [_; _; _; _; _] w) by (fields; reflexivity);
      reflexivity.
  - intros ud mid w. split.
    + eexists. reflexivity.
    + intros later Hrun. cbn [Client.deliver]. rewrite Hrun. reflexivity.
Qed.

End Subscribing.

(** ** Scenario objects and the registry *)

Section Registry.

Variable environ : string -> option string.
Variable json_dumps : list (string * string) -> string.
Variable decode_replace : list byte -> string.

Lemma lookup_name_of (c : scenario_class) :
  CredentialTest.lookup (name_of c) = ret c.
Proof. destruct c; reflexivity. Qed.

(** A name of the registry is the name of a class of it. *)
Lemma registered_name (n : string) :
  CredentialTest.registered n = true -> exists c, n = name_of c.
Proof.
  unfold CredentialTest.registered, CredentialTest.SCENARIOS.
  cbn [existsb fst]. intros H.
  apply orb_true_iff in H. destruct H as [H|H].
  - apply String.eqb_eq in H. now exists HappyPathScenario.
  - apply orb_true_iff in H. destruct H as [H|H]; [|discriminate].
    apply String.eqb_eq in H. now exists DisconnectReconnectScenario.
Qed.

(** X12: constructing a scenario object never fails and logs nothing.
    The object carries the name its class is registered under, so that
    looking its name up gives the class back; its request identifier lies
    between 1 and 99999999; [get_publish_topic] returns the
    issueCertificate topic with that identifier and [get_payload] the
    dictionary of the client identifier and the mock CSR; only the
    disconnect-reconnect scenario disconnects after publishing, and waits 3
    seconds before it reconnects. *)
Lemma scenario_objects_are_well_formed (c : scenario_class) (w : world) :
  exists s,
    fst (CredentialTest.instantiate environ c w) = Ok s /\
    history (snd (CredentialTest.instantiate environ c w)) = history w /\
    cls s = c /\
    CredentialTest.registered (Scenario.name s) = true /\
    CredentialTest.lookup (Scenario.name s) = ret c /\
    Scenario.description s = description_of c /\
    1 <= request_id s <= 99999999 /\
    subscribe_topic s = "$iothub/credentials/res/#" /\
    get_publish_topic s
    = Some ("$iothub/credentials/POST/issueCertificate/?$rid="
            ++ str_of_int (request_id s)) /\
    get_payload s
    = Some [("id", CredentialTest.CLIENT_ID environ);
            ("csr", CredentialTest.MOCK_CSR)] /\
    disconnect_after_publish s = reconnects c /\
    reconnect_delay s = (if reconnects c then 3 else 0).
Proof.
  destruct (instantiate_well_formed environ c w)
    as [s [Es [Et [Hc [Hn [Hd [Hr [Hs [Hp [Hy [Ha Hl]]]]]]]]]]].
  exists s. split; [exact Es|]. split.
  { unfold history. now rewrite Et. }
  split; [exact Hc|]. rewrite Hn.
  split; [destruct c; reflexivity|].
  split; [apply lookup_name_of|].
  repeat split; try assumption; lia.
Qed.

End Registry.

(** ** Runs that end before they connect *)

Section SasMode.

Variable environ : string -> option string.
Variable json_dumps : list (string * string) -> string.
Variable decode_replace : list byte -> string.

Lemma returns_modify (f : world -> world) :
  (forall w, trace (f w) = trace w) -> returns (modify f) (fun _ => True) [].
Proof.
  intros H w. exists tt. repeat split. unfold history. cbn [snd modify].
  now rewrite H, app_nil_r.
Qed.

Lemma returns_well_formed (c : scenario_class) :
  returns (CredentialTest.instantiate environ c)
    (well_formed (CredentialTest.CLIENT_ID environ) c) [].
Proof.
  intros w. destruct (instantiate_well_formed environ c w) as [s [Es [Et Hwf]]].
  exists s. split; [exact Es|]. split; [exact Hwf|].
  unfold history. now rewrite Et, app_nil_r.
Qed.

Lemma exits_setup_sas_auth :
  exits (CredentialTest.setup_sas_auth environ) (SystemExit 1)
    (sas_refusal (CredentialTest.HOST environ)).
Proof.
  unfold CredentialTest.setup_sas_auth, sas_refusal, Sys.print.
  apply (exits_bind _ _ _ _ [_] (_ :: _) (returns_log _)). intros _ _.
  apply (exits_bind _ _ _ _ [_] (_ :: _) (returns_log _)). intros _ _.
  apply (exits_bind _ _ _ _ [_] [_] (returns_log _)). intros _ _.
  apply exits_then. intros w.
  destruct (expiry_epoch_3600 (now w)) as [ttl Ht].
  apply (generate_sas_token_undecodable _ CredentialTest.HUB_SAS_KEY _ _ w
           (BinasciiError "Invalid base64-encoded string: number of data characters (17) cannot be 1 more than a multiple of 4")
           ttl Ht);
    vm_compute; reflexivity.
Qed.

Lemma exits_run_with_sas (c : scenario_class) :
  exits (CredentialTest.run_scenario environ json_dumps decode_replace c false)
    (SystemExit 1)
    (run_header (CredentialTest.CLIENT_ID environ) c
     ++ sas_refusal (CredentialTest.HOST environ)).
Proof.
  unfold CredentialTest.run_scenario, run_header, Sys.print.
  apply (exits_bind _ _ _ _ [] _
           (returns_modify (set_response_received false) (fun w => eq_refl))).
  intros _ _.
  apply (exits_bind _ _ _ _ [] _ (returns_well_formed c)).
  intros s [_ [Hn [Hd _]]]. rewrite Hn, Hd.
  apply (exits_bind _ _ _ _ [_] (_ :: _) (returns_log _)). intros _ _.
  apply (exits_bind _ _ _ _ [_] (_ :: _) (returns_log _)). intros _ _.
  apply (exits_bind _ _ _ _ [_] (_ :: _) (returns_log _)). intros _ _.
  apply (exits_bind _ _ _ _ [_] (_ :: _) (returns_log _)). intros _ _.
  apply (exits_bind _ _ _ _ [_] _ (returns_log _)). intros _ _.
  apply exits_then, exits_setup_sas_auth.
Qed.

(** With a name of the registry and an authentication method, [main] is the
    run of the scenario. *)
Lemma main_runs_scenario (a : CredentialTest.args) (c : scenario_class)
  (w : world) :
  CredentialTest.arg_list_scenarios a = false ->
  CredentialTest.arg_cert a || CredentialTest.arg_sas a = true ->
  CredentialTest.arg_scenario a = name_of c ->
  CredentialTest.main environ json_dumps decode_replace a w
  = CredentialTest.run_scenario environ json_dumps decode_replace c
      (CredentialTest.arg_cert a) w.
Proof.
  intros Hl Ha Hn. unfold CredentialTest.main. rewrite Hl, Hn.
  assert (E : negb (CredentialTest.arg_cert a) && negb (CredentialTest.arg_sas a)
              = false).
  { destruct (CredentialTest.arg_cert a), (CredentialTest.arg_sas a);
      simpl in *; congruence. }
  rewrite E.
  assert (R : CredentialTest.registered (name_of c) = true)
    by (destruct c; reflexivity).
  rewrite R, lookup_name_of. reflexivity.
Qed.

(** X13: with SAS authentication [run_scenario] always ends by
    [sys.exit(1)]: the key the script ships is a placeholder that is no
    Base64 text, so after the header and the first three lines of
    [setup_sas_auth] the decoding error is printed and nothing else is done.
    Hence [main] with [--sas] always exits with status 1, and it does
    nothing but print and create the client object: no connection is
    attempted. *)
Lemma sas_mode_stops_at_the_placeholder_key :
  (forall (c : scenario_class) (w : world),
      fst (CredentialTest.run_scenario environ json_dumps decode_replace c
             false w) = Raise (SystemExit 1) /\
      history (snd (CredentialTest.run_scenario environ json_dumps
                      decode_replace c false w))
      = (history w
         ++ run_header (CredentialTest.CLIENT_ID environ) c
         ++ sas_refusal (CredentialTest.HOST environ))%list) /\
  (forall (a : CredentialTest.args) (w : world),
      CredentialTest.arg_list_scenarios a = false ->
      CredentialTest.arg_cert a = false ->
      CredentialTest.arg_sas a = true ->
      fst (CredentialTest.main environ json_dumps decode_replace a w)
      = Raise (SystemExit 1) /\
      exists new,
        history (snd (CredentialTest.main environ json_dumps decode_replace a w))
        = (history w ++ new)%list /\
        forall e, In e new ->
          match e with
          | Print _ | ClientNew _ _ => True
          | _ => False
          end).
Proof.
  split.
  - intros c w. apply exits_run_with_sas.
  - intros a w Hl Hc Hs.
    assert (Ha : CredentialTest.arg_cert a || CredentialTest.arg_sas a = true)
      by (rewrite Hc, Hs; reflexivity).
    destruct (CredentialTest.registered (CredentialTest.arg_scenario a)) eqn:Hr.
    + destruct (registered_name _ Hr) as [c Hn].
      rewrite (main_runs_scenario a c w Hl Ha Hn), Hc.
      destruct (exits_run_with_sas c w) as [Hf Hh].
      split; [exact Hf|]. eexists. split; [exact Hh|].
      intros e He. unfold run_header, sas_refusal in He. simpl in He.
      repeat (destruct He as [<-|He]; [exact I|]). contradiction.
    + destruct (main_rejects_unknown environ json_dumps decode_replace a Hr Hl
                  Ha w) as [Hf Hh].
      split; [exact Hf|]. eexists. split; [exact Hh|].
      intros e He. unfold unknown_scenario_error, scenario_listing in He.
      simpl in He.
      repeat (destruct He as [<-|He]; [exact I|]). contradiction.
Qed.

End SasMode.

(** ** A run that is given no time *)

Lemma grown_none (ok : effect -> Prop) (t : list entry) :
  exists l, t = (l ++ t)%list /\ Forall (fun e => ok (eff e)) l.
Proof. exists []. split; [reflexivity | constructor]. Qed.

Lemma grown_more (ok : effect -> Prop) (t0 t : list entry) (e : entry) :
  ok (eff e) ->
  (exists l, t = (l ++ t0)%list /\ Forall (fun e => ok (eff e)) l) ->
  exists l, e :: t = (l ++ t0)%list /\ Forall (fun e => ok (eff e)) l.
Proof.
  intros He [l [E F]]. exists (e :: l). split; [now rewrite E | now constructor].
Qed.

(** A log that is the old one with some entries in front. *)
Ltac grown :=
  unfold logs_only; fields;
  repeat (apply grown_more; [exact I|]); apply grown_none.

Section NoTimeToWait.

Variable PAHO_MQTT_VERSION : string.
Variable json_dumps : list (string * string) -> string.
Variable decode_replace : list byte -> string.

(** With a timeout that is not positive the waiting loop is left at once. *)
Lemma wait_for_response_at_once (ud : IssueCert.userdata) (timeout : Z)
  (start_time : Q) (w : world) :
  timeout <= 0 -> now w = start_time ->
  IssueCert.wait_for_response decode_replace ud timeout start_time w
  = (Ok tt, w).
Proof.
  intros Ht <-.
  change (IssueCert.wait_for_response decode_replace ud timeout (now w) w)
    with (waiting_loop (IssueCert.dispatch decode_replace ud)
            (fun w => negb (response_received w)) (now w) (inject_Z timeout)
            IssueCert.poll
            (S (Z.to_nat (Qceiling (inject_Z timeout / IssueCert.poll)))) w).
  rewrite waiting_loop_step.
  assert (E : Qltb (now w - now w) (inject_Z timeout) = false).
  { unfold Qltb. apply negb_false_iff, Qle_bool_iff.
    assert (H0 : (inject_Z timeout <= inject_Z 0)%Q) by (rewrite <- Zle_Qle; lia).
    change (inject_Z 0) with 0%Q in H0. lra. }
  rewrite E, andb_false_r. reflexivity.
Qed.

Lemma try_main_body_at_once (a : IssueCert.args) (ud : IssueCert.userdata)
  (w : world) :
  IssueCert.arg_timeout a <= 0 -> response_received w = false ->
  let r := try_except (IssueCert.main_body decode_replace a ud)
             IssueCert.main_handler w in
  fst r = Raise (SystemExit 1) /\
  response_received (snd r) = false /\
  logs_only no_sleep w (snd r).
Proof.
  intros Ht Hw. cbv zeta.
  destruct (try_except (IssueCert.main_body decode_replace a ud)
              IssueCert.main_handler w) as [res w'] eqn:E.
  revert E.
  unfold try_except, IssueCert.main_body, Client.connect, Client.loop_start,
    Client.loop_stop, Client.disconnect, Sys.print, Sys.time_time, Sys.sys_exit.
  run. unfold bind at 1, Client.handshake. fields.
  destruct (connect_results w) as [|[|msg|] rest]; fields; run.
  - erewrite bind_ok;
      [|apply wait_for_response_at_once; [exact Ht | reflexivity]].
    run. rewrite Hw. cbn [negb]. run.
    cbn [IssueCert.main_handler is_Exception].
    intros E; injection E as <- <-. fields.
    repeat split; first [exact Hw | grown].
  - erewrite bind_ok;
      [|apply wait_for_response_at_once; [exact Ht | reflexivity]].
    run. rewrite Hw. cbn [negb]. run.
    cbn [IssueCert.main_handler is_Exception].
    intros E; injection E as <- <-. fields.
    repeat split; first [exact Hw | grown].
  - cbn [IssueCert.main_handler is_Exception]. unfold Sys.print, Sys.sys_exit.
    run. intros E; injection E as <- <-. fields.
    repeat split; first [exact Hw | grown].
  - cbn [IssueCert.main_handler is_Exception].
    unfold Sys.print, Sys.sys_exit, Client.disconnect, Client.loop_stop.
    run. intros E; injection E as <- <-. fields.
    repeat split; first [exact Hw | grown].
Qed.

Lemma gives_up_after_log (w0 : world) (e : effect) (k : M unit) :
  no_sleep e -> gives_up_at_once w0 k -> gives_up_at_once w0 (log e ;; k).
Proof.
  intros He Hk w1 Hw1 Hl1. rewrite bind_log.
  apply Hk; [exact Hw1|].
  eapply logs_only_trans; [exact Hl1|].
  unfold logs_only. fields. apply grown_more; [exact He | apply grown_none].
Qed.

Lemma gives_up_after_randint (w0 : world) (lo hi : Z) (k : Z -> M unit) :
  (forall r, gives_up_at_once w0 (k r)) ->
  gives_up_at_once w0 (r <- Sys.randint lo hi ;; k r).
Proof.
  intros Hk w1 Hw1 Hl1. unfold bind, Sys.randint.
  destruct (entropy w1) as [|x rest]; apply Hk; assumption.
Qed.

Lemma main_gives_up_at_once (a : IssueCert.args) (w : world) :
  IssueCert.arg_timeout a <= 0 ->
  gives_up_at_once w
    (IssueCert.main PAHO_MQTT_VERSION json_dumps decode_replace a).
Proof.
  intros Ht. unfold IssueCert.main.
  apply gives_up_after_randint. intros rid. cbv zeta. unfold Sys.print.
  repeat (apply gives_up_after_log; [exact I|]).
  intros w1 Hw1 Hl1.
  match goal with
  | |- context [IssueCert.main_body _ _ ?ud] =>
      destruct (try_main_body_at_once a ud w1 Ht Hw1) as [Hf [Hr Hl]]
  end.
  split; [exact Hf|]. split; [exact Hr|].
  eapply logs_only_trans; [exact Hl1 | exact Hl].
Qed.

(** X15: with a timeout of zero or less, [main] of [mqtt_issue_cert.py]
    never waits: started with no response recorded, it exits with status 1
    without a single [time.sleep], with still no response recorded, whatever
    the broker would have sent. *)
Lemma issue_cert_has_no_time_to_wait (a : IssueCert.args) (w : world) :
  IssueCert.arg_timeout a <= 0 -> response_received w = false ->
  fst (IssueCert.main PAHO_MQTT_VERSION json_dumps decode_replace a w)
  = Raise (SystemExit 1) /\
  response_received
    (snd (IssueCert.main PAHO_MQTT_VERSION json_dumps decode_replace a w))
  = false /\
  exists new,
    history (snd (IssueCert.main PAHO_MQTT_VERSION json_dumps decode_replace a w))
    = (history w ++ new)%list /\
    forall d, ~ In (Sleep d) new.
Proof.
  intros Ht Hw.
  destruct (main_gives_up_at_once a w Ht w Hw (logs_only_refl _ _))
    as [Hf [Hr Hl]].
  split; [exact Hf|]. split; [exact Hr|].
  destruct (logs_only_history _ _ _ Hl) as [new [Hh Hnew]].
  exists new. split; [exact Hh|].
  intros d Hd. rewrite Forall_forall in Hnew. exact (Hnew _ Hd).
Qed.

End NoTimeToWait.

Lemma issue_cert_has_no_time_to_wait_witness :
  fst (IssueCert.main "1.6.1" plain_json_dumps ascii_decode impatient_args
         (answered "202"))
  = Raise (SystemExit 1) /\
  response_received
    (snd (IssueCert.main "1.6.1" plain_json_dumps ascii_decode impatient_args
            (answered "202")))
  = false /\
  exists new,
    history (snd (IssueCert.main "1.6.1" plain_json_dumps ascii_decode
                    impatient_args (answered "202")))
    = (history (answered "202") ++ new)%list /\
    forall d, ~ In (Sleep d) new.
Proof.
  apply issue_cert_has_no_time_to_wait; [vm_compute; discriminate | reflexivity].
Defined.

(** ** How a run leaves the client *)

Section Disconnecting.

Lemma dor_refl (w : world) : disconnects_on_response w w.
Proof. exists []. split; [reflexivity | now left]. Qed.

Lemma dor_trans (a b c : world) :
  disconnects_on_response a b -> disconnects_on_response b c ->
  disconnects_on_response a c.
Proof.
  intros [l1 [E1 F1]] [l2 [E2 F2]]. exists (l2 ++ l1)%list. split.
  - now rewrite E2, E1, app_assoc.
  - intros Hc. rewrite map_app.
    destruct (F2 Hc) as [Hb|Hin]; [|right; apply in_or_app; now left].
    destruct (F1 Hb) as [Ha|Hin]; [now left | right; apply in_or_app; now right].
Qed.

Lemma dor_same (w w' : world) :
  trace w' = trace w -> response_received w' = response_received w ->
  disconnects_on_response w w'.
Proof.
  intros Ht Hr. exists []. split; [exact Ht|]. rewrite Hr. now left.
Qed.

Lemma dor_log (e : effect) : keeps disconnects_on_response (log e).
Proof. intros w. eexists [_]. split; [reflexivity | now left]. Qed.

Lemma dor_modify (f : world -> world) :
  (forall w, trace (f w) = trace w) ->
  (forall w, response_received (f w) = response_received w) ->
  keeps disconnects_on_response (modify f).
Proof. intros Ht Hr w. apply dor_same; [apply Ht | apply Hr]. Qed.

Lemma dor_reset : keeps disconnects_on_response (modify (set_response_received false)).
Proof. intros w. exists []. split; [reflexivity | discriminate]. Qed.

(** The two last statements of [on_message]. *)
Lemma dor_answer :
  keeps disconnects_on_response
    (modify (set_response_received true) ;; Client.disconnect).
Proof.
  intros w. eexists [_]. split; [reflexivity|]. intros _. right. now left.
Qed.

Lemma dor_randint (a b : Z) : keeps disconnects_on_response (Sys.randint a b).
Proof.
  intros w. unfold Sys.randint. destruct (entropy w); now apply dor_same.
Qed.

Lemma dor_handshake : keeps disconnects_on_response Client.handshake.
Proof.
  intros w. unfold Client.handshake.
  destruct (connect_results w) as [|[]]; now apply dor_same.
Qed.

Lemma dor_publish_result : keeps disconnects_on_response Client.publish_result.
Proof.
  intros w. unfold Client.publish_result.
  destruct (publish_results w); now apply dor_same.
Qed.

Lemma dor_tick_step (handler : net_event -> M unit) :
  (forall ev, keeps disconnects_on_response (handler ev)) ->
  keeps disconnects_on_response (Client.tick_step handler).
Proof.
  intros H w. unfold Client.tick_step.
  destruct (ticks w) as [|t rest]; [apply dor_refl|].
  assert (G : disconnects_on_response w
                (Client.deliver handler (arrivals t) (set_ticks rest w))).
  { apply (dor_trans _ (set_ticks rest w)); [now apply dor_same|].
    apply (keeps_deliver _ dor_refl dor_trans); [|exact H].
    intros w0. now apply dor_same. }
  destruct (interrupt t); exact G.
Qed.

End Disconnecting.

Ltac dor_leaf :=
  lazymatch goal with
  | |- keeps _ (modify (set_response_received true) ;; Client.disconnect) =>
      apply dor_answer
  | |- keeps _ Client.disconnect => unfold Client.disconnect
  | |- keeps _ Client.loop_start => unfold Client.loop_start
  | |- keeps _ Client.loop_stop => unfold Client.loop_stop
  | |- keeps _ (modify (set_response_received false)) => apply dor_reset
  | |- keeps _ (log _) => apply dor_log
  | |- keeps _ (modify _) => apply dor_modify; solve [intros ?; reflexivity]
  | |- keeps _ (Sys.randint _ _) => apply dor_randint
  | |- keeps _ Client.handshake => apply dor_handshake
  | |- keeps _ Client.publish_result => apply dor_publish_result
  | |- keeps _ (Client.tick_step _) => apply dor_tick_step; intros ?
  end.

Ltac dor_with leaf :=
  frame_steps ltac:(apply dor_refl) ltac:(apply dor_trans)
    ltac:(first [ leaf | dor_leaf ]).

Section CleaningUp.

Variable environ : string -> option string.
Variable json_dumps : list (string * string) -> string.
Variable decode_replace : list byte -> string.

Lemma dor_dispatch (s : scenario) (ev : net_event) :
  keeps disconnects_on_response
    (CredentialTest.dispatch environ json_dumps decode_replace s ev).
Proof.
  destruct ev; unfold CredentialTest.dispatch, CredentialTest.on_connect,
    CredentialTest.on_subscribe, CredentialTest.on_publish,
    CredentialTest.on_message, CredentialTest.on_disconnect,
    Client.publish, Client.subscribe, Client.unsubscribe,
    Sys.print, Sys.sys_exit.
  all: dor_with fail.
Qed.

Lemma dor_sleep (s : scenario) (d : Q) :
  keeps disconnects_on_response
    (Client.sleep
       (CredentialTest.dispatch environ json_dumps decode_replace s) d).
Proof.
  unfold Client.sleep.
  dor_with ltac:(idtac; lazymatch goal with
                        | |- keeps _ (CredentialTest.dispatch _ _ _ _ _) =>
                            apply dor_dispatch
                        end).
Qed.

Ltac dor_script :=
  unfold CredentialTest.wait_for_disconnect, CredentialTest.wait_for_response,
    Client.connect, Client.is_connected, Sys.time_time, Sys.print, Sys.sys_exit;
  dor_with ltac:(idtac; lazymatch goal with
                        | |- keeps _ (Client.sleep _ _) => apply dor_sleep
                        end).

Variable base : world.
Hypothesis base_unanswered : response_received base = false.

Lemma dor_grows (w : world) : disconnects_on_response base w -> grows base w.
Proof. intros [l [E _]]. now exists l. Qed.

Lemma disconnected_grows (w : world) : disconnected_since base w -> grows base w.
Proof. intros [l [E _]]. now exists l. Qed.

Lemma disconnected_onward (w w' : world) :
  disconnected_since base w -> grows w w' -> disconnected_since base w'.
Proof.
  intros [l [E F]] [l' E']. exists (l' ++ l)%list. split.
  - now rewrite E', E, app_assoc.
  - rewrite map_app. apply in_or_app. now right.
Qed.

(** A step that keeps the relation, as a triple. *)
Lemma triple_dor {A} (m : M A) :
  keeps disconnects_on_response m ->
  triple (disconnects_on_response base) m
    (fun _ => disconnects_on_response base) (fun _ => grows base).
Proof.
  intros H w Hw. specialize (H w).
  destruct (m w) as [[a|e] w1]; cbn [snd] in H.
  - exact (dor_trans _ _ _ Hw H).
  - exact (dor_grows _ (dor_trans _ _ _ Hw H)).
Qed.

Lemma triple_disconnected {A} (m : M A) :
  keeps grows m ->
  triple (disconnected_since base) m
    (fun _ => disconnected_since base) (fun _ => grows base).
Proof.
  intros H w Hw. specialize (H w).
  destruct (m w) as [[a|e] w1]; cbn [snd] in H.
  - exact (disconnected_onward _ _ Hw H).
  - exact (disconnected_grows _ (disconnected_onward _ _ Hw H)).
Qed.

Lemma cleans_run_connected (s : scenario) :
  triple (disconnects_on_response base)
    (CredentialTest.run_connected environ json_dumps decode_replace s)
    (fun _ => cleaned_up base) (fun _ => grows base).
Proof.
  unfold CredentialTest.run_connected.
  eapply triple_bind; [apply triple_dor; dor_script | intros ?].
  eapply triple_bind; [apply triple_dor; dor_script | intros ?].
  eapply triple_bind; [apply triple_dor; dor_script | intros ?].
  eapply triple_bind; [apply triple_dor; dor_script | intros ?].
  apply (triple_bind _ _ _
           (fun r w => disconnects_on_response base w
                       /\ r = response_received w)).
  { intros w Hw. cbn. now split. }
  intros r.
  apply (triple_bind _ _ _ (fun _ => disconnected_since base)).
  { intros w [[l [E F]] Hr]. destruct r; cbn [negb].
    - cbn. exists l. split; [exact E|].
      destruct (F (eq_sym Hr)) as [H|H]; [congruence | exact H].
    - unfold Sys.print, Client.disconnect. run.
      eexists (_ :: _ :: l). split; [now rewrite E|]. now left. }
  intros ?.
  eapply triple_bind;
    [apply triple_disconnected, grows_sleep | intros ?].
  intros w [l [E F]]. unfold Client.loop_stop. run.
  split; [reflexivity|]. eexists _, l. split; [now rewrite E | exact F].
Qed.

Lemma cleans_try_run_body (s : scenario) :
  triple (disconnects_on_response base)
    (try_except
       (CredentialTest.run_body environ json_dumps decode_replace s)
       CredentialTest.run_handler)
    (fun _ => cleaned_up base) (fun _ _ => True).
Proof.
  apply (triple_try _ _ _ _ (fun _ => grows base)).
  - unfold CredentialTest.run_body.
    eapply triple_bind; [apply triple_dor; dor_script | intros ?].
    eapply triple_bind; [apply triple_dor; dor_script | intros ?].
    apply cleans_run_connected.
  - intros e w [l E].
    destruct e; cbn [CredentialTest.run_handler is_Exception]; try exact I;
      unfold Sys.print, Sys.sys_exit, Client.disconnect, Client.loop_stop;
      run; try exact I.
    split; [reflexivity|].
    eexists _, (_ :: _ :: l). split; [now rewrite E|]. now left.
Qed.

End CleaningUp.

Section CleanReturn.

Variable environ : string -> option string.
Variable json_dumps : list (string * string) -> string.
Variable decode_replace : list byte -> string.

Lemma dor_setup (use_cert_auth : bool) :
  keeps disconnects_on_response
    (if use_cert_auth then CredentialTest.setup_certificate_auth environ
     else CredentialTest.setup_sas_auth environ).
Proof.
  destruct use_cert_auth.
  - unfold CredentialTest.setup_certificate_auth, Sys.print. dor_with fail.
  - unfold CredentialTest.setup_sas_auth, CredentialTest.generate_sas_token,
      Sys.print, Sys.sys_exit, Sys.time_time.
    dor_with ltac:(idtac; lazymatch goal with
                          | |- keeps _ (try_except _ _) =>
                              apply keeps_try_except;
                              [ apply dor_trans
                              |
                              | intros e h; destruct (is_Exception e);
                                [|discriminate]; intros H; inversion H ]
                          end).
Qed.

Lemma dor_instantiate (c : scenario_class) :
  keeps disconnects_on_response (CredentialTest.instantiate environ c).
Proof.
  destruct c; unfold CredentialTest.instantiate,
    CredentialTest.HappyPathScenario_init,
    CredentialTest.DisconnectReconnectScenario_init,
    CredentialTest.MQTTTestScenario_init; dor_with fail.
Qed.

Lemma cleans_run_scenario (c : scenario_class) (use_cert_auth : bool)
  (w : world) :
  match CredentialTest.run_scenario environ json_dumps decode_replace c
          use_cert_auth w with
  | (Ok _, w') => cleaned_up w w'
  | (Raise _, _) => True
  end.
Proof.
  unfold CredentialTest.run_scenario. rewrite bind_modify.
  set (base := set_response_received false w).
  assert (Hb : response_received base = false) by reflexivity.
  assert (W : forall (e : exn) (w' : world), grows base w' -> True) by trivial.
  match goal with
  | |- match ?m base with _ => _ end =>
      assert (T : triple (disconnects_on_response base) m
                    (fun _ => cleaned_up base) (fun _ _ => True))
  end.
  { eapply triple_bind;
      [ apply (triple_weaken_exc _ _ _ _ _ W), triple_dor, dor_instantiate
      | intros s ].
    unfold Sys.print.
    do 5 (eapply triple_bind;
          [ apply (triple_weaken_exc _ _ _ _ _ W), triple_dor, dor_log
          | intros ? ]).
    eapply triple_bind;
      [ apply (triple_weaken_exc _ _ _ _ _ W), triple_dor, dor_setup
      | intros ? ].
    apply cleans_try_run_body. exact Hb. }
  specialize (T base (dor_refl base)).
  match goal with
  | |- match ?m base with _ => _ end =>
      destruct (m base) as [[u|e] w']; [|exact I]
  end.
  destruct T as [Hl [flag [l [E F]]]]. split; [exact Hl|].
  exists flag, l. split; [exact E | exact F].
Qed.

(** X16: when [run_scenario] returns, the network loop is stopped,
    [client.loop_stop()] was the last action of the run, and
    [client.disconnect()] was called before it. *)
Lemma run_scenario_cleans_up (c : scenario_class) (use_cert_auth : bool)
  (w : world) :
  fst (CredentialTest.run_scenario environ json_dumps decode_replace c
         use_cert_auth w) = Ok tt ->
  loop_running
    (snd (CredentialTest.run_scenario environ json_dumps decode_replace c
            use_cert_auth w)) = false /\
  exists before,
    history (snd (CredentialTest.run_scenario environ json_dumps decode_replace
                    c use_cert_auth w))
    = (history w ++ before ++ [LoopStop])%list /\
    In Disconnect before.
Proof.
  intros Hok.
  pose proof (cleans_run_scenario c use_cert_auth w) as H.
  destruct (CredentialTest.run_scenario environ json_dumps decode_replace c
              use_cert_auth w) as [[u|e] w']; [|discriminate].
  destruct H as [Hl [flag [l [E F]]]]. cbn [snd].
  split; [exact Hl|].
  exists (rev (map eff l)). split.
  - rewrite (history_grown ({| eff := LoopStop; flag_at := flag |} :: l) w w')
      by exact E.
    cbn [map rev eff]. now rewrite app_assoc.
  - apply in_rev. now rewrite rev_involutive.
Qed.

End CleanReturn.

Lemma run_scenario_cleans_up_witness :
  fst (happy_run "400") = Ok tt /\
  loop_running (snd (happy_run "400")) = false /\
  exists before,
    history (snd (happy_run "400"))
    = (history (answered "400") ++ before ++ [LoopStop])%list /\
    In Disconnect before.
Proof.
  unfold happy_run.
  assert (H : fst (CredentialTest.run_scenario no_environ plain_json_dumps
                     ascii_decode HappyPathScenario true (answered "400"))
              = Ok tt) by (vm_compute; reflexivity).
  split; [exact H|].
  apply run_scenario_cleans_up. exact H.
Defined.

(** ** Runs that are answered in time *)

Lemma steady_refl (w : world) : steady w w.
Proof. repeat split. Qed.

Lemma steady_trans (a b c : world) : steady a b -> steady b c -> steady a c.
Proof.
  unfold steady. intros [A1 [A2 [A3 [A4 A5]]]] [B1 [B2 [B3 [B4 B5]]]].
  repeat split; congruence.
Qed.

(** A sleep during which nothing happens. *)
Lemma sleep_idle (handler : net_event -> M unit) (d : Q) (w : world) :
  ticks w = [] ->
  Client.sleep handler d w
  = (Ok tt,
     set_now (Qred (now w + d))
       (set_trace ({| eff := Sleep d; flag_at := response_received w |}
                   :: trace w) w)).
Proof.
  intros Ht. unfold Client.sleep. run. unfold Client.tick_step. fields.
  now rewrite Ht.
Qed.

Lemma ceiling_tenths (t : Z) : Qceiling (inject_Z t / (1 # 10)) = 10 * t.
Proof.
  assert (E : (inject_Z t / (1 # 10) == inject_Z (10 * t))%Q).
  { unfold Qeq, Qdiv, Qmult, Qinv, inject_Z. cbn [Qnum Qden Pos.mul]. lia. }
  rewrite E. apply Qceiling_Z.
Qed.

Lemma in_time (n : nat) (timeout : Z) (t : Q) :
  Z.of_nat n < 10 * timeout ->
  (t - t + inject_Z (Z.of_nat n) * (1 # 10) < inject_Z timeout)%Q.
Proof.
  intros H.
  assert (Hq : (inject_Z (Z.of_nat n) < inject_Z (10 * timeout))%Q)
    by (rewrite <- Zlt_Qlt; exact H).
  rewrite inject_Z_mult in Hq. change (inject_Z 10) with 10%Q in Hq. lra.
Qed.

Lemma enough_rounds (n : nat) (timeout : Z) :
  Z.of_nat n < 10 * timeout ->
  (n + 2 <= Sys.rounds (inject_Z timeout) (1 # 10))%nat.
Proof.
  intros H. unfold Sys.rounds. rewrite ceiling_tenths. lia.
Qed.

(** The handshake that succeeds. *)
Lemma handshake_connects (w W : world) :
  connects w = true -> connect_results W = connect_results w ->
  exists W',
    Client.handshake W = (Ok tt, W')
    /\ response_received W' = response_received W
    /\ now W' = now W /\ ticks W' = ticks W
    /\ trace W' = trace W
    /\ loop_running W' = loop_running W.
Proof.
  intros Hc HW. unfold Client.handshake, connects in *. rewrite HW.
  destruct (connect_results w) as [|[|msg|] rest]; try discriminate;
    eexists; (split; [reflexivity | repeat split]).
Qed.

(** ** The waiting loop when the response arrives in time

    [handler] stands for the callbacks of either script, [quiet] for the
    events they handle without raising and without recording a response,
    and [answer] for what the callback of the response leaves behind. *)

Section AnsweredLoop.

Variable handler : net_event -> M unit.
Variable quiet : net_event -> bool.
Variable topic : string.
Variable payload : list byte.
Variable qos : Z.
Variable answer : world -> Prop.

Hypothesis handler_quiet :
  forall ev w, quiet ev = true ->
    exists w', handler ev w = (Ok tt, w') /\ steady w w'.

Hypothesis handler_message :
  forall w, exists w',
    handler (Message topic payload qos) w = (Ok tt, w')
    /\ response_received w' = true
    /\ loop_running w' = loop_running w
    /\ ticks w' = ticks w
    /\ answer w'.

Lemma deliver_quiet (evs : list net_event) :
  forall w,
    forallb quiet evs = true -> loop_running w = true ->
    steady w (Client.deliver handler evs w).
Proof.
  induction evs as [|ev evs IH]; intros w Hb Hrun; cbn [Client.deliver].
  - apply steady_refl.
  - cbn [forallb] in Hb. apply andb_true_iff in Hb. destruct Hb as [Hev Hevs].
    rewrite Hrun.
    destruct (handler_quiet ev w Hev) as [w' [E S]]. rewrite E.
    apply (steady_trans _ w'); [exact S|].
    apply IH; [exact Hevs|].
    destruct S as [_ [_ [_ [S4 _]]]]. congruence.
Qed.

(** A sleep during which only quiet events arrive. *)
Lemma sleep_quiet (d : Q) (w : world) (evs : list net_event)
  (rest : list tick) :
  ticks w = arrives evs :: rest ->
  forallb quiet evs = true -> loop_running w = true ->
  exists w',
    Client.sleep handler d w = (Ok tt, w')
    /\ response_received w' = response_received w
    /\ (now w' == now w + d)%Q
    /\ loop_running w' = true
    /\ ticks w' = rest.
Proof.
  intros Ht Hb Hrun. unfold Client.sleep. run.
  unfold Client.tick_step. fields. rewrite Ht. cbn [arrivals interrupt arrives].
  eexists. split; [reflexivity|].
  match goal with
  | |- context [Client.deliver _ _ ?W] =>
      destruct (deliver_quiet evs W Hb Hrun) as [S1 [S2 [S3 [S4 S5]]]]
  end.
  rewrite S1, S3, S4, S5. fields.
  repeat split; try assumption. apply Qred_correct.
Qed.

(** A sleep during which the response arrives. *)
Lemma sleep_answered (d : Q) (w : world) (rest : list tick) :
  ticks w = arrives [Message topic payload qos] :: rest ->
  loop_running w = true ->
  exists w',
    Client.sleep handler d w = (Ok tt, w')
    /\ response_received w' = true
    /\ loop_running w' = true
    /\ ticks w' = rest
    /\ answer w'.
Proof.
  intros Ht Hrun. unfold Client.sleep. run.
  unfold Client.tick_step. fields. rewrite Ht. cbn [arrivals interrupt arrives].
  cbn [Client.deliver]. fields. rewrite Hrun.
  match goal with
  | |- context [handler _ ?W] =>
      destruct (handler_message W) as [w' [E [H1 [H2 [H3 H4]]]]]
  end.
  rewrite E. exists w'. split; [reflexivity|].
  fields_in H2. fields_in H3. repeat split; try assumption. congruence.
Qed.

(** The loop, when the response arrives after [before] sleeps with quiet
    events only, and before the timeout. *)
Lemma wait_until_answered (timeout : Z) (start_time : Q) :
  forall (before : list (list net_event)) (fuel : nat) (w : world),
    response_received w = false -> loop_running w = true ->
    ticks w = (map arrives before ++ [arrives [Message topic payload qos]])%list ->
    forallb (forallb quiet) before = true ->
    (now w - start_time + inject_Z (Z.of_nat (List.length before)) * (1 # 10)
     < inject_Z timeout)%Q ->
    (List.length before + 2 <= fuel)%nat ->
    exists w',
      waiting_loop handler (fun w => negb (response_received w)) start_time
        (inject_Z timeout) (1 # 10) fuel w = (Ok tt, w')
      /\ response_received w' = true
      /\ loop_running w' = true
      /\ ticks w' = []
      /\ answer w'.
Proof.
  induction before as [|evs before IH]; intros fuel w Hflag Hrun Ht Hb Hnow Hfuel;
    (destruct fuel as [|fuel]; [simpl in Hfuel; lia|]);
    rewrite waiting_loop_step; rewrite Hflag; cbn [negb andb].
  - assert (E : Qltb (now w - start_time) (inject_Z timeout) = true).
    { unfold Qltb. apply negb_true_iff.
      destruct (Qle_bool (inject_Z timeout) (now w - start_time)) eqn:Q;
        [|reflexivity].
      apply Qle_bool_iff in Q. cbn [List.length] in Hnow.
      change (inject_Z (Z.of_nat 0)) with 0%Q in Hnow. lra. }
    rewrite E.
    destruct (sleep_answered (1 # 10) w [] Ht Hrun)
      as [w' [Es [H1 [H2 [H3 H4]]]]].
    rewrite Es.
    destruct fuel as [|fuel]; [simpl in Hfuel; lia|].
    rewrite waiting_loop_step, H1. cbn [negb andb].
    exists w'. auto.
  - cbn [forallb] in Hb. apply andb_true_iff in Hb. destruct Hb as [Hevs Hb].
    cbn [List.length] in Hnow, Hfuel.
    rewrite Nat2Z.inj_succ in Hnow. unfold Z.succ in Hnow.
    rewrite inject_Z_plus in Hnow.
    assert (Hn : (0 <= inject_Z (Z.of_nat (List.length before)))%Q).
    { change 0%Q with (inject_Z 0). rewrite <- Zle_Qle. lia. }
    change (inject_Z 1) with 1%Q in Hnow.
    set (n := inject_Z (Z.of_nat (List.length before))) in *.
    assert (E : Qltb (now w - start_time) (inject_Z timeout) = true).
    { unfold Qltb. apply negb_true_iff.
      destruct (Qle_bool (inject_Z timeout) (now w - start_time)) eqn:Q;
        [|reflexivity].
      apply Qle_bool_iff in Q. lra. }
    rewrite E.
    destruct (sleep_quiet (1 # 10) w evs _ Ht Hevs Hrun)
      as [w' [Es [H1 [H3 [H4 H5]]]]].
    rewrite Es.
    apply IH; try assumption; try congruence; try lia.
    fold n. rewrite H3. lra.
Qed.

End AnsweredLoop.

Section Answered.

Variable PAHO_MQTT_VERSION : string.
Variable json_dumps : list (string * string) -> string.
Variable decode_replace : list byte -> string.

Lemma dispatch_benign (ud : IssueCert.userdata) (ev : net_event) (w : world) :
  benign ev = true ->
  exists w',
    IssueCert.dispatch decode_replace ud ev w = (Ok tt, w') /\ steady w w'.
Proof.
  destruct ev as [rc|mid [|q qs]|mid|topic payload qos|rc]; cbn [benign];
    intros H; try discriminate;
    unfold IssueCert.dispatch, IssueCert.on_connect, IssueCert.on_subscribe,
      IssueCert.on_publish, IssueCert.on_disconnect, Client.subscribe,
      Client.publish, Sys.print, getitem.
  - rewrite H. run. eexists. split; [reflexivity | repeat split].
  - cbn [nth_error]. run. unfold bind, Client.publish_result. fields.
    destruct (publish_results w) as [|[rc mid'] rest]; fields;
      match goal with |- context [if ?b then _ else _] => destruct b end;
      run; eexists; (split; [reflexivity | repeat split]).
  - run. eexists. split; [reflexivity | repeat split].
  - run. destruct (rc =? 0); run; eexists; (split; [reflexivity | repeat split]).
Qed.

Lemma dispatch_response (ud : IssueCert.userdata) (topic : string)
  (payload : list byte) (qos : Z) (w : world) :
  exists w',
    IssueCert.dispatch decode_replace ud (Message topic payload qos) w
    = (Ok tt, w')
    /\ response_received w' = true
    /\ loop_running w' = loop_running w
    /\ ticks w' = ticks w
    /\ response_data w'
       = Some (topic, payload_text decode_replace payload, status_of topic).
Proof.
  destruct (issue_on_message_runs decode_replace topic payload qos w)
    as [older E].
  cbn [IssueCert.dispatch]. rewrite E. eexists. split; [reflexivity|].
  repeat split.
Qed.

Lemma try_main_body_answered (a : IssueCert.args) (ud : IssueCert.userdata)
  (w : world) (before : list (list net_event)) (topic : string)
  (payload : list byte) (qos : Z) :
  response_received w = false -> connects w = true ->
  ticks w = (map arrives before ++ [arrives [Message topic payload qos]])%list ->
  forallb (forallb benign) before = true ->
  Z.of_nat (List.length before) < 10 * IssueCert.arg_timeout a ->
  fst (try_except (IssueCert.main_body decode_replace a ud)
         IssueCert.main_handler w)
  = Raise (SystemExit (if option_eqb (status_of topic) "202" then 0 else 1)).
Proof.
  intros Hflag Hconn Ht Hb Hn.
  assert (Body :
    fst (IssueCert.main_body decode_replace a ud w)
    = Raise (SystemExit (if option_eqb (status_of topic) "202" then 0 else 1))).
  { unfold IssueCert.main_body, Client.connect, Client.loop_start,
      Client.loop_stop, Sys.print, Sys.time_time, Sys.sys_exit.
    run.
    match goal with
    | |- context [bind Client.handshake _ ?W] =>
        destruct (handshake_connects w W Hconn eq_refl)
          as [W' [Eh [S1 [S2 [S3 [S4 S5]]]]]];
        rewrite (bind_ok _ _ _ _ _ Eh);
        fields_in S1; fields_in S2; fields_in S3; fields_in S4; fields_in S5
    end.
    run.
    match goal with
    | |- context [bind (IssueCert.wait_for_response _ _ _ ?st) _ ?W] =>
        destruct (wait_until_answered (IssueCert.dispatch decode_replace ud)
                    benign topic payload qos
                    (fun w' => response_data w'
                               = Some (topic, payload_text decode_replace payload,
                                       status_of topic))
                    (dispatch_benign ud)
                    (dispatch_response ud topic payload qos)
                    (IssueCert.arg_timeout a) st before
                    (Sys.rounds (inject_Z (IssueCert.arg_timeout a)) (1 # 10)) W)
          as [W2 [Ew [R1 [R3 [R4 R2]]]]]
    end; fields; try assumption; try congruence.
    { rewrite S2. now apply in_time. }
    { now apply enough_rounds. }
    change (waiting_loop (IssueCert.dispatch decode_replace ud)
              (fun w => negb (response_received w)) ?st
              (inject_Z (IssueCert.arg_timeout a)) (1 # 10)
              (Sys.rounds (inject_Z (IssueCert.arg_timeout a)) (1 # 10)))
      with (IssueCert.wait_for_response decode_replace ud
              (IssueCert.arg_timeout a) st) in Ew.
    rewrite (bind_ok _ _ _ _ _ Ew).
    run. rewrite R1. cbn [negb]. run.
    rewrite (bind_ok _ _ _ _ _ (sleep_idle _ _ W2 R4)).
    run. rewrite R2. cbn [IssueCert.accepted]. unfold status_of.
    destruct (option_eqb (nth_error (split topic slash) 3) "202"); reflexivity. }
  unfold try_except.
  destruct (IssueCert.main_body decode_replace a ud w) as [r w'].
  cbn [fst] in Body. subst r.
  destruct (option_eqb (status_of topic) "202"); reflexivity.
Qed.

(** X17: when the connection is made and the response arrives in time,
    [main] of [mqtt_issue_cert.py] exits with status 0 if segment 3 of the
    response topic is [202], and with status 1 otherwise.  In time means:
    no response is recorded at the start, the response arrives during a
    sleep of the waiting loop that fewer than ten sleeps per second of
    timeout precede, and during those only accepted connections, granted
    subscriptions, acknowledged publishes and disconnections arrive. *)
Lemma issue_cert_exit_status_follows_the_response (a : IssueCert.args)
  (w : world) (before : list (list net_event)) (topic : string)
  (payload : list byte) (qos : Z) :
  response_received w = false -> connects w = true ->
  ticks w = (map arrives before ++ [arrives [Message topic payload qos]])%list ->
  forallb (forallb benign) before = true ->
  Z.of_nat (List.length before) < 10 * IssueCert.arg_timeout a ->
  fst (IssueCert.main PAHO_MQTT_VERSION json_dumps decode_replace a w)
  = Raise (SystemExit (if option_eqb (status_of topic) "202" then 0 else 1)).
Proof.
  intros Hflag Hconn Ht Hb Hn.
  unfold IssueCert.main, bind at 1, Sys.randint.
  destruct (entropy w) as [|x rest]; cbv zeta; unfold Sys.print; run;
    apply (try_main_body_answered a _ _ before topic payload qos);
    fields; assumption.
Qed.

End Answered.

Lemma issue_cert_exit_status_follows_the_response_witness :
  fst (IssueCert.main "1.6.1" plain_json_dumps ascii_decode issue_cert_args
         (answered "202"))
  = Raise (SystemExit
             (if option_eqb
                   (status_of "$iothub/credentials/res/202/?$rid=42&$version=1")
                   "202"
              then 0 else 1)).
Proof.
  apply (issue_cert_exit_status_follows_the_response "1.6.1" plain_json_dumps
           ascii_decode issue_cert_args (answered "202")
           [[Connack 0]; [Suback 1 [1]]; [Puback 2]]
           "$iothub/credentials/res/202/?$rid=42&$version=1" [] 1);
    reflexivity.
Defined.

(** ** Concrete runs *)

(** C3, at its failing inputs: the scenario runner ends with exit status 0
    when the response carries the status "400" and the failure is printed,
    when no response arrives within the timeout, when the user interrupts and
    when the broker refuses the connection; [mqtt_issue_cert.py] ends with
    status 1 in each of these runs, and both end with status 0 on "202". *)
Theorem scenario_runner_exit_status_ignores_outcome :
  (* validation failure *)
  exit_status (fst (run_test happy_path_with_certificate (answered "400"))) = 0 /\
  printed (LF ++ "✗ FAILURE: Expected status code 202, got 400")
    (snd (run_test happy_path_with_certificate (answered "400"))) = true /\
  (* timeout *)
  exit_status (fst (run_test happy_path_with_certificate silent)) = 0 /\
  printed (LF ++ "✗ Timeout: No response received after 15 seconds")
    (snd (run_test happy_path_with_certificate silent)) = true /\
  exit_status (fst (run_test reconnect_with_certificate silent)) = 0 /\
  (* interruption *)
  exit_status (fst (run_test happy_path_with_certificate interrupted_run)) = 0 /\
  printed (LF ++ "✗ Interrupted by user")
    (snd (run_test happy_path_with_certificate interrupted_run)) = true /\
  (* connection refused by the broker *)
  exit_status (fst (run_test happy_path_with_certificate refused)) = 0 /\
  printed "✗ Connection failed with code 5"
    (snd (run_test happy_path_with_certificate refused)) = true /\
  (* the sibling script on the same runs *)
  exit_status (fst (issue_cert issue_cert_args (answered "400"))) = 1 /\
  exit_status (fst (issue_cert issue_cert_args silent)) = 1 /\
  exit_status (fst (issue_cert issue_cert_args interrupted_run)) = 1 /\
  exit_status (fst (issue_cert issue_cert_args refused)) = 1 /\
  (* validated success *)
  exit_status (fst (run_test happy_path_with_certificate (answered "202"))) = 0 /\
  exit_status (fst (issue_cert issue_cert_args (answered "202"))) = 0.
Proof. repeat split; vm_compute; reflexivity. Qed.

(** C9 as stated fails: with [--list-scenarios] an unknown scenario name is
    not reported and the exit status is 0; without an authentication flag the
    error reported is the missing flag, with status 2. *)
Lemma unknown_scenario_not_always_reported :
  ~ (forall (a : CredentialTest.args) (w : world),
       CredentialTest.registered (CredentialTest.arg_scenario a) = false ->
       exit_status (fst (run_test a w)) <> 0 /\
       In (unknown_scenario_error (CredentialTest.arg_scenario a))
          (history (snd (run_test a w)))).
Proof.
  intros H.
  destruct (H list_unknown silent eq_refl) as [Hexit _].
  apply Hexit. vm_compute. reflexivity.
Qed.

Lemma unknown_scenario_never_connects_witness :
  exists new,
    history (snd (run_test run_unknown silent)) = (history silent ++ new)%list /\
    (forall host port keepalive, ~ In (Connect host port keepalive) new) /\
    (CredentialTest.arg_list_scenarios run_unknown = false ->
     CredentialTest.arg_cert run_unknown || CredentialTest.arg_sas run_unknown
       = true ->
     fst (run_test run_unknown silent) = Raise (SystemExit 1) /\
     exit_status (fst (run_test run_unknown silent)) <> 0 /\
     new = unknown_scenario_error (CredentialTest.arg_scenario run_unknown)
             :: scenario_listing) /\
    (CredentialTest.arg_list_scenarios run_unknown = true ->
     fst (run_test run_unknown silent) = Ok tt /\
     exit_status (fst (run_test run_unknown silent)) = 0 /\
     new = scenario_listing) /\
    (CredentialTest.arg_list_scenarios run_unknown = false ->
     CredentialTest.arg_cert run_unknown || CredentialTest.arg_sas run_unknown
       = false ->
     fst (run_test run_unknown silent) = Raise (SystemExit 2) /\
     exit_status (fst (run_test run_unknown silent)) = 2 /\
     new = argument_error).
Proof.
  apply (unknown_scenario_never_connects no_environ plain_json_dumps
           ascii_decode run_unknown silent).
  reflexivity.
Defined.

Lemma response_flag_reset_before_connect_witness :
  response_received after_a_run = true /\
  exists new,
    trace (snd (CredentialTest.run_scenario no_environ plain_json_dumps
                  ascii_decode Scenario.HappyPathScenario true after_a_run))
    = (new ++ trace after_a_run)%list /\
    first_connect_flag (rev new) = Some false.
Proof.
  split; [reflexivity|].
  destruct (response_flag_reset_before_connect no_environ plain_json_dumps
              ascii_decode Scenario.HappyPathScenario true after_a_run)
    as [new [E [_ F]]].
  exists new. split; [exact E | exact (F eq_refl)].
Defined.

Lemma run_scenario_ends_witness :
  fst (try_except
         (CredentialTest.run_body no_environ plain_json_dumps ascii_decode
            sample_happy)
         CredentialTest.run_handler refused) = Ok tt
  \/ fst (try_except
            (CredentialTest.run_body no_environ plain_json_dumps ascii_decode
               sample_happy)
            CredentialTest.run_handler refused) = Raise (SystemExit 1).
Proof.
  apply run_scenario_ends. vm_compute. discriminate.
Defined.

Lemma run_scenario_returns_witness :
  fst (try_except
         (CredentialTest.run_body no_environ plain_json_dumps ascii_decode
            sample_reconnect)
         CredentialTest.run_handler (answered "500")) = Ok tt.
Proof.
  apply run_scenario_returns.
  - vm_compute. discriminate.
  - intros msg [].
Defined.

Lemma sas_token_fails_fast_when_decoding_raises_witness :
  fst (CredentialTest.generate_sas_token "myhub.azure-devices.net" "abc"
         (Some "iothubowner") 3600 quiet_world) = Raise (SystemExit 1) /\
  history (snd (CredentialTest.generate_sas_token "myhub.azure-devices.net"
                  "abc" (Some "iothubowner") 3600 quiet_world))
  = (history quiet_world
     ++ [Print ("✗ Error decoding key: "
                ++ str_of_exn (BinasciiError "Incorrect padding"))])%list.
Proof.
  assert (Hk : Base64.b64decode "abc" = Raise (BinasciiError "Incorrect padding"))
    by (vm_compute; reflexivity).
  assert (Ht : expiry_epoch (now quiet_world) 3600 = Ok 1700003600)
    by (vm_compute; reflexivity).
  pose proof (sas_token_fails_fast_when_decoding_raises
                "myhub.azure-devices.net" "abc" (Some "iothubowner") 3600
                quiet_world (BinasciiError "Incorrect padding") Hk) as [H _].
  rewrite Ht in H. exact H.
Defined.


